(** * NNCF: OpenVINO model transformer and tensor statistics

    A shallow embedding of
      - [nncf/openvino/graph/model_transformer.py] (class [OVModelTransformer])
      - [nncf/experimental/common/tensor_statistics/statistics.py]
    together with the properties stated about them.

    The OpenVINO runtime objects ([ov.Model], [ov.Node], input and output
    ports) are modelled as an arena of nodes: a node is identified by its
    index in the arena, an input port by a pair (node, input index), an
    output port by a pair (node, output index).  Mutation in place
    ([replace_source_output], [set_function]) becomes explicit state
    passing over the arena; Python exceptions become the [Err] case of a
    small error monad.

    Two conventions of the model.  Nodes are never freed: a node that the
    model no longer reaches stays in the arena (and keeps reading what it
    read), while [model.get_ops()] lists the reached nodes only.  Where
    OpenVINO hands out a set of ports, the model lists them in arena
    order. *)

From Stdlib Require Import QArith Qabs.
From stdpp Require Import gmap strings list fin_maps pretty.

Open Scope string_scope.
Open Scope list_scope.
Open Scope nat_scope.

(** ** Python exceptions as an error monad *)

Inductive error : Type :=
  | KeyError (key : string)
  | IndexError
  | RuntimeError (msg : string)
  | NotImplementedError (msg : string)
  | AssertionError
  | ValueError
  | AttributeError (attr : string)
  | NonTermination.

Inductive result (A : Type) : Type :=
  | Ok (a : A)
  | Err (e : error).
Arguments Ok {A} a.
Arguments Err {A} e.

Global Instance error_eq_dec : EqDecision error.
Proof. solve_decision. Defined.

Global Instance result_eq_dec {A : Type} `{EqDecision A} : EqDecision (result A).
Proof. solve_decision. Defined.

Global Instance result_ret : MRet result := fun A a => Ok a.

Global Instance result_bind : MBind result := fun A B k r =>
  match r with
  | Ok a => k a
  | Err e => Err e
  end.

Definition of_option {A : Type} (o : option A) (e : error) : result A :=
  match o with
  | Some a => Ok a
  | None => Err e
  end.

(** A Python [for] loop whose body may raise: the state is threaded through
    the items in order and the first exception aborts the loop. *)
Fixpoint for_each {S X : Type} (body : X → S → result S) (xs : list X) (s : S)
  : result S :=
  match xs with
  | [] => Ok s
  | x :: rest => s' ← body x s; for_each body rest s'
  end.

(** ** Tensors

    Numeric payloads are kept symbolic: a value is a rational literal, or a
    literal seen through numpy's [clip] and [astype].  No floating-point
    rounding is interpreted. *)

Inductive dtype : Type := f16 | f32 | f64 | i8 | u8 | i32 | i64 | boolean.

Global Instance dtype_eq_dec : EqDecision dtype.
Proof. solve_decision. Defined.

Inductive value : Type :=
  | Lit (q : Q)
  | Clip (lo hi : Q) (v : value)
  | AsType (d : dtype) (v : value).

Record ndarray : Type := mk_ndarray {
  shape : list nat;
  nd_dtype : dtype;
  flat : list value;
}.

Definition numel (s : list nat) : nat := foldr Nat.mul 1 s.

(** [np.reshape(a, s)]: raises ValueError when the sizes disagree. *)
Definition np_reshape (a : ndarray) (s : list nat) : result ndarray :=
  if decide (numel s = length (flat a))
  then Ok (mk_ndarray s (nd_dtype a) (flat a))
  else Err ValueError.

(** [a.astype(d)] *)
Definition astype (a : ndarray) (d : dtype) : ndarray :=
  mk_ndarray (shape a) d (AsType d <$> flat a).

(** [np.clip(a, lo, hi)] *)
Definition np_clip (a : ndarray) (lo hi : Q) : ndarray :=
  mk_ndarray (shape a) (nd_dtype a) (Clip lo hi <$> flat a).

(** [np.finfo(np.float16).max] is 65504 and [.min] is -65504. *)
Definition finfo_f16_max : Q := 65504.
Definition finfo_f16_min : Q := - 65504.

Definition _convert_to_fp16 (data : ndarray) : ndarray :=
  astype (np_clip data finfo_f16_min finfo_f16_max) f16.

(** ** The OpenVINO graph: nodes, ports and models

    [ov.Node] objects live in an arena; a node id is an index into it.  An
    input port stores the output port it reads from.  A conditional ([If])
    node owns its two body models, hence the mutual definition. *)

Abbreviation node_id := nat (only parsing).
(** An output port [(node, output index)]; [ov.Output]. *)
Abbreviation output_port := (nat * nat)%type (only parsing).
(** An input port [(node, input index)]; [ov.Input]. *)
Abbreviation input_port := (nat * nat)%type (only parsing).

(** [DescriptorTensor] of an output: element type, shape and tensor names. *)
Record tensor_desc : Type := mk_tensor_desc {
  element_type : dtype;
  partial_shape : list nat;
  tensor_names : gset string;
}.

Inductive node : Type := mk_node {
  friendly_name : string;
  type_name : string;
  inputs : list output_port;
  outputs : list tensor_desc;
  data : option ndarray;
  op_levels : option nat;
  op_destination_type : option string;
  functions : list model;
}
with model : Type := mk_model {
  arena : list node;
  parameters : list node_id;
  results : list node_id;
  sinks : list node_id;
  model_friendly_name : string;
}.

Definition set_inputs (n : node) (ins : list output_port) : node :=
  mk_node (friendly_name n) (type_name n) ins (outputs n) (data n)
          (op_levels n) (op_destination_type n) (functions n).

Definition set_outputs (n : node) (outs : list tensor_desc) : node :=
  mk_node (friendly_name n) (type_name n) (inputs n) outs (data n)
          (op_levels n) (op_destination_type n) (functions n).

Definition set_functions (n : node) (fs : list model) : node :=
  mk_node (friendly_name n) (type_name n) (inputs n) (outputs n) (data n)
          (op_levels n) (op_destination_type n) fs.

Definition set_arena (m : model) (a : list node) : model :=
  mk_model a (parameters m) (results m) (sinks m) (model_friendly_name m).

(** [node.input(port_id)]: the port exists or the runtime raises. *)
Definition node_input (a : list node) (n : node_id) (port_id : nat)
  : result input_port :=
  nd ← of_option (a !! n) IndexError;
  if decide (port_id < length (inputs nd)) then Ok (n, port_id) else Err IndexError.

(** [node.output(port_id)] *)
Definition node_output (a : list node) (n : node_id) (port_id : nat)
  : result output_port :=
  nd ← of_option (a !! n) IndexError;
  if decide (port_id < length (outputs nd)) then Ok (n, port_id) else Err IndexError.

(** [input.get_source_output()] *)
Definition get_source_output (a : list node) (p : input_port) : result output_port :=
  nd ← of_option (a !! p.1) IndexError;
  of_option (inputs nd !! p.2) IndexError.

(** [node.input_value(port_id)] *)
Definition input_value (a : list node) (n : node_id) (port_id : nat)
  : result output_port :=
  get_source_output a (n, port_id).

(** [output.get_element_type()] *)
Definition output_element_type (a : list node) (o : output_port) : result dtype :=
  nd ← of_option (a !! o.1) IndexError;
  d ← of_option (outputs nd !! o.2) IndexError;
  Ok (element_type d).

(** [input.get_element_type()]: the type of the tensor the port reads. *)
Definition input_element_type (a : list node) (p : input_port) : result dtype :=
  src ← get_source_output a p;
  output_element_type a src.

(** The input ports of node [n] (given as [nd]) that read [o]. *)
Definition ports_reading (o : output_port) (n : node_id) (nd : node) : list input_port :=
  (λ ip, (n, ip.1)) <$> filter (λ ip, ip.2 = o) (imap (λ i src, (i, src)) (inputs nd)).

(** [output.get_target_inputs()]: every input port of the arena bound to
    [o].  OpenVINO returns a set; here the ports come in arena order. *)
Definition get_target_inputs (a : list node) (o : output_port) : list input_port :=
  mjoin (imap (ports_reading o) a).

(** [input.replace_source_output(o)] *)
Definition replace_source_output (a : list node) (p : input_port) (o : output_port)
  : list node :=
  alter (λ nd, set_inputs nd (<[p.2 := o]> (inputs nd))) p.1 a.

(** A freshly constructed node is appended; its id is the old length. *)
Definition new_node (a : list node) (nd : node) : list node * node_id :=
  (a ++ [nd], length a).

(** ** [model.get_ops()] and the name index *)

(** The nodes the inputs of node [i] read from. *)
Definition producers (a : list node) (i : node_id) : list node_id :=
  match a !! i with
  | Some nd => fst <$> inputs nd
  | None => []
  end.

(** Backward closure from a set of nodes, [fuel] rounds of it. *)
Fixpoint reach (a : list node) (fuel : nat) (s : gset node_id) : gset node_id :=
  match fuel with
  | O => s
  | S fuel' => reach a fuel' (s ∪ list_to_set (elements s ≫= producers a))
  end.

Definition roots (m : model) : list node_id :=
  results m ++ sinks m ++ parameters m.

(** [model.get_ops()]: the nodes of the arena the model still reaches from
    its results, sinks and parameters.  A path has at most as many nodes as
    the arena, so that many rounds close the set. *)
Definition get_ops (m : model) : list node_id :=
  let live := reach (arena m) (length (arena m)) (list_to_set (roots m)) in
  filter (λ i, i ∈ live) (seq 0 (length (arena m))).

Definition node_name (a : list node) (i : node_id) : string :=
  match a !! i with
  | Some nd => friendly_name nd
  | None => ""
  end.

Definition node_type_name (a : list node) (i : node_id) : string :=
  match a !! i with
  | Some nd => type_name nd
  | None => ""
  end.

(** A dict comprehension: a later item with the same key replaces an
    earlier one. *)
Definition dict_of_items {V : Type} (items : list (string * V)) : gmap string V :=
  foldl (λ d kv, <[kv.1 := kv.2]> d) ∅ items.

Definition _get_name_to_node_mapping (m : model) : gmap string node_id :=
  dict_of_items ((λ op, (node_name (arena m) op, op)) <$> get_ops m).

(** [d[key]] *)
Definition getitem {V : Type} (d : gmap string V) (key : string) : result V :=
  of_option (d !! key) (KeyError key).

(** ** Node construction ([opset], [ov.op.Constant]) *)

Definition plain_node (name type : string) (ins : list output_port)
    (outs : list tensor_desc) : node :=
  mk_node name type ins outs None None None [].

(** [opset.constant(value, dtype=dtype, name=name)] *)
Definition _create_constant (a : list node) (v : ndarray) (d : dtype) (name : string)
  : list node * node_id :=
  new_node a (mk_node name "Constant" []
                [mk_tensor_desc d (shape v) ∅] (Some (astype v d)) None None []).

(** [ov.op.Constant(value, shared_memory=True)] followed by
    [set_friendly_name(name)]: the array is taken as it is. *)
Definition op_Constant (a : list node) (v : ndarray) (name : string)
  : list node * node_id :=
  new_node a (mk_node name "Constant" []
                [mk_tensor_desc (nd_dtype v) (shape v) ∅] (Some v) None None []).

(** The descriptor of an element-wise node's single output: the type and
    shape of the data it reads. *)
Definition like_output (a : list node) (o : output_port) : result tensor_desc :=
  nd ← of_option (a !! o.1) IndexError;
  d ← of_option (outputs nd !! o.2) IndexError;
  Ok (mk_tensor_desc (element_type d) (partial_shape d) ∅).

(** [opset.fake_quantize(data, il, ih, ol, oh, levels, name=name)] *)
Definition opset_fake_quantize (a : list node) (x il ih ol oh : output_port)
    (levels : nat) (name : string) : result (list node * node_id) :=
  d ← like_output a x;
  Ok (new_node a (mk_node name "FakeQuantize" [x; il; ih; ol; oh] [d]
                    None (Some levels) None [])).

(** [opset.fake_convert(data, scale, shift, destination_type, name)] *)
Definition opset_fake_convert (a : list node) (x scale shift : output_port)
    (dest : string) (name : string) : result (list node * node_id) :=
  d ← like_output a x;
  Ok (new_node a (mk_node name "FakeConvert" [x; scale; shift] [d]
                    None None (Some dest) [])).

(** [opset.add(x, y, name=name)] and [opset.multiply(x, y, name=name)] *)
Definition opset_binary (type : string) (a : list node) (x y : output_port)
    (name : string) : result (list node * node_id) :=
  d ← like_output a x;
  _ ← like_output a y;
  Ok (new_node a (plain_node name type [x; y] [d])).

Definition opset_add := opset_binary "Add".
Definition opset_multiply := opset_binary "Multiply".

(** [opset.result(output, name=name)] *)
Definition opset_result (a : list node) (x : output_port) (name : string)
  : result (list node * node_id) :=
  d ← like_output a x;
  Ok (new_node a (plain_node name "Result" [x] [d])).

(** [opset.parameter(shape=, dtype=, name=)] *)
Definition opset_parameter (a : list node) (s : list nat) (d : dtype) (name : string)
  : list node * node_id :=
  new_node a (plain_node name "Parameter" [] [mk_tensor_desc d s ∅]).

(** [_update_tensor_name(tensors, name)], for the tensors of the listed
    output ports: the name is added to each one's set of names. *)
Definition add_tensor_name (name : string) (d : tensor_desc) : tensor_desc :=
  mk_tensor_desc (element_type d) (partial_shape d) ({[name]} ∪ tensor_names d).

Definition _update_tensor_name (a : list node) (tensors : list output_port)
    (name : string) : list node :=
  foldl (λ a' o,
           alter (λ nd, set_outputs nd (alter (add_tensor_name name) o.2 (outputs nd)))
                 o.1 a')
        a tensors.

(** ** Target points and commands *)

(** Modelled from the spec: [TargetType] is declared in
    [nncf/common/graph/transformations/commands.py], which is not among the
    sources.  The spec names three members; [OTHER_TARGET_TYPE] stands for
    every further member of the enum, which the appliers reject. *)
Inductive TargetType : Type :=
  | PRE_LAYER_OPERATION
  | POST_LAYER_OPERATION
  | OPERATION_WITH_WEIGHTS
  | OTHER_TARGET_TYPE.

Global Instance TargetType_eq_dec : EqDecision TargetType.
Proof. solve_decision. Defined.

Record OVTargetPoint : Type := mk_target_point {
  target_type : TargetType;
  target_node_name : string;
  port_id : nat;
}.

Record FakeQuantizeParameters : Type := mk_fq_params {
  input_low : ndarray;
  input_high : ndarray;
  output_low : ndarray;
  output_high : ndarray;
  levels : nat;
}.

Record FakeConvertParameters : Type := mk_fc_params {
  scale : ndarray;
  shift : ndarray;
  destination_type : string;
}.

(** The caller's function of an in-place insertion command: given a node
    and a port it builds nodes and returns the last one. *)
Definition inplace_fn : Type :=
  list node → node_id → nat → result (list node * node_id).

Inductive command : Type :=
  | OVFQNodeRemovingCommand (target_point : OVTargetPoint)
  | OVQuantizerInsertionCommand (target_point : OVTargetPoint)
      (quantizer_parameters : FakeQuantizeParameters)
  | OVConvertInsertionCommand (target_point : OVTargetPoint)
      (convert_parameters : FakeConvertParameters)
  | OVBiasCorrectionCommand (target_point : OVTargetPoint) (bias_value : ndarray)
  | OVWeightUpdateCommand (target_point : OVTargetPoint) (weight_value : ndarray)
  | OVModelExtractionCommand (input_ids output_ids : list (string * nat))
  | OVInplaceFnInsertionCommand (target_point : OVTargetPoint)
      (inplace_op_fn : inplace_fn) (fn_output_port_id : nat)
  | OVOutputInsertionCommand (target_point : OVTargetPoint)
  | OVBiasInsertionCommand (target_point : OVTargetPoint) (bias_value : ndarray)
  | OVMultiplyInsertionCommand (target_point : OVTargetPoint) (scale_value : ndarray)
      (destination_node_names : list string) (multiply_node_name : string)
  | OVUpdateIfBodyCommand (target_point : OVTargetPoint) (subgraph_model : model)
  | OVExtractIfBodyCommand (if_node_name : string) (if_body_condition : bool).

(** [transformation.__class__] *)
Inductive command_class : Type :=
  | cls_FQNodeRemoving | cls_QuantizerInsertion | cls_ConvertInsertion
  | cls_BiasCorrection | cls_WeightUpdate | cls_ModelExtraction
  | cls_InplaceFnInsertion | cls_OutputInsertion | cls_BiasInsertion
  | cls_MultiplyInsertion | cls_UpdateIfBody | cls_ExtractIfBody.

Global Instance command_class_eq_dec : EqDecision command_class.
Proof. solve_decision. Defined.

Definition class_of (c : command) : command_class :=
  match c with
  | OVFQNodeRemovingCommand _ => cls_FQNodeRemoving
  | OVQuantizerInsertionCommand _ _ => cls_QuantizerInsertion
  | OVConvertInsertionCommand _ _ => cls_ConvertInsertion
  | OVBiasCorrectionCommand _ _ => cls_BiasCorrection
  | OVWeightUpdateCommand _ _ => cls_WeightUpdate
  | OVModelExtractionCommand _ _ => cls_ModelExtraction
  | OVInplaceFnInsertionCommand _ _ _ => cls_InplaceFnInsertion
  | OVOutputInsertionCommand _ => cls_OutputInsertion
  | OVBiasInsertionCommand _ _ => cls_BiasInsertion
  | OVMultiplyInsertionCommand _ _ _ _ => cls_MultiplyInsertion
  | OVUpdateIfBodyCommand _ _ => cls_UpdateIfBody
  | OVExtractIfBodyCommand _ _ => cls_ExtractIfBody
  end.

(** Modelled from the spec: [get_result_node_name] and
    [get_parameter_node_name] are helpers of
    [nncf/openvino/graph/node_utils.py], which is not among the sources; the
    spec only says that new terminals are named after the node and port. *)
Definition get_result_node_name (output_name : string) (port : nat) : string :=
  "Result_" +:+ output_name +:+ "." +:+ pretty port.

Definition get_parameter_node_name (input_name : string) (port : nat) : string :=
  "Parameter_" +:+ input_name +:+ "." +:+ pretty port.

(** ** Appliers: node removal *)

(** Every input port currently bound to [o] is bound to [o'] instead. *)
Definition rewire_consumers (a : list node) (o o' : output_port) : list node :=
  foldl (λ a' target_in, replace_source_output a' target_in o') a (get_target_inputs a o).

(** The body of the loop of [_apply_fq_nodes_removing_transformation]; the
    state is the arena and the applier's own name index. *)
Definition fq_node_removing_step (t : OVTargetPoint)
    (s : list node * gmap string node_id) : result (list node * gmap string node_id) :=
  let '(a, name_to_node_mapping) := s in
  nd ← getitem name_to_node_mapping (target_node_name t);
  node_input ← input_value a nd 0;
  let n_out := match a !! nd with Some x => length (outputs x) | None => 0 end in
  let a' := foldl (λ a' k, rewire_consumers a' (nd, k) node_input) a (seq 0 n_out) in
  Ok (a', delete (target_node_name t) name_to_node_mapping).

Definition _apply_fq_nodes_removing_transformation (m : model)
    (transformations : list OVTargetPoint) : result model :=
  '(a, _) ← for_each fq_node_removing_step transformations
               (arena m, _get_name_to_node_mapping m);
  Ok (set_arena m a).

(** ** Appliers: FakeQuantize and FakeConvert insertion *)

Definition _create_fake_quantize (a : list node) (op_output : output_port)
    (fake_quantize_params : FakeQuantizeParameters) (fake_quantize_name : string)
    (convert_to_fp16 : bool) : result (list node * node_id) :=
  let conv (x : ndarray) := if convert_to_fp16 then _convert_to_fp16 x else x in
  let dt := if convert_to_fp16 then f16 else f32 in
  let '(a1, il) := _create_constant a (conv (input_low fake_quantize_params)) dt
                     (fake_quantize_name +:+ "/input_low") in
  let '(a2, ih) := _create_constant a1 (conv (input_high fake_quantize_params)) dt
                     (fake_quantize_name +:+ "/input_high") in
  let '(a3, ol) := _create_constant a2 (conv (output_low fake_quantize_params)) dt
                     (fake_quantize_name +:+ "/output_low") in
  let '(a4, oh) := _create_constant a3 (conv (output_high fake_quantize_params)) dt
                     (fake_quantize_name +:+ "/output_high") in
  opset_fake_quantize a4 op_output (il, 0) (ih, 0) (ol, 0) (oh, 0)
    (levels fake_quantize_params) fake_quantize_name.

Definition _create_fake_convert (a : list node) (op_output : output_port)
    (fake_convert_params : FakeConvertParameters) (fake_convert_name : string)
    (convert_to_fp16 : bool) : result (list node * node_id) :=
  let conv (x : ndarray) := if convert_to_fp16 then _convert_to_fp16 x else x in
  let dt := if convert_to_fp16 then f16 else f32 in
  let '(a1, sc) := _create_constant a (conv (scale fake_convert_params)) dt
                     (fake_convert_name +:+ "/scale") in
  let '(a2, sh) := _create_constant a1 (conv (shift fake_convert_params)) dt
                     (fake_convert_name +:+ "/shift") in
  opset_fake_convert a2 op_output (sc, 0) (sh, 0)
    (destination_type fake_convert_params) fake_convert_name.

(** The loop [for out in o.get_target_inputs(): if out.get_node()
    .get_type_name() == type: found = out.get_node()]: the last consumer of
    that type, if any. *)
Definition consumers_of_type (a : list node) (o : output_port) (type : string)
  : list node_id :=
  filter (λ n, node_type_name a n = type) (fst <$> get_target_inputs a o).

Definition last_consumer_of_type (a : list node) (o : output_port) (type : string)
  : option node_id :=
  last (consumers_of_type a o type).

Definition _insert_fake_quantize_op (transformation : OVTargetPoint)
    (fq_params : FakeQuantizeParameters)
    (name_to_node_mapping : gmap string node_id) (a : list node) : result (list node) :=
  let node_name := target_node_name transformation in
  target_node ← getitem name_to_node_mapping node_name;
  let port_id := port_id transformation in
  let transform_type := target_type transformation in
  if decide (transform_type = PRE_LAYER_OPERATION ∨ transform_type = OPERATION_WITH_WEIGHTS)
  then
    inp_node ← node_input a target_node port_id;
    input_node_output ← get_source_output a inp_node;
    data_type ← input_element_type a inp_node;
    let convert_to_fp16 := bool_decide (data_type = f16) in
    let name := if decide (transform_type = OPERATION_WITH_WEIGHTS)
                then "fq_weights" else "fq_input" in
    let fq_name := node_name +:+ "/" +:+ name +:+ "_" +:+ pretty port_id in
    let fq := if decide (transform_type = OPERATION_WITH_WEIGHTS)
              then last_consumer_of_type a input_node_output "FakeQuantize"
              else None in
    '(a', fq) ← match fq with
                | Some fq => Ok (a, fq)
                | None => _create_fake_quantize a input_node_output fq_params fq_name
                            convert_to_fp16
                end;
    Ok (replace_source_output a' inp_node (fq, 0))
  else if decide (transform_type = POST_LAYER_OPERATION)
  then
    output ← node_output a target_node port_id;
    data_type ← output_element_type a output;
    let convert_to_fp16 := bool_decide (data_type = f16) in
    let target_inputs := get_target_inputs a output in
    let fq_name := node_name +:+ "/fq_output_" +:+ pretty port_id in
    '(a', fq) ← _create_fake_quantize a output fq_params fq_name convert_to_fp16;
    Ok (foldl (λ a'' inp_node, replace_source_output a'' inp_node (fq, 0)) a' target_inputs)
  else Err (RuntimeError "Incorrect target point type").

Definition _insert_fake_convert_op (transformation : OVTargetPoint)
    (fc_params : FakeConvertParameters)
    (name_to_node_mapping : gmap string node_id) (a : list node) : result (list node) :=
  let node_name := target_node_name transformation in
  target_node ← getitem name_to_node_mapping node_name;
  let port_id := port_id transformation in
  let transform_type := target_type transformation in
  let name := if decide (transform_type = OPERATION_WITH_WEIGHTS)
              then "weights" else "input" in
  if decide (transform_type = PRE_LAYER_OPERATION ∨ transform_type = OPERATION_WITH_WEIGHTS)
  then
    inp_node ← node_input a target_node port_id;
    input_node_output ← get_source_output a inp_node;
    let fc := if decide (transform_type = OPERATION_WITH_WEIGHTS)
              then last_consumer_of_type a input_node_output "FakeConvert"
              else None in
    '(a', fc) ← match fc with
                | Some fc => Ok (a, fc)
                | None =>
                    data_type ← input_element_type a inp_node;
                    let convert_to_fp16 := bool_decide (data_type = f16) in
                    let fc_name := node_name +:+ "/fc_" +:+ name +:+ "_" +:+ pretty port_id in
                    _create_fake_convert a input_node_output fc_params fc_name
                      convert_to_fp16
                end;
    Ok (replace_source_output a' inp_node (fc, 0))
  else if decide (transform_type = POST_LAYER_OPERATION)
  then
    output ← node_output a target_node port_id;
    data_type ← output_element_type a output;
    let convert_to_fp16 := bool_decide (data_type = f16) in
    let target_inputs := get_target_inputs a output in
    let fc_name := node_name +:+ "/fc_output_" +:+ pretty port_id in
    '(a', fc) ← _create_fake_convert a output fc_params fc_name convert_to_fp16;
    Ok (foldl (λ a'' inp_node, replace_source_output a'' inp_node (fc, 0)) a' target_inputs)
  else Err (RuntimeError "Incorrect target point type").

(** The commands of a batch carry their payload; the appliers below take
    the batch as the list of payloads of the commands of their class. *)
Definition _apply_quantizer_insertion_transformations (m : model)
    (transformations : list (OVTargetPoint * FakeQuantizeParameters)) : result model :=
  let name_to_node_mapping := _get_name_to_node_mapping m in
  a ← for_each (λ t, _insert_fake_quantize_op t.1 t.2 name_to_node_mapping)
        transformations (arena m);
  Ok (set_arena m a).

Definition _apply_convert_insertion_transformations (m : model)
    (transformations : list (OVTargetPoint * FakeConvertParameters)) : result model :=
  let name_to_node_mapping := _get_name_to_node_mapping m in
  a ← for_each (λ t, _insert_fake_convert_op t.1 t.2 name_to_node_mapping)
        transformations (arena m);
  Ok (set_arena m a).

(** ** Backward constant resolution, bias correction and weight update *)

(** The [while] loop of [_set_const_value].  The queue never holds more
    than one pair, so the loop is a walk: from [(curr_port, curr_node)] to
    the first input of [curr_node] and the node it reads.  [fuel] bounds
    the walk; in an arena of [n] nodes a walk of more than [n] steps has
    entered a cycle and the Python loop would not return. *)
Fixpoint find_const (a : list node) (fuel : nat) (curr_port : input_port)
    (curr_node : node_id) : result (option (input_port * node_id)) :=
  match fuel with
  | O => Err NonTermination
  | S fuel' =>
      nd ← of_option (a !! curr_node) IndexError;
      if decide (type_name nd = "Constant") then Ok (Some (curr_port, curr_node))
      else match inputs nd with
           | [] => Ok None
           | src :: _ => find_const a fuel' (curr_node, 0) src.1
           end
  end.

(** The same walk as a relation on the graph, with the number of nodes it
    visits: from [(port, v)] it ends at the port [cp] that reads the
    constant [cn]. *)
Inductive walk (a : list node) : input_port → node_id → nat → input_port → node_id → Prop :=
  | walk_found port v nd :
      a !! v = Some nd → type_name nd = "Constant" → walk a port v 1 port v
  | walk_next port v nd src rest k cp cn :
      a !! v = Some nd → type_name nd ≠ "Constant" → inputs nd = src :: rest →
      walk a (v, 0) src.1 k cp cn →
      walk a port v (S k) cp cn.

Definition _set_const_value (a : list node) (node_with_const : node_id)
    (const_port_id : nat) (const_value : ndarray) : result (list node) :=
  port ← node_input a node_with_const const_port_id;
  src ← input_value a node_with_const const_port_id;
  found ← find_const a (S (length a)) port src.1;
  match found with
  | None => Err (RuntimeError "Constant node was expected but could not find it.")
  | Some (const_port, const_node) =>
      nd ← of_option (a !! const_node) IndexError;
      old ← of_option (data nd) (AttributeError "data");
      reshaped ← np_reshape const_value (shape old);
      let const_value' := astype reshaped (nd_dtype old) in
      let '(a', new_const_node) := op_Constant a const_value' (friendly_name nd) in
      Ok (replace_source_output a' const_port (new_const_node, 0))
  end.

(** The body of the loop of [_apply_bias_correction_transformations]. *)
Definition bias_correction_step (name_to_node_mapping : gmap string node_id)
    (t : OVTargetPoint * ndarray) (a : list node) : result (list node) :=
  nd ← getitem name_to_node_mapping (target_node_name t.1);
  out0 ← node_output a nd 0;
  let node_inputs := fst <$> get_target_inputs a out0 in
  match last (filter (λ n, node_type_name a n = "Add") node_inputs) with
  | None => Err AssertionError
  | Some add_node => _set_const_value a add_node (port_id t.1) t.2
  end.

Definition _apply_bias_correction_transformations (m : model)
    (transformations : list (OVTargetPoint * ndarray)) : result model :=
  let name_to_node_mapping := _get_name_to_node_mapping m in
  a ← for_each (bias_correction_step name_to_node_mapping) transformations (arena m);
  Ok (set_arena m a).

Definition weight_update_step (name_to_node_mapping : gmap string node_id)
    (t : OVTargetPoint * ndarray) (a : list node) : result (list node) :=
  node_with_weight ← getitem name_to_node_mapping (target_node_name t.1);
  _set_const_value a node_with_weight (port_id t.1) t.2.

Definition _apply_weight_update_transformations (m : model)
    (transformations : list (OVTargetPoint * ndarray)) : result model :=
  let name_to_node_mapping := _get_name_to_node_mapping m in
  a ← for_each (weight_update_step name_to_node_mapping) transformations (arena m);
  Ok (set_arena m a).

(** ** Output splicer, output insertion, in-place operator insertion *)

Definition _insert_outputs (m : model) (a : list node)
    (outputs : list (output_port * nat)) : result model :=
  let assign_ops := filter (λ op, node_type_name a op = "Assign")
                      (get_ops (set_arena m a)) in
  '(a', extra_model_outputs) ←
    for_each (λ (o : output_port * nat) (s : list node * list node_id),
                let output_name := node_name s.1 o.1.1 in
                let result_name := get_result_node_name output_name o.2 in
                '(a1, r) ← opset_result s.1 o.1 result_name;
                Ok (_update_tensor_name a1 [(r, 0)] result_name, s.2 ++ [r]))
             outputs (a, []);
  Ok (mk_model a' (parameters m) (results m ++ extra_model_outputs) assign_ops
               (model_friendly_name m)).

Definition _get_extra_model_outputs (m : model) (transformations : list OVTargetPoint)
  : result (list (output_port * nat)) :=
  let name_to_node_mapping := _get_name_to_node_mapping m in
  for_each (λ (t : OVTargetPoint) (extra_model_outputs : list (output_port * nat)),
              nd ← getitem name_to_node_mapping (target_node_name t);
              if decide (target_type t = POST_LAYER_OPERATION) then
                output ← node_output (arena m) nd (port_id t);
                Ok (extra_model_outputs ++ [(output, port_id t)])
              else if decide (target_type t = PRE_LAYER_OPERATION
                              ∨ target_type t = OPERATION_WITH_WEIGHTS) then
                output ← input_value (arena m) nd (port_id t);
                Ok (extra_model_outputs ++ [(output, output.2)])
              else Err (NotImplementedError "Unsupported target point type"))
           transformations [].

Definition _apply_output_insertion_transformations (m : model)
    (transformations : list OVTargetPoint) : result model :=
  extra_model_outputs ← _get_extra_model_outputs m transformations;
  _insert_outputs m (arena m) extra_model_outputs.

Definition _insert_inplace_operation (t : OVTargetPoint) (fn : inplace_fn)
    (fn_output_port_id : nat) (name_to_node_mapping : gmap string node_id)
    (a : list node) : result (list node * (output_port * nat)) :=
  target_node ← getitem name_to_node_mapping (target_node_name t);
  if decide (target_type t = POST_LAYER_OPERATION) then
    '(a', new_node) ← fn a target_node (port_id t);
    o ← node_output a' new_node fn_output_port_id;
    Ok (a', (o, fn_output_port_id))
  else if decide (target_type t = PRE_LAYER_OPERATION
                  ∨ target_type t = OPERATION_WITH_WEIGHTS) then
    output ← input_value a target_node (port_id t);
    '(a', new_node) ← fn a output.1 output.2;
    o ← node_output a' new_node fn_output_port_id;
    Ok (a', (o, fn_output_port_id))
  else Err (RuntimeError "Transform type is not supported").

Definition _apply_insert_operation (m : model)
    (transformations : list (OVTargetPoint * inplace_fn * nat)) : result model :=
  let name_to_node_mapping := _get_name_to_node_mapping m in
  '(a, outputs) ←
    for_each (λ (t : OVTargetPoint * inplace_fn * nat)
                (s : list node * list (output_port * nat)),
                '(a', o) ← _insert_inplace_operation t.1.1 t.1.2 t.2
                             name_to_node_mapping s.1;
                Ok (a', s.2 ++ [o]))
             transformations (arena m, []);
  _insert_outputs m a outputs.

(** ** Bias insertion and multiply (scale) insertion *)

Definition bias_insertion_step (name_to_node_mapping : gmap string node_id)
    (t : OVTargetPoint * ndarray) (a : list node) : result (list node) :=
  let node_name := target_node_name t.1 in
  nd ← getitem name_to_node_mapping node_name;
  node_output_port ← node_output a nd (port_id t.1);
  let node_output_source_ports := get_target_inputs a node_output_port in
  let bias_node_name := node_name +:+ "/nncf_null_bias_" in
  dt ← output_element_type a node_output_port;
  let '(a1, bias_const_node) :=
    _create_constant a t.2 dt (bias_node_name +:+ "/bias_value") in
  '(a2, add_node) ← opset_add a1 node_output_port (bias_const_node, 0) bias_node_name;
  Ok (foldl (λ a' p, replace_source_output a' p (add_node, 0)) a2 node_output_source_ports).

Definition _apply_bias_insertion_transformations (m : model)
    (transformations : list (OVTargetPoint * ndarray)) : result model :=
  let name_to_node_mapping := _get_name_to_node_mapping m in
  a ← for_each (bias_insertion_step name_to_node_mapping) transformations (arena m);
  Ok (set_arena m a).

Record multiply_payload : Type := mk_multiply_payload {
  mul_target_point : OVTargetPoint;
  mul_scale_value : ndarray;
  mul_destination_node_names : list string;
  mul_multiply_node_name : string;
}.

(** The consumers of [o] whose node name is in the allow-list. *)
Definition destination_ports_of (a : list node) (o : output_port)
    (destination_node_names : list string) : list input_port :=
  filter (λ p : input_port, node_name a p.1 ∈ destination_node_names)
         (get_target_inputs a o).

(** [all(p.get_element_type() == fp16 for p in destination_ports)]: the
    ports after the first one that is not fp16 are not looked at; reading
    the type of a port raises when the port is not bound to a tensor. *)
Definition all_fp16 (a : list node) (ports : list input_port) : result bool :=
  for_each (λ p (acc : bool),
              if acc then dt ← input_element_type a p; Ok (bool_decide (dt = f16))
              else Ok false)
           ports true.

Definition multiply_insertion_step (name_to_node_mapping : gmap string node_id)
    (t : multiply_payload) (a : list node) : result (list node) :=
  let node_name := target_node_name (mul_target_point t) in
  nd ← getitem name_to_node_mapping node_name;
  let output_port_id := port_id (mul_target_point t) in
  node_output_port ← node_output a nd output_port_id;
  let destination_ports :=
    destination_ports_of a node_output_port (mul_destination_node_names t) in
  fp16 ← all_fp16 a destination_ports;
  let scale_dtype := if (fp16 : bool) then f16 else f32 in
  let '(a1, scale_constant) :=
    _create_constant a (mul_scale_value t) scale_dtype
      (mul_multiply_node_name t +:+ "/scale") in
  '(a2, multiply_node) ← opset_multiply a1 node_output_port (scale_constant, 0)
                           (mul_multiply_node_name t);
  Ok (foldl (λ a' p, replace_source_output a' p (multiply_node, 0)) a2 destination_ports).

Definition _apply_multiply_insertion_transformations (m : model)
    (transformations : list multiply_payload) : result model :=
  let name_to_node_mapping := _get_name_to_node_mapping m in
  a ← for_each (multiply_insertion_step name_to_node_mapping) transformations (arena m);
  Ok (set_arena m a).

(** ** Model extraction and conditional bodies *)

(** [transformations[-1]] *)
Definition last_item {X : Type} (xs : list X) : result X :=
  of_option (last xs) IndexError.

Definition extraction_input_step (m : model) (name_to_node_mapping : gmap string node_id)
    (inp : string * nat) (s : list node * list node_id)
  : result (list node * list node_id) :=
  let '(a, params) := s in
  let '(input_name, input_port_id) := inp in
  input_node ← getitem name_to_node_mapping input_name;
  if decide (input_name ∈ (node_name a <$> parameters m)) then
    Ok (a, params ++ [input_node])
  else
    input_port ← node_input a input_node input_port_id;
    input_node_output ← get_source_output a input_port;
    d ← like_output a input_node_output;
    let parameter_name := get_parameter_node_name input_name input_port_id in
    let '(a1, new_param) :=
      opset_parameter a (partial_shape d) (element_type d) parameter_name in
    let a2 := replace_source_output a1 input_port (new_param, 0) in
    let a3 := _update_tensor_name a2 [(new_param, 0)] parameter_name in
    Ok (a3, params ++ [new_param]).

Definition extraction_output_step (name_to_node_mapping : gmap string node_id)
    (out : string * nat) (s : list node * list node_id)
  : result (list node * list node_id) :=
  let '(a, results) := s in
  let '(output_name, output_port_id) := out in
  output_node ← getitem name_to_node_mapping output_name;
  output_port ← node_output a output_node output_port_id;
  let result_name := get_result_node_name output_name output_port_id in
  '(a1, new_result) ← opset_result a output_port result_name;
  Ok (_update_tensor_name a1 [(new_result, 0)] result_name, results ++ [new_result]).

Definition _apply_model_extraction_transformation (m : model)
    (transformations : list (list (string * nat) * list (string * nat))) : result model :=
  transformation ← last_item transformations;
  let name_to_node_mapping := _get_name_to_node_mapping m in
  '(a1, params) ← for_each (extraction_input_step m name_to_node_mapping)
                     transformation.1 (arena m, []);
  '(a2, results') ← for_each (extraction_output_step name_to_node_mapping)
                      transformation.2 (a1, []);
  let results'' := if decide (results' = []) then results m else results' in
  Ok (mk_model a2 params results'' [] "").

(** [node.set_function(port_id, subgraph_model)] on a conditional node. *)
Definition update_if_body_step (name_to_node_mapping : gmap string node_id)
    (t : OVTargetPoint * model) (a : list node) : result (list node) :=
  nd ← getitem name_to_node_mapping (target_node_name t.1);
  x ← of_option (a !! nd) IndexError;
  if decide (port_id t.1 < length (functions x))
  then Ok (<[nd := set_functions x (<[port_id t.1 := t.2]> (functions x))]> a)
  else Err IndexError.

Definition _apply_update_if_body_transformations (m : model)
    (transformations : list (OVTargetPoint * model)) : result model :=
  let name_to_node_mapping := _get_name_to_node_mapping m in
  a ← for_each (update_if_body_step name_to_node_mapping) transformations (arena m);
  Ok (set_arena m a).

(** [node.get_function(i)] *)
Definition get_function (a : list node) (n : node_id) (i : nat) : result model :=
  x ← of_option (a !! n) IndexError;
  of_option (functions x !! i) IndexError.

Definition _apply_extract_if_body_transformation (m : model)
    (transformations : list (string * bool)) : result model :=
  transformation ← last_item transformations;
  let name_to_node_mapping := _get_name_to_node_mapping m in
  ov_node ← getitem name_to_node_mapping (transformation : string * bool).1;
  if (transformation : string * bool).2 then get_function (arena m) ov_node 0
  else get_function (arena m) ov_node 1.

(** ** The transformer

    Model objects live in a heap and are named by references, so that "the
    same instance" and "a new instance" can be told apart.  [self._model]
    is a reference into the heap. *)

Abbreviation model_ref := nat (only parsing).

(** [model.clone()]: a new object with a copy of the contents. *)
Definition clone (h : gmap model_ref model) (r : model_ref)
  : result (gmap model_ref model * model_ref) :=
  m ← of_option (h !! r) (AttributeError "clone");
  let r' := fresh (dom h) in
  Ok (<[r' := m]> h, r').

(** [aggregated_transformations[cls]] for each command class, as the list
    of the payloads of the commands of that class, in layout order. *)
Definition removals (l : list command) : list OVTargetPoint :=
  omap (λ c, match c with OVFQNodeRemovingCommand t => Some t | _ => None end) l.
Definition quantizer_insertions (l : list command)
  : list (OVTargetPoint * FakeQuantizeParameters) :=
  omap (λ c, match c with OVQuantizerInsertionCommand t q => Some (t, q) | _ => None end) l.
Definition convert_insertions (l : list command)
  : list (OVTargetPoint * FakeConvertParameters) :=
  omap (λ c, match c with OVConvertInsertionCommand t q => Some (t, q) | _ => None end) l.
Definition bias_corrections (l : list command) : list (OVTargetPoint * ndarray) :=
  omap (λ c, match c with OVBiasCorrectionCommand t v => Some (t, v) | _ => None end) l.
Definition weight_updates (l : list command) : list (OVTargetPoint * ndarray) :=
  omap (λ c, match c with OVWeightUpdateCommand t v => Some (t, v) | _ => None end) l.
Definition model_extractions (l : list command)
  : list (list (string * nat) * list (string * nat)) :=
  omap (λ c, match c with OVModelExtractionCommand i o => Some (i, o) | _ => None end) l.
Definition inplace_insertions (l : list command)
  : list (OVTargetPoint * inplace_fn * nat) :=
  omap (λ c, match c with
             | OVInplaceFnInsertionCommand t f k => Some (t, f, k) | _ => None end) l.
Definition output_insertions (l : list command) : list OVTargetPoint :=
  omap (λ c, match c with OVOutputInsertionCommand t => Some t | _ => None end) l.
Definition bias_insertions (l : list command) : list (OVTargetPoint * ndarray) :=
  omap (λ c, match c with OVBiasInsertionCommand t v => Some (t, v) | _ => None end) l.
Definition multiply_insertions (l : list command) : list multiply_payload :=
  omap (λ c, match c with
             | OVMultiplyInsertionCommand t v d n => Some (mk_multiply_payload t v d n)
             | _ => None end) l.
Definition if_body_updates (l : list command) : list (OVTargetPoint * model) :=
  omap (λ c, match c with OVUpdateIfBodyCommand t g => Some (t, g) | _ => None end) l.
Definition if_body_extractions (l : list command) : list (string * bool) :=
  omap (λ c, match c with OVExtractIfBodyCommand n b => Some (n, b) | _ => None end) l.

(** [if transformations: model = transformation_fn(model, transformations)] *)
Definition stage {X : Type} (transformation_fn : model → list X → result model)
    (transformations : list X) (m : model) : result model :=
  match transformations with
  | [] => Ok m
  | _ => transformation_fn m transformations
  end.

(** [_command_transformation_ordered_pairs]: the classes in the order of
    the list, and for each class its applier run on the commands of the
    layout that are of that class. *)
Definition _command_transformation_ordered_pairs : list command_class :=
  [ cls_FQNodeRemoving; cls_QuantizerInsertion; cls_ConvertInsertion;
    cls_BiasCorrection; cls_WeightUpdate; cls_ModelExtraction;
    cls_InplaceFnInsertion; cls_OutputInsertion; cls_BiasInsertion;
    cls_MultiplyInsertion; cls_UpdateIfBody; cls_ExtractIfBody ].

Definition apply_class (cls : command_class) (l : list command) (m : model)
  : result model :=
  match cls with
  | cls_FQNodeRemoving => stage _apply_fq_nodes_removing_transformation (removals l) m
  | cls_QuantizerInsertion =>
      stage _apply_quantizer_insertion_transformations (quantizer_insertions l) m
  | cls_ConvertInsertion =>
      stage _apply_convert_insertion_transformations (convert_insertions l) m
  | cls_BiasCorrection =>
      stage _apply_bias_correction_transformations (bias_corrections l) m
  | cls_WeightUpdate => stage _apply_weight_update_transformations (weight_updates l) m
  | cls_ModelExtraction =>
      stage _apply_model_extraction_transformation (model_extractions l) m
  | cls_InplaceFnInsertion => stage _apply_insert_operation (inplace_insertions l) m
  | cls_OutputInsertion =>
      stage _apply_output_insertion_transformations (output_insertions l) m
  | cls_BiasInsertion =>
      stage _apply_bias_insertion_transformations (bias_insertions l) m
  | cls_MultiplyInsertion =>
      stage _apply_multiply_insertion_transformations (multiply_insertions l) m
  | cls_UpdateIfBody => stage _apply_update_if_body_transformations (if_body_updates l) m
  | cls_ExtractIfBody =>
      stage _apply_extract_if_body_transformation (if_body_extractions l) m
  end.

(** The loop over [_command_transformation_ordered_pairs], on the clone. *)
Definition apply_ordered_pairs (l : list command) (m : model) : result model :=
  for_each (λ cls, apply_class cls l) _command_transformation_ordered_pairs m.

(** [OVModelTransformer(model).transform(transformation_layout)]: the heap
    after the call and the reference of the returned model. *)
Definition transform (h : gmap model_ref model) (self_model : model_ref)
    (transformation_layout : list command)
  : result (gmap model_ref model * model_ref) :=
  '(h', r) ← clone h self_model;
  m ← of_option (h' !! r) (AttributeError "clone");
  m' ← apply_ordered_pairs transformation_layout m;
  Ok (<[r := m']> h', r).

(** ** Tensor statistics ([tensor_statistics/statistics.py]) *)

Module Statistics.

(** [nncf.tensor.Tensor]: the numeric payload, flattened. *)
Definition Tensor : Type := list Q.

(** Modelled from the spec: [nncf.tensor.functions.allclose] is not among
    the sources.  The spec asks for a tolerance-based approximate equality
    of numeric payloads; this is the element-wise test
    [|a - b| <= atol + rtol * |b|] with the customary tolerances, and
    payloads of different sizes are not close. *)
Definition rtol : Q := 1 # 100000.
Definition atol : Q := 1 # 100000000.

Definition isclose (x y : Q) : bool :=
  Qle_bool (Qabs (x - y)) (atol + rtol * Qabs y).

Fixpoint allclose (a b : Tensor) : bool :=
  match a, b with
  | [], [] => true
  | x :: a', y :: b' => isclose x y && allclose a' b'
  | _, _ => false
  end.

Inductive TensorStatistic : Type :=
  | MinMaxTensorStatistic (min_values max_values : Tensor)
  | MeanTensorStatistic (mean_values : Tensor) (shape : list nat)
  | MedianMADTensorStatistic (median_values mad_values : Tensor)
  | PercentileTensorStatistic (percentile_vs_values_dict : gmap string Tensor)
  | RawTensorStatistic (values : Tensor).

(** The loop of [PercentileTensorStatistic.__eq__] over the keys of
    [self]; [other[pct]] raises when the key is missing. *)
Definition percentile_loop (mine other : gmap string Tensor) : result bool :=
  for_each (λ (kv : string * Tensor) (acc : bool),
              if acc then
                o ← of_option (other !! kv.1) (KeyError kv.1);
                Ok (allclose kv.2 o)
              else Ok false)
           (map_to_list mine) true.

(** [self == other]: the [__eq__] of the class of [self]. *)
Definition eq_stat (self other : TensorStatistic) : result bool :=
  match self with
  | MinMaxTensorStatistic min_values max_values =>
      match other with
      | MinMaxTensorStatistic omin omax =>
          Ok (allclose min_values omin && allclose max_values omax)
      | _ => Ok false
      end
  | MeanTensorStatistic mean_values shape =>
      match other with
      | MeanTensorStatistic omean oshape =>
          Ok (bool_decide (shape = oshape) && allclose mean_values omean)
      | _ => Ok false
      end
  | MedianMADTensorStatistic median_values mad_values =>
      match other with
      | MedianMADTensorStatistic omedian omad =>
          Ok (allclose median_values omedian && allclose mad_values omad)
      | _ => Ok false
      end
  | PercentileTensorStatistic d =>
      match other with
      | PercentileTensorStatistic od =>
          if bool_decide (dom d = dom od) then percentile_loop d od else Ok false
      | _ => Ok false
      end
  | RawTensorStatistic values =>
      match other with
      | PercentileTensorStatistic _ =>
          (* [other.values]: a percentile statistic has no such attribute *)
          Err (AttributeError "values")
      | _ => Ok false
      end
  end.

(** The values of a dumped record. *)
Inductive dumped (I : Type) : Type :=
  | DStr (s : string)
  | DInfo (info : I)
  | DArray (a : list Q).
Arguments DStr {I} s.
Arguments DInfo {I} info.
Arguments DArray {I} a.

(** [MinMaxTensorStatistic.get_dumped_data] *)
Definition get_dumped_data {I : Type} (min_values max_values : Tensor)
    (target_node_info : I) : gmap string (dumped I) :=
  <["max_values" := DArray max_values]>
    (<["min_values" := DArray min_values]>
       (<["target_node_info" := DInfo target_node_info]>
          (<["type" := DStr "MinMaxTensorStatistic"]> ∅))).

(** [Tensor(x)] of a dumped value: only arrays are tensors. *)
Definition as_tensor {I : Type} (v : dumped I) : result Tensor :=
  match v with
  | DArray a => Ok a
  | _ => Err ValueError
  end.

(** [MinMaxTensorStatistic.load_data] replaces both fields of [self]. *)
Definition load_data (min_values max_values : Tensor) : TensorStatistic :=
  MinMaxTensorStatistic min_values max_values.

(** [MinMaxTensorStatistic.load_dumped_data]: the object after the call. *)
Definition load_dumped_data {I : Type} (data : gmap string (dumped I))
  : result TensorStatistic :=
  lo ← getitem data "min_values";
  hi ← getitem data "max_values";
  lo ← as_tensor lo;
  hi ← as_tensor hi;
  Ok (load_data lo hi).

(** What "within the tolerance" means for two numbers, as a proposition. *)
Definition within_tolerance (x y : Q) : Prop :=
  (Qabs (x - y) <= atol + rtol * Qabs y)%Q.

End Statistics.

(** ** Example graphs *)

Definition f32_out : tensor_desc := mk_tensor_desc f32 [1; 4] ∅.

Definition const_node (name : string) (v : ndarray) : node :=
  mk_node name "Constant" [] [mk_tensor_desc (nd_dtype v) (shape v) ∅] (Some v)
          None None [].

Definition vec (d : dtype) (xs : list Q) : ndarray :=
  mk_ndarray [length xs] d (Lit <$> xs).

(** Two convolutions sharing one weight constant; the first is followed by
    a bias addition.
<<
      input ──┬── conv1 ── add ── res1
        w ────┼──┘          │
              └── conv2     bias
                    └── res2
>> *)
Definition shared_weight_arena : list node :=
  [ plain_node "input" "Parameter" [] [f32_out];                 (* 0 *)
    const_node "w" (vec f32 [1; 2; 3; 4]%Q);                       (* 1 *)
    plain_node "conv1" "Convolution" [(0, 0); (1, 0)] [f32_out]; (* 2 *)
    plain_node "conv2" "Convolution" [(0, 0); (1, 0)] [f32_out]; (* 3 *)
    const_node "bias" (vec f32 [0; 0; 0; 0]%Q);                    (* 4 *)
    plain_node "add" "Add" [(2, 0); (4, 0)] [f32_out];           (* 5 *)
    plain_node "res1" "Result" [(5, 0)] [f32_out];               (* 6 *)
    plain_node "res2" "Result" [(3, 0)] [f32_out] ].             (* 7 *)

Definition shared_weight_model : model :=
  mk_model shared_weight_arena [0] [6; 7] [] "net".

Definition one_model_heap : gmap model_ref model := {[ 0 := shared_weight_model ]}.

(** A quantizer or convert insertion command's payload, and the dispatch
    to its insertion function. *)
Inductive fake_op : Type :=
  | FakeQuantizeOp (quantizer_parameters : FakeQuantizeParameters)
  | FakeConvertOp (convert_parameters : FakeConvertParameters).

Definition fake_op_type (k : fake_op) : string :=
  match k with
  | FakeQuantizeOp _ => "FakeQuantize"
  | FakeConvertOp _ => "FakeConvert"
  end.

Definition insert_fake_op (t : OVTargetPoint) (k : fake_op)
    (name_to_node_mapping : gmap string node_id) (a : list node) : result (list node) :=
  match k with
  | FakeQuantizeOp q => _insert_fake_quantize_op t q name_to_node_mapping a
  | FakeConvertOp q => _insert_fake_convert_op t q name_to_node_mapping a
  end.

Definition scalar (x : Q) : ndarray := mk_ndarray [] f32 [Lit x].

Definition unit_range_fq : FakeQuantizeParameters :=
  mk_fq_params (scalar 0) (scalar 1) (scalar 0) (scalar 1) 256.

Definition wide_range_fq : FakeQuantizeParameters :=
  mk_fq_params (scalar (-8)) (scalar 8) (scalar (-8)) (scalar 8) 16.

Definition unit_fc : FakeConvertParameters :=
  mk_fc_params (scalar 1) (scalar 0) "f8e4m3".

(** The weight of [conv1] is already quantized; [conv2] still reads [w]. *)
Definition quantized_weight_arena : list node :=
  [ plain_node "input" "Parameter" [] [f32_out];                 (* 0 *)
    const_node "w" (vec f32 [1; 2; 3; 4]%Q);                     (* 1 *)
    plain_node "conv1" "Convolution" [(0, 0); (8, 0)] [f32_out]; (* 2 *)
    plain_node "conv2" "Convolution" [(0, 0); (1, 0)] [f32_out]; (* 3 *)
    const_node "conv1/fq_weights_1/input_low" (scalar 0);        (* 4 *)
    const_node "conv1/fq_weights_1/input_high" (scalar 1);       (* 5 *)
    const_node "conv1/fq_weights_1/output_low" (scalar 0);       (* 6 *)
    const_node "conv1/fq_weights_1/output_high" (scalar 1);      (* 7 *)
    mk_node "conv1/fq_weights_1" "FakeQuantize"
            [(1, 0); (4, 0); (5, 0); (6, 0); (7, 0)] [f32_out]
            None (Some 256) None [];                             (* 8 *)
    plain_node "res1" "Result" [(2, 0)] [f32_out];               (* 9 *)
    plain_node "res2" "Result" [(3, 0)] [f32_out] ].             (* 10 *)

Definition quantized_weight_model : model :=
  mk_model quantized_weight_arena [0] [9; 10] [] "net".

Definition converted_weight_arena : list node :=
  [ plain_node "input" "Parameter" [] [f32_out];                 (* 0 *)
    const_node "w" (vec f32 [1; 2; 3; 4]%Q);                     (* 1 *)
    plain_node "conv1" "Convolution" [(0, 0); (6, 0)] [f32_out]; (* 2 *)
    plain_node "conv2" "Convolution" [(0, 0); (1, 0)] [f32_out]; (* 3 *)
    const_node "conv1/fc_weights_1/scale" (scalar 1);            (* 4 *)
    const_node "conv1/fc_weights_1/shift" (scalar 0);            (* 5 *)
    mk_node "conv1/fc_weights_1" "FakeConvert"
            [(1, 0); (4, 0); (5, 0)] [f32_out]
            None None (Some "f8e4m3") [];                        (* 6 *)
    plain_node "res1" "Result" [(2, 0)] [f32_out];               (* 7 *)
    plain_node "res2" "Result" [(3, 0)] [f32_out] ].             (* 8 *)

Definition converted_weight_model : model :=
  mk_model converted_weight_arena [0] [7; 8] [] "net".

(** The bias constant is stored in half precision and read through a
    [Convert] node.
<<
      input ── conv ── add ── res
        w ──────┘       │
      bias ── bias/convert
>> *)
Definition compressed_bias_arena : list node :=
  [ plain_node "input" "Parameter" [] [f32_out];                (* 0 *)
    const_node "w" (vec f32 [1; 2; 3; 4]%Q);                    (* 1 *)
    plain_node "conv" "Convolution" [(0, 0); (1, 0)] [f32_out]; (* 2 *)
    const_node "bias" (vec f16 [0; 0; 0; 0]%Q);                 (* 3 *)
    plain_node "bias/convert" "Convert" [(3, 0)] [f32_out];     (* 4 *)
    plain_node "add" "Add" [(2, 0); (4, 0)] [f32_out];          (* 5 *)
    plain_node "res" "Result" [(5, 0)] [f32_out] ].             (* 6 *)

Definition compressed_bias_model : model :=
  mk_model compressed_bias_arena [0] [6] [] "net".

Definition new_bias : ndarray := mk_ndarray [2; 2] f32 (Lit <$> [5; 6; 7; 8]%Q).

(** [compressed_bias_model] after the bias constant is replaced. *)
Definition corrected_bias_model : model :=
  mk_model
    (replace_source_output
       (compressed_bias_arena
        ++ [const_node "bias"
              (astype (mk_ndarray [4] f32 (Lit <$> [5; 6; 7; 8]%Q)) f16)])
       (4, 0) (7, 0))
    [0] [6] [] "net".

(** Binding each port of a list to [o'], as the loops
    [for p in ports: p.replace_source_output(o')] do. *)
Definition rebind (a : list node) (ps : list input_port) (o' : output_port) : list node :=
  foldl (λ a' p, replace_source_output a' p o') a ps.

(** [A] feeds [B] and [C]. *)
Definition fan_out_arena : list node :=
  [ plain_node "A" "Parameter" [] [f32_out];       (* 0 *)
    plain_node "B" "Relu" [(0, 0)] [f32_out];      (* 1 *)
    plain_node "C" "Relu" [(0, 0)] [f32_out];      (* 2 *)
    plain_node "resB" "Result" [(1, 0)] [f32_out]; (* 3 *)
    plain_node "resC" "Result" [(2, 0)] [f32_out] ]. (* 4 *)

Definition fan_out_model : model := mk_model fan_out_arena [0] [3; 4] [] "fan".

Definition scale_B : multiply_payload :=
  mk_multiply_payload (mk_target_point POST_LAYER_OPERATION "A" 0)
    (scalar 2) ["B"] "A/scale_mul".

(** [fan_out_arena] with a multiply node spliced between [A] and [B]. *)
Definition fan_out_scaled_arena : list node :=
  [ plain_node "A" "Parameter" [] [f32_out];
    plain_node "B" "Relu" [(6, 0)] [f32_out];
    plain_node "C" "Relu" [(0, 0)] [f32_out];
    plain_node "resB" "Result" [(1, 0)] [f32_out];
    plain_node "resC" "Result" [(2, 0)] [f32_out];
    mk_node "A/scale_mul/scale" "Constant" [] [mk_tensor_desc f32 [] ∅]
            (Some (astype (scalar 2) f32)) None None [];
    plain_node "A/scale_mul" "Multiply" [(0, 0); (5, 0)] [f32_out] ].

(** The construction of the node of an insertion command of either kind. *)
Definition create_fake_op (a : list node) (op_output : output_port) (k : fake_op)
    (name : string) (convert_to_fp16 : bool) : result (list node * node_id) :=
  match k with
  | FakeQuantizeOp q => _create_fake_quantize a op_output q name convert_to_fp16
  | FakeConvertOp q => _create_fake_convert a op_output q name convert_to_fp16
  end.

(** [a'] has every node of [a], at the same index, with possibly other
    inputs: what rebinding ports and appending nodes do to an arena. *)
Definition same_but_inputs (a a' : list node) : Prop :=
  ∀ i nd, a !! i = Some nd → ∃ ins, a' !! i = Some (set_inputs nd ins).

(** A batch of quantizer insertion commands or of convert insertion
    commands, as [transform] hands it to the applier of its class. *)
Inductive insertion_batch : Type :=
  | QuantizerBatch (l : list (OVTargetPoint * FakeQuantizeParameters))
  | ConvertBatch (l : list (OVTargetPoint * FakeConvertParameters)).

Definition batch_commands (b : insertion_batch) : list (OVTargetPoint * fake_op) :=
  match b with
  | QuantizerBatch l => (λ c, (c.1, FakeQuantizeOp c.2)) <$> l
  | ConvertBatch l => (λ c, (c.1, FakeConvertOp c.2)) <$> l
  end.

Definition batch_type (b : insertion_batch) : string :=
  match b with
  | QuantizerBatch _ => "FakeQuantize"
  | ConvertBatch _ => "FakeConvert"
  end.

Definition apply_insertion_batch (m : model) (b : insertion_batch) : result model :=
  match b with
  | QuantizerBatch l => _apply_quantizer_insertion_transformations m l
  | ConvertBatch l => _apply_convert_insertion_transformations m l
  end.

(** The input port a PRE/weights target point addresses, through a name
    index. *)
Definition addressed_port (name_to_node_mapping : gmap string node_id)
    (t : OVTargetPoint) : input_port :=
  (default 0 (name_to_node_mapping !! target_node_name t), port_id t).

(** A weight-targeted command of the inserted type [ty] whose addressed
    port reads [o] in [a]; the target node is a node of the graph [a0] the
    batch started from and is not itself of type [ty]. *)
Definition shares_output (name_to_node_mapping : gmap string node_id)
    (a0 a : list node) (o : output_port) (ty : string)
    (c : OVTargetPoint * fake_op) : Prop :=
  target_type c.1 = OPERATION_WITH_WEIGHTS
  ∧ fake_op_type c.2 = ty
  ∧ ∃ tn, name_to_node_mapping !! target_node_name c.1 = Some tn
          ∧ tn < length a0
          ∧ get_source_output a (tn, port_id c.1) = Ok o
          ∧ node_type_name a0 tn ≠ ty.

(** What holds of the arena [a] between two commands of a batch of
    weight-targeted insertions of type [ty] on the output [o], started on
    [a0]: the ports handled so far read the last consumer of type [ty];
    either no node was appended yet or [o] has a consumer of type [ty];
    an appended node of type [ty] is that last consumer and reads [o]. *)
Definition batch_invariant (a0 a : list node) (o : output_port) (ty : string)
    (handled : list input_port) : Prop :=
  same_but_inputs a0 a
  ∧ (∀ q, q ∈ handled →
       ∃ f, last (consumers_of_type a o ty) = Some f
            ∧ get_source_output a q = Ok (f, 0))
  ∧ (length a = length a0 ∨ consumers_of_type a o ty ≠ [])
  ∧ (∀ i, length a0 ≤ i → node_type_name a i = ty →
       last (consumers_of_type a o ty) = Some i
       ∧ get_source_output a (i, 0) = Ok o).

Definition insert_batch (name_to_node_mapping : gmap string node_id)
    (cmds : list (OVTargetPoint * fake_op)) (a : list node) : result (list node) :=
  for_each (λ c, insert_fake_op c.1 c.2 name_to_node_mapping) cmds a.

(** Both convolutions of [shared_weight_model] get their weight port
    quantized (converted), with different parameters. *)
Definition conv1_weights : OVTargetPoint :=
  mk_target_point OPERATION_WITH_WEIGHTS "conv1" 1.
Definition conv2_weights : OVTargetPoint :=
  mk_target_point OPERATION_WITH_WEIGHTS "conv2" 1.

Definition quantize_both : insertion_batch :=
  QuantizerBatch [(conv1_weights, unit_range_fq); (conv2_weights, wide_range_fq)].

Definition convert_both : insertion_batch :=
  ConvertBatch [(conv1_weights, unit_fc); (conv2_weights, unit_fc)].

(** The rewiring of one removal: the consumers of each listed output of
    [r] are bound to [src]. *)
Definition rewire_outputs (a : list node) (r : node_id) (ks : list nat)
    (src : output_port) : list node :=
  foldl (λ a' k, rewire_consumers a' (r, k) src) a ks.

Definition n_outputs (a : list node) (i : node_id) : nat :=
  match a !! i with
  | Some x => length (outputs x)
  | None => 0
  end.

(** Some input port of the arena reads an output of node [i]. *)
Definition read_somewhere (a : list node) (i : node_id) : Prop :=
  ∃ q s, get_source_output a q = Ok s ∧ s.1 = i.

(** The target point of the commands that insert at a target point. *)
Definition insertion_target (c : command) : option OVTargetPoint :=
  match c with
  | OVQuantizerInsertionCommand t _ => Some t
  | OVConvertInsertionCommand t _ => Some t
  | OVInplaceFnInsertionCommand t _ _ => Some t
  | OVOutputInsertionCommand t => Some t
  | OVBiasInsertionCommand t _ => Some t
  | OVMultiplyInsertionCommand t _ _ _ => Some t
  | _ => None
  end.

(** The computation does not raise KeyError (it may return, or raise
    something else). *)
Definition no_key_error {A : Type} (r : result A) : Prop :=
  ∀ k, r ≠ Err (KeyError k).

(** The insertion classes whose applier only runs the transformer's own
    code (the in-place insertion also runs the caller's function). *)
Definition own_insertion_classes : list command_class :=
  [ cls_QuantizerInsertion; cls_ConvertInsertion; cls_OutputInsertion;
    cls_BiasInsertion; cls_MultiplyInsertion ].

(** Well-formedness of the arena around node [i]: every port that reads
    node [i] reads one of its outputs. *)
Definition reads_existing_outputs (a : list node) (i : node_id) : Prop :=
  Forall (λ nd, Forall (λ s : nat * nat, s.1 = i → s.2 < n_outputs a i) (inputs nd)) a.

(** Node [i] is the only node of the arena named [n]. *)
Definition only_node_named (a : list node) (n : string) (i : node_id) : Prop :=
  Forall (λ j, node_name a j = n → j = i) (seq 0 (length a)).

(** A pre-layer FakeQuantize sits between [input] and [conv].
<<
      input ── conv/fq_input_0 ── conv ── res
                                   │
                                   w
>> *)
Definition prequantized_arena : list node :=
  [ plain_node "input" "Parameter" [] [f32_out];                      (* 0 *)
    const_node "w" (vec f32 [1; 2; 3; 4]%Q);                          (* 1 *)
    const_node "conv/fq_input_0/input_low" (scalar 0);                (* 2 *)
    const_node "conv/fq_input_0/input_high" (scalar 1);               (* 3 *)
    const_node "conv/fq_input_0/output_low" (scalar 0);               (* 4 *)
    const_node "conv/fq_input_0/output_high" (scalar 1);              (* 5 *)
    mk_node "conv/fq_input_0" "FakeQuantize"
            [(0, 0); (2, 0); (3, 0); (4, 0); (5, 0)] [f32_out]
            None (Some 256) None [];                                  (* 6 *)
    plain_node "conv" "Convolution" [(6, 0); (1, 0)] [f32_out];       (* 7 *)
    plain_node "res" "Result" [(7, 0)] [f32_out] ].                   (* 8 *)

Definition prequantized_model : model :=
  mk_model prequantized_arena [0] [8] [] "net".

Definition prequantized_heap : gmap model_ref model := {[ 0 := prequantized_model ]}.

Definition remove_input_fq : command :=
  OVFQNodeRemovingCommand (mk_target_point POST_LAYER_OPERATION "conv/fq_input_0" 0).

(** Remove the quantizer of the input of [conv], insert a new one with a
    wider range, and make the output of the quantizer a model output. *)
Definition requantize_layout : list command :=
  [ remove_input_fq;
    OVQuantizerInsertionCommand (mk_target_point PRE_LAYER_OPERATION "conv" 0)
      wide_range_fq;
    OVOutputInsertionCommand (mk_target_point POST_LAYER_OPERATION "conv/fq_input_0" 0) ].

(** Remove the quantizer and ask for a quantizer at its own output. *)
Definition quantize_removed_layout : list command :=
  [ remove_input_fq;
    OVQuantizerInsertionCommand
      (mk_target_point POST_LAYER_OPERATION "conv/fq_input_0" 0) wide_range_fq ].

(** [prequantized_model] after the removal: [conv] reads [input]. *)
Definition dequantized_model : model :=
  set_arena prequantized_model
    (replace_source_output prequantized_arena (7, 0) (0, 0)).




(** ** Further example layouts *)

Definition quantize_both_layout : list command :=
  [ OVQuantizerInsertionCommand conv1_weights unit_range_fq;
    OVQuantizerInsertionCommand conv2_weights wide_range_fq ].

(** The same three commands in two orders; the two quantizer insertions
    keep their relative order. *)
Definition mixed_layout : list command :=
  [ OVOutputInsertionCommand (mk_target_point POST_LAYER_OPERATION "conv2" 0);
    OVQuantizerInsertionCommand conv1_weights unit_range_fq;
    OVQuantizerInsertionCommand conv2_weights wide_range_fq ].

Definition mixed_layout_reordered : list command :=
  [ OVQuantizerInsertionCommand conv1_weights unit_range_fq;
    OVOutputInsertionCommand (mk_target_point POST_LAYER_OPERATION "conv2" 0);
    OVQuantizerInsertionCommand conv2_weights wide_range_fq ].

(** The name the insertion functions give to the node they create. *)
Definition inserted_node_name (k : fake_op) (t : OVTargetPoint) : string :=
  match k, target_type t with
  | FakeQuantizeOp _, POST_LAYER_OPERATION =>
      target_node_name t +:+ "/fq_output_" +:+ pretty (port_id t)
  | FakeQuantizeOp _, OPERATION_WITH_WEIGHTS =>
      target_node_name t +:+ "/" +:+ "fq_weights" +:+ "_" +:+ pretty (port_id t)
  | FakeQuantizeOp _, _ =>
      target_node_name t +:+ "/" +:+ "fq_input" +:+ "_" +:+ pretty (port_id t)
  | FakeConvertOp _, POST_LAYER_OPERATION =>
      target_node_name t +:+ "/fc_output_" +:+ pretty (port_id t)
  | FakeConvertOp _, OPERATION_WITH_WEIGHTS =>
      target_node_name t +:+ "/fc_" +:+ "weights" +:+ "_" +:+ pretty (port_id t)
  | FakeConvertOp _, _ =>
      target_node_name t +:+ "/fc_" +:+ "input" +:+ "_" +:+ pretty (port_id t)
  end.

(** What an applier raises for a command whose target point has none of
    the three supported types, once the target name is resolved. *)
Definition unsupported_type_error (cls : command_class) : error :=
  match cls with
  | cls_OutputInsertion => NotImplementedError "Unsupported target point type"
  | cls_InplaceFnInsertion => RuntimeError "Transform type is not supported"
  | _ => RuntimeError "Incorrect target point type"
  end.

Definition checks_target_type : list command_class :=
  [ cls_QuantizerInsertion; cls_ConvertInsertion; cls_InplaceFnInsertion;
    cls_OutputInsertion ].

Definition other_type_output : command :=
  OVOutputInsertionCommand (mk_target_point OTHER_TARGET_TYPE "conv1" 0).

(** The parameter arrays of an insertion command, in the order in which
    their constants are created, with the suffix of each constant's name. *)
Definition fake_op_parameters (k : fake_op) : list (string * ndarray) :=
  match k with
  | FakeQuantizeOp q =>
      [ ("/input_low", input_low q); ("/input_high", input_high q);
        ("/output_low", output_low q); ("/output_high", output_high q) ]
  | FakeConvertOp q => [ ("/scale", scale q); ("/shift", shift q) ]
  end.

(** The constant created for a parameter array: half precision, with the
    values clipped to the finite range of half precision before the
    cast, when [convert_to_fp16]; single precision otherwise. *)
Definition parameter_constant (convert_to_fp16 : bool) (name : string)
    (p : string * ndarray) : node :=
  let dt := if convert_to_fp16 then f16 else f32 in
  let narrowed (v : value) :=
    if convert_to_fp16 then AsType f16 (Clip finfo_f16_min finfo_f16_max v) else v in
  mk_node (name +:+ p.1) "Constant" [] [mk_tensor_desc dt (shape p.2) ∅]
          (Some (mk_ndarray (shape p.2) dt ((λ v, AsType dt (narrowed v)) <$> flat p.2)))
          None None [].


(** The result node [_insert_outputs] builds on the output [o] recorded
    with port [k], in the arena [a]. *)
Definition result_node_for (a : list node) (o : output_port) (k : nat) (d : tensor_desc)
  : node :=
  let result_name := get_result_node_name (node_name a o.1) k in
  mk_node result_name "Result" [o] [add_tensor_name result_name d] None None None [].

(** The output an output-insertion command addresses in the model [m],
    with the port number recorded for the name of its result: the output
    [port_id] of the target node for a post-layer point, the source of the
    input port [port_id] (recorded with its own index) for a pre-layer or
    weights point. *)
Definition addresses_output (m : model) (t : OVTargetPoint) (o : output_port * nat)
  : Prop :=
  ∃ tn, _get_name_to_node_mapping m !! target_node_name t = Some tn
        ∧ ((target_type t = POST_LAYER_OPERATION
            ∧ port_id t < n_outputs (arena m) tn
            ∧ o = ((tn, port_id t), port_id t))
           ∨ ((target_type t = PRE_LAYER_OPERATION
               ∨ target_type t = OPERATION_WITH_WEIGHTS)
              ∧ ∃ s, get_source_output (arena m) (tn, port_id t) = Ok s
                     ∧ o = (s, s.2))).

(** [a'] has every node of [a], at the same index, with possibly other
    bodies: what [set_function] does to an arena. *)
Definition same_but_functions (a a' : list node) : Prop :=
  length a' = length a
  ∧ ∀ i nd, a !! i = Some nd → ∃ fs, a' !! i = Some (set_functions nd fs).

(** The body in slot [i] of the node [n], if there is one. *)
Definition body_slot (a : list node) (n : node_id) (i : nat) : option model :=
  nd ← a !! n; functions nd !! i.

(** [0] for the then-body and [1] for the else-body, as
    [_apply_extract_if_body_transformation] picks them. *)
Definition body_index (if_body_condition : bool) : nat :=
  if if_body_condition then 0 else 1.

(** A conditional node with two one-op bodies, and a third body to put in. *)
Definition unary_body (type name : string) : model :=
  mk_model [ plain_node "x" "Parameter" [] [f32_out];
             plain_node "y" type [(0, 0)] [f32_out];
             plain_node "r" "Result" [(1, 0)] [f32_out] ]
           [0] [2] [] name.

Definition conditional_arena : list node :=
  [ plain_node "cond" "Parameter" [] [mk_tensor_desc boolean [] ∅];   (* 0 *)
    plain_node "input" "Parameter" [] [f32_out];                       (* 1 *)
    mk_node "if" "If" [(0, 0); (1, 0)] [f32_out] None None None
            [unary_body "Relu" "then"; unary_body "Sigmoid" "else"];   (* 2 *)
    plain_node "res" "Result" [(2, 0)] [f32_out] ].                    (* 3 *)

Definition conditional_model : model :=
  mk_model conditional_arena [0; 1] [3] [] "cond_net".

(** What model extraction makes of the [j]-th input id [inp] of its
    command, in the arena [a'] it leaves: the parameter [p] is the named
    node itself when the name is that of a model input; otherwise it is a
    new [Parameter] named after the input id, and the addressed input port
    reads it unless a later input id of the command is the same. *)
Definition extracted_input (m : model) (a' : list node) (ins : list (string * nat))
    (j : nat) (inp : string * nat) (p : node_id) : Prop :=
  ∃ nd, _get_name_to_node_mapping m !! inp.1 = Some nd
    ∧ p < length a'
    ∧ if decide (inp.1 ∈ node_name (arena m) <$> parameters m) then p = nd
      else length (arena m) ≤ p
           ∧ node_type_name a' p = "Parameter"
           ∧ node_name a' p = get_parameter_node_name inp.1 inp.2
           ∧ ((∀ k, j < k → ins !! k ≠ Some inp) →
              get_source_output a' (nd, inp.2) = Ok (p, 0)).

(** The result model extraction builds for the output id [out]: a new
    [Result] named after the output id that reads the addressed output. *)
Definition extracted_output (m : model) (a' : list node) (out : string * nat)
    (r : node_id) : Prop :=
  ∃ nd d, _get_name_to_node_mapping m !! out.1 = Some nd
    ∧ length (arena m) ≤ r
    ∧ a' !! r = Some (mk_node (get_result_node_name out.1 out.2) "Result"
                        [(nd, out.2)]
                        [add_tensor_name (get_result_node_name out.1 out.2) d]
                        None None None []).



(** * Properties *)

(** ** Generic facts about the arena primitives *)

Lemma length_replace_source_output a p o :
  length (replace_source_output a p o) = length a.
Proof. unfold replace_source_output. by rewrite length_alter. Qed.

Lemma lookup_replace_source_output_ne a p o i :
  i ≠ p.1 → replace_source_output a p o !! i = a !! i.
Proof. intros Hne. unfold replace_source_output. by rewrite list_lookup_alter_ne. Qed.

Lemma lookup_replace_source_output_eq a p o :
  replace_source_output a p o !! p.1
  = (λ nd, set_inputs nd (<[p.2 := o]> (inputs nd))) <$> a !! p.1.
Proof. unfold replace_source_output. by rewrite list_lookup_alter_eq. Qed.

(** ** The dispatcher on an empty layout *)

Lemma apply_ordered_pairs_nil m : apply_ordered_pairs [] m = Ok m.
Proof. reflexivity. Qed.

(** C1. With an empty layout, [transform] returns a reference that was not
    in the heap before (a distinct instance), the model stored there is
    equal to the model of [self] (same arena, hence same nodes, edges and
    names, same parameters, results and sinks), and every model that was in
    the heap before, the original included, is what it was. *)
Theorem transform_empty_layout (h : gmap model_ref model) (self_model : model_ref)
    (G : model) :
  h !! self_model = Some G →
  ∃ h' r, transform h self_model [] = Ok (h', r)
          ∧ (r ∉ dom h)
          ∧ r ≠ self_model
          ∧ h' !! r = Some G
          ∧ ∀ x, x ∈ dom h → h' !! x = h !! x.
Proof.
  intros HG.
  pose proof (is_fresh (dom h)) as Hfresh.
  set (r := fresh (dom h)) in *.
  assert (Hne : r ≠ self_model).
  { intros ->. apply Hfresh. apply elem_of_dom. eauto. }
  exists (<[r := G]> h), r.
  split.
  - unfold transform, clone. rewrite HG. cbn. fold r.
    rewrite lookup_insert_eq. cbn. by rewrite insert_insert_eq.
  - repeat split; try done.
    + apply lookup_insert_eq.
    + intros x Hx. apply lookup_insert_ne. intros <-. by apply Hfresh.
Qed.

Lemma transform_empty_layout_witness :
  ∃ h' r, transform one_model_heap 0 [] = Ok (h', r)
          ∧ (r ∉ dom one_model_heap)
          ∧ r ≠ 0
          ∧ h' !! r = Some shared_weight_model
          ∧ ∀ x, x ∈ dom one_model_heap → h' !! x = one_model_heap !! x.
Proof.
  apply (transform_empty_layout one_model_heap 0 shared_weight_model).
  reflexivity.
Defined.

(** ** Extraction appliers use the last command only *)

Lemma last_item_snoc {X : Type} (xs : list X) (x : X) :
  last_item (xs ++ [x]) = last_item [x].
Proof. unfold last_item. by rewrite last_snoc. Qed.

(** C5. For a batch of model-extraction commands, and for a batch of
    conditional-body-extraction commands, the applier's result is the
    result for the last command alone: the earlier commands of the batch
    have no effect. *)
Theorem extraction_last_command_wins (m : model)
    (earlier : list (list (string * nat) * list (string * nat)))
    (c : list (string * nat) * list (string * nat))
    (earlier_if : list (string * bool)) (c_if : string * bool) :
  _apply_model_extraction_transformation m (earlier ++ [c])
  = _apply_model_extraction_transformation m [c]
  ∧ _apply_extract_if_body_transformation m (earlier_if ++ [c_if])
    = _apply_extract_if_body_transformation m [c_if].
Proof.
  split.
  - unfold _apply_model_extraction_transformation. by rewrite last_item_snoc.
  - unfold _apply_extract_if_body_transformation. by rewrite last_item_snoc.
Qed.

(** ** Reuse of an existing FakeQuantize / FakeConvert node *)

Lemma get_source_output_node_input a n p src :
  get_source_output a (n, p) = Ok src → node_input a n p = Ok (n, p).
Proof.
  unfold get_source_output, node_input. cbn.
  destruct (a !! n) as [nd|]; cbn; [|done].
  destruct (inputs nd !! p) eqn:E; cbn; [|done].
  intros _. apply lookup_lt_Some in E. by rewrite decide_True.
Qed.

Lemma insert_fake_quantize_reuse t q mp a tn src fq :
  target_type t = OPERATION_WITH_WEIGHTS →
  mp !! target_node_name t = Some tn →
  get_source_output a (tn, port_id t) = Ok src →
  last_consumer_of_type a src "FakeQuantize" = Some fq →
  _insert_fake_quantize_op t q mp a
  = (_ ← input_element_type a (tn, port_id t);
     Ok (replace_source_output a (tn, port_id t) (fq, 0))).
Proof.
  intros Ht Hmp Hsrc Hfq. unfold _insert_fake_quantize_op, getitem.
  rewrite Hmp. cbn. rewrite Ht. cbn.
  rewrite (get_source_output_node_input _ _ _ _ Hsrc). cbn.
  rewrite Hsrc. cbn. rewrite Hfq.
  by destruct (input_element_type a (tn, port_id t)).
Qed.

Lemma insert_fake_convert_reuse t q mp a tn src fc :
  target_type t = OPERATION_WITH_WEIGHTS →
  mp !! target_node_name t = Some tn →
  get_source_output a (tn, port_id t) = Ok src →
  last_consumer_of_type a src "FakeConvert" = Some fc →
  _insert_fake_convert_op t q mp a
  = Ok (replace_source_output a (tn, port_id t) (fc, 0)).
Proof.
  intros Ht Hmp Hsrc Hfc. unfold _insert_fake_convert_op, getitem.
  rewrite Hmp. cbn. rewrite Ht. cbn.
  rewrite (get_source_output_node_input _ _ _ _ Hsrc). cbn.
  rewrite Hsrc. cbn. by rewrite Hfc.
Qed.

(** C10. A weight-targeted quantizer (convert) insertion that finds a
    FakeQuantize (FakeConvert) node among the consumers of the source
    output of the addressed port reuses it: the arena only gets the
    addressed port bound to output 0 of that node, no node is created, the
    reused node is what it was (unless it is the target node itself, whose
    port is rebound), and the result is the same whatever parameters the
    command carries.  Nothing is asked of where the reused node comes
    from: it may be a node of the input model. *)
Theorem weights_insertion_reuses_existing_node
    (t : OVTargetPoint) (k : fake_op) (mp : gmap string node_id) (a : list node)
    (tn : node_id) (src : output_port) (existing : node_id) (dt : dtype) :
  target_type t = OPERATION_WITH_WEIGHTS →
  mp !! target_node_name t = Some tn →
  get_source_output a (tn, port_id t) = Ok src →
  input_element_type a (tn, port_id t) = Ok dt →
  last_consumer_of_type a src (fake_op_type k) = Some existing →
  let a' := replace_source_output a (tn, port_id t) (existing, 0) in
  (∀ k' : fake_op, fake_op_type k' = fake_op_type k → insert_fake_op t k' mp a = Ok a')
  ∧ length a' = length a
  ∧ (existing ≠ tn → a' !! existing = a !! existing).
Proof.
  intros Ht Hmp Hsrc Hdt Hlast a'.
  split; [|split].
  - intros k' Hk'. rewrite <- Hk' in Hlast.
    destruct k' as [q|q]; cbn in *.
    + rewrite (insert_fake_quantize_reuse t q mp a tn src existing) by done.
      by rewrite Hdt.
    + by rewrite (insert_fake_convert_reuse t q mp a tn src existing).
  - apply length_replace_source_output.
  - intros Hne. by apply lookup_replace_source_output_ne.
Qed.

Lemma weights_insertion_reuses_existing_node_witness :
  let t := mk_target_point OPERATION_WITH_WEIGHTS "conv2" 1 in
  let a' := replace_source_output quantized_weight_arena (3, 1) (8, 0) in
  ((∀ k' : fake_op, fake_op_type k' = fake_op_type (FakeQuantizeOp unit_range_fq) →
      insert_fake_op t k' (_get_name_to_node_mapping quantized_weight_model)
        quantized_weight_arena = Ok a')
   ∧ length a' = length quantized_weight_arena
   ∧ (8 ≠ 3 → a' !! 8 = quantized_weight_arena !! 8))
  ∧ (let a'' := replace_source_output converted_weight_arena (3, 1) (6, 0) in
     (∀ k' : fake_op, fake_op_type k' = fake_op_type (FakeConvertOp unit_fc) →
        insert_fake_op t k' (_get_name_to_node_mapping converted_weight_model)
          converted_weight_arena = Ok a'')
     ∧ length a'' = length converted_weight_arena
     ∧ (6 ≠ 3 → a'' !! 6 = converted_weight_arena !! 6)).
Proof.
  split.
  - apply (weights_insertion_reuses_existing_node
             (mk_target_point OPERATION_WITH_WEIGHTS "conv2" 1)
             (FakeQuantizeOp unit_range_fq)
             (_get_name_to_node_mapping quantized_weight_model)
             quantized_weight_arena 3 (1, 0) 8 f32); by vm_compute.
  - apply (weights_insertion_reuses_existing_node
             (mk_target_point OPERATION_WITH_WEIGHTS "conv2" 1)
             (FakeConvertOp unit_fc)
             (_get_name_to_node_mapping converted_weight_model)
             converted_weight_arena 3 (1, 0) 6 f32); by vm_compute.
Defined.

(** ** Tensor statistics: approximate equality, dump and load *)

Import Statistics.

Lemma isclose_within x y : isclose x y = true ↔ within_tolerance x y.
Proof. unfold isclose, within_tolerance. apply Qle_bool_iff. Qed.

Lemma within_tolerance_refl x : within_tolerance x x.
Proof.
  unfold within_tolerance.
  assert (H0 : (Qabs (x - x) == 0)%Q).
  { assert (Hx : (x - x == 0)%Q) by ring. rewrite Hx. reflexivity. }
  rewrite H0.
  assert (Hr : (0 <= rtol * Qabs x)%Q).
  { apply Qmult_le_0_compat; [done | apply Qabs_nonneg]. }
  assert (Ha : (0 <= atol)%Q) by done.
  pose proof (Qplus_le_compat _ _ _ _ Ha Hr) as Hsum.
  by rewrite Qplus_0_l in Hsum.
Qed.

Lemma allclose_refl (a : Tensor) : allclose a a = true.
Proof.
  induction a as [|x a IH]; [done|]. cbn. rewrite IH, andb_true_r.
  apply isclose_within, within_tolerance_refl.
Qed.

Lemma allclose_lookup (a b : Tensor) i x y :
  allclose a b = true → a !! i = Some x → b !! i = Some y → within_tolerance x y.
Proof.
  revert b i. induction a as [|x' a IH]; intros [|y' b] i Hall Ha Hb; try done.
  cbn in Hall. apply andb_true_iff in Hall as [Hxy Hrest].
  destruct i as [|i]; cbn in *.
  - simplify_eq. by apply isclose_within.
  - eauto.
Qed.

Lemma allclose_false_at (a b : Tensor) i x y :
  a !! i = Some x → b !! i = Some y → ¬ within_tolerance x y → allclose a b = false.
Proof.
  intros Ha Hb Hn. destruct (allclose a b) eqn:E; [|done].
  exfalso. apply Hn. eapply allclose_lookup; eauto.
Qed.

Lemma load_dumped_data_get_dumped_data {I : Type} (mn mx : Tensor) (info : I) :
  load_dumped_data (get_dumped_data mn mx info) = Ok (MinMaxTensorStatistic mn mx).
Proof. reflexivity. Qed.

(** C8. Dumping a min/max statistic with any target-node info and loading
    the record back gives a min/max statistic that compares equal to the
    original, and that compares unequal to any min/max statistic one of
    whose max values is not within the tolerance of the original's. *)
Theorem minmax_dump_load_roundtrip {I : Type} (min_values max_values : Tensor)
    (info : I) (other_min other_max : Tensor) (i : nat) (x y : Q) :
  max_values !! i = Some x →
  other_max !! i = Some y →
  ¬ within_tolerance x y →
  ∃ reloaded,
    load_dumped_data (get_dumped_data min_values max_values info) = Ok reloaded
    ∧ eq_stat reloaded (MinMaxTensorStatistic min_values max_values) = Ok true
    ∧ eq_stat reloaded (MinMaxTensorStatistic other_min other_max) = Ok false.
Proof.
  intros Hx Hy Hfar. eexists. split; [apply load_dumped_data_get_dumped_data|].
  cbn. split.
  - by rewrite !allclose_refl.
  - rewrite (allclose_false_at max_values other_max i x y) by done.
    by rewrite andb_false_r.
Qed.

Lemma minmax_dump_load_roundtrip_witness :
  ∃ reloaded,
    load_dumped_data (get_dumped_data [0%Q] [1%Q] "conv1") = Ok reloaded
    ∧ eq_stat reloaded (MinMaxTensorStatistic [0%Q] [1%Q]) = Ok true
    ∧ eq_stat reloaded (MinMaxTensorStatistic [0%Q] [(101 # 100)%Q]) = Ok false.
Proof.
  apply (minmax_dump_load_roundtrip [0%Q] [1%Q] "conv1" [0%Q] [(101 # 100)%Q]
           0 1%Q (101 # 100)%Q).
  - reflexivity.
  - reflexivity.
  - unfold within_tolerance. vm_compute. intros H. by apply H.
Defined.

Lemma percentile_loop_refl (d : gmap string Tensor) : percentile_loop d d = Ok true.
Proof.
  unfold percentile_loop.
  assert (H : ∀ kv, kv ∈ map_to_list d → d !! kv.1 = Some kv.2).
  { intros [k v] Hkv. by apply elem_of_map_to_list in Hkv. }
  induction (map_to_list d) as [|kv l IH]; [done|].
  cbn. rewrite (H kv) by left. cbn. rewrite allclose_refl. cbn.
  apply IH. intros kv' Hkv'. apply H. by right.
Qed.

(** The four statistic classes whose [__eq__] tests for their own class
    compare equal to an identical copy. *)
Lemma eq_stat_copy_except_raw (s : TensorStatistic) :
  (∀ values, s ≠ RawTensorStatistic values) → eq_stat s s = Ok true.
Proof.
  intros Hraw. destruct s as [mn mx|mean sh|med mad|d|v]; cbn.
  - by rewrite !allclose_refl.
  - by rewrite allclose_refl, bool_decide_eq_true_2.
  - by rewrite !allclose_refl.
  - rewrite bool_decide_eq_true_2 by done. apply percentile_loop_refl.
  - by destruct (Hraw v).
Qed.

Lemma allclose_Forall2 (a b : Tensor) :
  Forall2 within_tolerance a b → allclose a b = true.
Proof.
  induction 1 as [|x y a b Hxy _ IH]; [done|].
  cbn. rewrite IH, andb_true_r. by apply isclose_within.
Qed.

(** The min/max, mean and median/deviation statistics compare equal when
    their payloads are element-wise within the tolerance (and, for the
    mean, the shapes are the same). *)
Lemma eq_stat_close_payloads (x1 x2 y1 y2 : Tensor) (sh : list nat) :
  Forall2 within_tolerance x1 y1 →
  Forall2 within_tolerance x2 y2 →
  eq_stat (MinMaxTensorStatistic x1 x2) (MinMaxTensorStatistic y1 y2) = Ok true
  ∧ eq_stat (MeanTensorStatistic x1 sh) (MeanTensorStatistic y1 sh) = Ok true
  ∧ eq_stat (MedianMADTensorStatistic x1 x2) (MedianMADTensorStatistic y1 y2) = Ok true.
Proof.
  intros H1%allclose_Forall2 H2%allclose_Forall2. cbn.
  by rewrite H1, H2, bool_decide_eq_true_2.
Qed.

(** C9 (the code departs from it). [RawTensorStatistic.__eq__] tests
    [isinstance(other, PercentileTensorStatistic)]: two raw statistics
    never compare equal, not even identical copies, and the comparison with
    a percentile statistic raises AttributeError. *)
Theorem raw_statistic_eq_is_never_true (values other_values : Tensor)
    (d : gmap string Tensor) :
  eq_stat (RawTensorStatistic values) (RawTensorStatistic other_values) = Ok false
  ∧ eq_stat (RawTensorStatistic values) (RawTensorStatistic values) = Ok false
  ∧ eq_stat (RawTensorStatistic values) (PercentileTensorStatistic d)
    = Err (AttributeError "values").
Proof. done. Qed.

(** ** Reading ports after an edit *)

Lemma get_source_output_Ok a p s :
  get_source_output a p = Ok s ↔ ∃ nd, a !! p.1 = Some nd ∧ inputs nd !! p.2 = Some s.
Proof.
  unfold get_source_output. split.
  - destruct (a !! p.1) as [nd|]; cbn; [|done].
    destruct (inputs nd !! p.2) eqn:E; cbn; [|done].
    intros [= <-]. eauto.
  - intros (nd & -> & Hs). cbn. by rewrite Hs.
Qed.

Lemma get_source_output_replace_eq a p o s :
  get_source_output a p = Ok s →
  get_source_output (replace_source_output a p o) p = Ok o.
Proof.
  intros (nd & Hnd & Hs)%get_source_output_Ok. apply get_source_output_Ok.
  exists (set_inputs nd (<[p.2 := o]> (inputs nd))). split.
  - by rewrite lookup_replace_source_output_eq, Hnd.
  - cbn. apply list_lookup_insert_eq. by eapply lookup_lt_Some.
Qed.

Lemma get_source_output_replace_ne a p o q :
  p ≠ q →
  get_source_output (replace_source_output a p o) q = get_source_output a q.
Proof.
  intros Hne. unfold get_source_output.
  destruct (decide (q.1 = p.1)) as [Heq|Hn1].
  - rewrite Heq, lookup_replace_source_output_eq.
    destruct (a !! p.1) as [nd|]; cbn; [|done].
    rewrite list_lookup_insert_ne; [done|].
    intros H2. apply Hne. destruct p, q; cbn in *; congruence.
  - by rewrite lookup_replace_source_output_ne.
Qed.

Lemma get_source_output_app a l p s :
  get_source_output a p = Ok s → get_source_output (a ++ l) p = Ok s.
Proof.
  intros (nd & Hnd & Hs)%get_source_output_Ok. apply get_source_output_Ok.
  exists nd. split; [|done]. by apply lookup_app_l_Some.
Qed.

Lemma get_source_output_lt a p s :
  get_source_output a p = Ok s → p.1 < length a.
Proof. intros (nd & Hnd & _)%get_source_output_Ok. by eapply lookup_lt_Some. Qed.

(** ** Backward constant resolution *)

(** The walk keeps the invariant that [curr_port] reads [curr_node], so the
    port it returns reads the constant it returns. *)
Lemma find_const_reads a fuel port nd k cp cn :
  get_source_output a port = Ok (nd, k) →
  find_const a fuel port nd = Ok (Some (cp, cn)) →
  node_type_name a cn = "Constant" ∧ ∃ k', get_source_output a cp = Ok (cn, k').
Proof.
  revert port nd k. induction fuel as [|fuel IH]; intros port nd k Hport; [done|].
  cbn. unfold node_type_name.
  destruct (a !! nd) as [x|] eqn:Hx; cbn; [|done].
  case_decide as Hty.
  - intros [= <- <-]. rewrite Hx. eauto.
  - destruct (inputs x) as [|[s ks] rest] eqn:Hin; [done|].
    cbn. apply (IH (nd, 0) s ks).
    apply get_source_output_Ok. exists x. cbn. by rewrite Hin.
Qed.

(** When the starting port reads a constant, the walk stops at once. *)
Lemma find_const_direct a fuel port nd :
  node_type_name a nd = "Constant" → a !! nd ≠ None →
  find_const a (S fuel) port nd = Ok (Some (port, nd)).
Proof.
  unfold node_type_name. cbn. destruct (a !! nd) as [x|]; [|done].
  intros Hty _. cbn. by rewrite decide_True.
Qed.

(** The walk of the code finds what the walk on the graph reaches, given
    as much fuel as the walk visits nodes. *)
Lemma walk_find_const a port v k cp cn :
  walk a port v k cp cn → ∀ fuel, k ≤ fuel → find_const a fuel port v = Ok (Some (cp, cn)).
Proof.
  induction 1 as [port v nd Hv Hty|port v nd src rest k cp cn Hv Hty Hin _ IH];
    intros [|fuel] Hfuel; try lia; cbn; rewrite Hv; cbn.
  - by rewrite decide_True.
  - rewrite decide_False by done. rewrite Hin. apply IH. lia.
Qed.

Lemma walk_steps_unique a port port' v k k' cp cp' cn cn' :
  walk a port v k cp cn → walk a port' v k' cp' cn' → k = k'.
Proof.
  intros H. revert port' k' cp' cn'.
  induction H as [port v nd Hv Hty|port v nd src rest k cp cn Hv Hty Hin _ IH];
    intros port' k' cp' cn' H'; inversion H'; simplify_eq; try done.
  f_equal. rewrite Hin in *. simplify_eq. eapply IH. eassumption.
Qed.

(** The nodes a walk visits are pairwise different nodes of the arena. *)
Lemma walk_visits a port v k cp cn :
  walk a port v k cp cn →
  ∃ l : list nat,
    length l = k ∧ NoDup l
    ∧ ∀ u, u ∈ l → u < length a ∧ ∃ p j cp' cn', walk a p u j cp' cn' ∧ j ≤ k.
Proof.
  induction 1 as [port v nd Hv Hty|port v nd src rest k cp cn Hv Hty Hin Hw IH].
  - exists [v]. split; [done|]. split; [apply NoDup_singleton|].
    intros u ->%list_elem_of_singleton. split; [by eapply lookup_lt_Some|].
    exists port, 1, port, v. split; [by eapply walk_found|done].
  - destruct IH as (l & Hlen & Hnd & Hl). exists (v :: l).
    split; [cbn; lia|]. split.
    + apply NoDup_cons. split; [|done]. intros Hvl.
      destruct (Hl v Hvl) as (_ & p & j & cp' & cn' & Hj & Hle).
      assert (j = S k); [|lia].
      eapply (walk_steps_unique a p port v j (S k) cp' cp cn' cn); [exact Hj|].
      by eapply walk_next.
    + intros u [->|Hu]%elem_of_cons.
      * split; [by eapply lookup_lt_Some|].
        exists port, (S k), cp, cn. split; [by eapply walk_next|done].
      * destruct (Hl u Hu) as (Hlt & p & j & cp' & cn' & Hj & Hle).
        split; [done|]. exists p, j, cp', cn'. split; [done|lia].
Qed.

(** So a walk visits at most as many nodes as the arena has, and the fuel
    [_set_const_value] gives to [find_const] is enough. *)
Lemma walk_bound a port v k cp cn : walk a port v k cp cn → k ≤ length a.
Proof.
  intros (l & <- & Hnd & Hl)%walk_visits.
  trans (length (seq 0 (length a))); [|by rewrite length_seq].
  apply submseteq_length.
  apply NoDup_submseteq; [done|]. intros u Hu. apply elem_of_seq.
  destruct (Hl u Hu) as [? _]. lia.
Qed.

Lemma find_const_walk a port v cp cn k :
  walk a port v k cp cn → find_const a (S (length a)) port v = Ok (Some (cp, cn)).
Proof.
  intros H. apply (walk_find_const _ _ _ _ _ _ H).
  apply walk_bound in H. lia.
Qed.

(** [_set_const_value] returns when the walk on the graph reaches a
    constant and the value fits its shape. *)
Lemma set_const_value_walk a n p v src k cp cn nd old reshaped :
  get_source_output a (n, p) = Ok src →
  walk a (n, p) src.1 k cp cn →
  a !! cn = Some nd →
  data nd = Some old →
  np_reshape v (shape old) = Ok reshaped →
  _set_const_value a n p v
  = Ok (replace_source_output
          (a ++ [mk_node (friendly_name nd) "Constant" []
                   [mk_tensor_desc (nd_dtype old) (shape old) ∅]
                   (Some (astype reshaped (nd_dtype old))) None None []])
          cp (length a, 0)).
Proof.
  intros Hsrc Hwalk Hnd Hdata Hreshape.
  pose proof (find_const_walk _ _ _ _ _ _ Hwalk) as Hfind.
  assert (Hshape : shape reshaped = shape old).
  { unfold np_reshape in Hreshape. case_decide; [|done]. by simplify_eq. }
  unfold _set_const_value, input_value.
  rewrite (get_source_output_node_input _ _ _ _ Hsrc). cbn.
  rewrite Hsrc. cbn. cbn in Hfind. rewrite Hfind. cbn.
  rewrite Hnd. cbn. rewrite Hdata. cbn. rewrite Hreshape. cbn.
  unfold op_Constant, new_node. cbn. by rewrite Hshape.
Qed.

(** C3 as stated fails: the resolution starts from port 1 of [add], walks
    through [bias/convert] and reaches the constant [bias]; the new
    constant is bound to port 0 of [bias/convert], and port 1 of [add], the
    port the resolution started from, still reads [bias/convert]. *)
Lemma set_const_value_start_port_not_redirected :
  ∃ a', _set_const_value compressed_bias_arena 5 1 new_bias = Ok a'
        ∧ find_const compressed_bias_arena (S (length compressed_bias_arena)) (5, 1) 4
          = Ok (Some ((4, 0), 3))
        ∧ node_type_name a' 7 = "Constant"
        ∧ length compressed_bias_arena = 7
        ∧ get_source_output a' (5, 1) = Ok (4, 0)
        ∧ get_source_output a' (5, 1) ≠ Ok (7, 0)
        ∧ get_source_output a' (4, 0) = Ok (7, 0).
Proof. eexists. repeat split; try reflexivity. by vm_compute. Qed.

(** C3 (amended). When the backward resolution from input port
    [const_port_id] of [node_with_const] reaches a constant node, and the
    replacement value can be reshaped to the constant's shape, the call
    appends one constant node with the name of the old constant and with
    the replacement value reshaped to the old shape and cast to the old
    element type, and binds to it the port that read the old constant: the
    last port of the walk.  That port is the starting port when the
    starting port reads the constant directly; every other port keeps its
    source. *)
Theorem set_const_value_replaces_found_constant
    (a : list node) (node_with_const : node_id) (const_port_id : nat)
    (const_value : ndarray) (src : output_port) (const_port : input_port)
    (const_node : node_id) (steps : nat) (nd : node) (old reshaped : ndarray) :
  get_source_output a (node_with_const, const_port_id) = Ok src →
  walk a (node_with_const, const_port_id) src.1 steps const_port const_node →
  a !! const_node = Some nd →
  data nd = Some old →
  np_reshape const_value (shape old) = Ok reshaped →
  let new_value := astype reshaped (nd_dtype old) in
  ∃ a', _set_const_value a node_with_const const_port_id const_value = Ok a'
        ∧ length a' = S (length a)
        ∧ a' !! length a = Some (mk_node (friendly_name nd) "Constant" []
                                   [mk_tensor_desc (nd_dtype old) (shape old) ∅]
                                   (Some new_value) None None [])
        ∧ shape new_value = shape old
        ∧ nd_dtype new_value = nd_dtype old
        ∧ type_name nd = "Constant"
        ∧ (∃ k, get_source_output a const_port = Ok (const_node, k))
        ∧ get_source_output a' const_port = Ok (length a, 0)
        ∧ (node_type_name a src.1 = "Constant" →
           const_port = (node_with_const, const_port_id))
        ∧ (∀ q, q ≠ const_port → q.1 < length a →
             get_source_output a' q = get_source_output a q).
Proof.
  intros Hsrc Hwalk Hnd Hdata Hreshape new_value.
  pose proof (find_const_walk _ _ _ _ _ _ Hwalk) as Hfind.
  pose proof (set_const_value_walk _ _ _ _ _ _ _ _ _ _ _ Hsrc Hwalk Hnd Hdata Hreshape)
    as Hrun.
  destruct src as [s ks].
  destruct (find_const_reads _ _ _ _ _ _ _ Hsrc Hfind) as [Hty [k' Hcp]].
  assert (Hshape : shape reshaped = shape old).
  { unfold np_reshape in Hreshape. case_decide; [|done]. by simplify_eq. }
  set (c := mk_node (friendly_name nd) "Constant" []
              [mk_tensor_desc (nd_dtype old) (shape old) ∅]
              (Some new_value) None None []).
  exists (replace_source_output (a ++ [c]) const_port (length a, 0)).
  pose proof (get_source_output_lt _ _ _ Hcp) as Hlt.
  repeat split.
  - exact Hrun.
  - rewrite length_replace_source_output, length_app. cbn. lia.
  - rewrite lookup_replace_source_output_ne by lia.
    rewrite lookup_app_r by lia. by rewrite Nat.sub_diag.
  - exact Hshape.
  - unfold node_type_name in Hty. by rewrite Hnd in Hty.
  - eauto.
  - eapply get_source_output_replace_eq. by eapply get_source_output_app.
  - intros Hdirect. cbn [fst] in Hdirect, Hfind.
    rewrite find_const_direct in Hfind; [by simplify_eq | done |].
    apply get_source_output_Ok in Hsrc as (x & Hx & Hin).
    unfold node_type_name in Hdirect.
    destruct (a !! s); [done|]. done.
  - intros q Hq Hqlt. rewrite get_source_output_replace_ne by done.
    unfold get_source_output. by rewrite lookup_app_l.
Qed.

Lemma set_const_value_replaces_found_constant_witness :
  let a := compressed_bias_arena in
  let old := vec f16 [0; 0; 0; 0]%Q in
  let nd := const_node "bias" old in
  let new_value := astype (mk_ndarray [4] f32 (Lit <$> [5; 6; 7; 8]%Q)) f16 in
  ∃ a', _set_const_value a 5 1 new_bias = Ok a'
        ∧ length a' = S (length a)
        ∧ a' !! length a = Some (mk_node (friendly_name nd) "Constant" []
                                   [mk_tensor_desc (nd_dtype old) (shape old) ∅]
                                   (Some new_value) None None [])
        ∧ shape new_value = shape old
        ∧ nd_dtype new_value = nd_dtype old
        ∧ type_name nd = "Constant"
        ∧ (∃ k, get_source_output a (4, 0) = Ok (3, k))
        ∧ get_source_output a' (4, 0) = Ok (length a, 0)
        ∧ (node_type_name a (4, 0).1 = "Constant" → (4, 0) = (5, 1))
        ∧ (∀ q, q ≠ (4, 0) → q.1 < length a →
             get_source_output a' q = get_source_output a q).
Proof.
  intros a old nd new_value.
  apply (set_const_value_replaces_found_constant compressed_bias_arena 5 1 new_bias
           (4, 0) (4, 0) 3 2 nd old (mk_ndarray [4] f32 (Lit <$> [5; 6; 7; 8]%Q)));
    try reflexivity.
  eapply walk_next; [reflexivity|done|reflexivity|].
  eapply walk_found; reflexivity.
Defined.

(** ** Bias correction touches one port *)

Ltac case_result H :=
  match type of H with
  | context [mbind _ ?r] =>
      lazymatch r with
      | context [mbind _ _] => fail
      | _ => let E := fresh "E" in destruct r eqn:E; cbn in H; [|discriminate H]
      end
  end.

Arguments find_const : simpl never.

Lemma set_const_value_inv a n p v a' :
  _set_const_value a n p v = Ok a' →
  ∃ src cp cn nd old reshaped,
    get_source_output a (n, p) = Ok src
    ∧ find_const a (S (length a)) (n, p) src.1 = Ok (Some (cp, cn))
    ∧ a !! cn = Some nd
    ∧ data nd = Some old
    ∧ np_reshape v (shape old) = Ok reshaped
    ∧ a' = replace_source_output
             (a ++ [mk_node (friendly_name nd) "Constant" []
                      [mk_tensor_desc (nd_dtype old) (shape old) ∅]
                      (Some (astype reshaped (nd_dtype old))) None None []])
             cp (length a, 0).
Proof.
  unfold _set_const_value, input_value. intros H.
  destruct (node_input a n p) as [port|] eqn:Hport; cbn in H; [|done].
  destruct (get_source_output a (n, p)) as [src|] eqn:Hsrc; cbn in H; [|done].
  rewrite (get_source_output_node_input _ _ _ _ Hsrc) in Hport. simplify_eq.
  destruct (find_const a (S (length a)) (n, p) src.1) as [[[cp cn]|]|] eqn:Hfind;
    cbn in H; [|done|done].
  destruct (a !! cn) as [nd|] eqn:Hnd; cbn in H; [|done].
  destruct (data nd) as [old|] eqn:Hdata; cbn in H; [|done].
  destruct (np_reshape v (shape old)) as [reshaped|] eqn:Hre; cbn in H; [|done].
  exists src, cp, cn, nd, old, reshaped.
  assert (Hshape : shape reshaped = shape old).
  { unfold np_reshape in Hre. case_decide; [|done]. by simplify_eq. }
  unfold op_Constant, new_node in H. cbn in H. rewrite Hshape in H.
  by simplify_eq.
Qed.

(** The bias-correction step returns when the target node has an [Add]
    consumer on output 0 from whose port the walk reaches a constant whose
    shape the bias value fits. *)
Lemma bias_correction_step_returns (mp : gmap string nat) t v a tn x add_node src k
    cp cn nd old reshaped :
  mp !! target_node_name t = Some tn →
  a !! tn = Some x → 0 < length (outputs x) →
  last (filter (λ n, node_type_name a n = "Add") (fst <$> get_target_inputs a (tn, 0)))
  = Some add_node →
  get_source_output a (add_node, port_id t) = Ok src →
  walk a (add_node, port_id t) src.1 k cp cn →
  a !! cn = Some nd →
  data nd = Some old →
  np_reshape v (shape old) = Ok reshaped →
  bias_correction_step mp (t, v) a
  = Ok (replace_source_output
          (a ++ [mk_node (friendly_name nd) "Constant" []
                   [mk_tensor_desc (nd_dtype old) (shape old) ∅]
                   (Some (astype reshaped (nd_dtype old))) None None []])
          cp (length a, 0)).
Proof.
  intros Hmp Hx Hout Hlast Hsrc Hwalk Hnd Hdata Hre.
  unfold bias_correction_step, getitem, node_output. cbn. rewrite Hmp. cbn.
  rewrite Hx. cbn. rewrite decide_True by done. cbn. rewrite Hlast.
  by eapply set_const_value_walk.
Qed.

(** C6. A bias-correction command that is applied replaces one constant
    and nothing else.  The target node's output 0 has an [Add] consumer;
    the walk from that consumer's port [port_id] ends at a port
    [const_port] reading a constant; the applier appends one constant of
    the same name and binds [const_port] to it.  Every node of the graph
    but the owner of [const_port] is what it was, the owner differs in that
    one input only, every other port keeps its source, and the model's
    parameters, results, sinks and name are unchanged. *)
Theorem bias_correction_replaces_one_constant
    (m : model) (t : OVTargetPoint) (bias_value : ndarray) (m' : model) :
  _apply_bias_correction_transformations m [(t, bias_value)] = Ok m' →
  let a := arena m in
  let a' := arena m' in
  ∃ target add_node src const_port const_node k owner old_const new_const,
    _get_name_to_node_mapping m !! target_node_name t = Some target
    ∧ add_node ∈ fst <$> get_target_inputs a (target, 0)
    ∧ node_type_name a add_node = "Add"
    ∧ get_source_output a (add_node, port_id t) = Ok src
    ∧ find_const a (S (length a)) (add_node, port_id t) src.1
      = Ok (Some (const_port, const_node))
    ∧ get_source_output a const_port = Ok (const_node, k)
    ∧ a !! const_node = Some old_const
    ∧ type_name old_const = "Constant"
    ∧ length a' = S (length a)
    ∧ a' !! length a = Some new_const
    ∧ type_name new_const = "Constant"
    ∧ friendly_name new_const = friendly_name old_const
    ∧ inputs new_const = []
    ∧ a !! const_port.1 = Some owner
    ∧ a' !! const_port.1
      = Some (set_inputs owner (<[const_port.2 := (length a, 0)]> (inputs owner)))
    ∧ (∀ i, i < length a → i ≠ const_port.1 → a' !! i = a !! i)
    ∧ (∀ q, q ≠ const_port → q.1 < length a →
         get_source_output a' q = get_source_output a q)
    ∧ parameters m' = parameters m
    ∧ results m' = results m
    ∧ sinks m' = sinks m
    ∧ model_friendly_name m' = model_friendly_name m.
Proof.
  intros H a a'. unfold _apply_bias_correction_transformations in H.
  cbn in H. unfold bias_correction_step in H at 1. cbn in H. fold a in H.
  unfold getitem in H.
  destruct (_get_name_to_node_mapping m !! target_node_name t) as [target|] eqn:Hmp;
    cbn in H; [|done].
  destruct (node_output a target 0) as [out0|] eqn:Hout; cbn in H; [|done].
  assert (out0 = (target, 0)) as ->.
  { unfold node_output in Hout. destruct (a !! target); cbn in Hout; [|done].
    case_decide; by simplify_eq. }
  destruct (last (filter (λ n, node_type_name a n = "Add")
                    (get_target_inputs a (target, 0)).*1)) as [add_node|] eqn:Hlast;
    cbn in H; [|done].
  destruct (_set_const_value a add_node (port_id t) bias_value) as [a1|] eqn:Hset;
    cbn in H; [|done].
  injection H as <-. subst a'. cbn.
  apply last_Some_elem_of, list_elem_of_filter in Hlast as [Hadd Hin].
  apply set_const_value_inv in Hset
    as (src & cp & cn & nd & old & reshaped & Hsrc & Hfind & Hnd & Hdata & Hre & ->).
  destruct src as [s ks].
  destruct (find_const_reads _ _ _ _ _ _ _ Hsrc Hfind) as [Hty [k Hcp]].
  pose proof (get_source_output_lt _ _ _ Hcp) as Hlt.
  apply get_source_output_Ok in Hcp as Hcp'. destruct Hcp' as (owner & Howner & Hk).
  set (c := mk_node (friendly_name nd) "Constant" [] _ _ None None []).
  exists target, add_node, (s, ks), cp, cn, k, owner, nd, c.
  repeat split; try done.
  - unfold node_type_name in Hty. by rewrite Hnd in Hty.
  - rewrite length_replace_source_output, length_app. cbn. lia.
  - rewrite lookup_replace_source_output_ne by lia.
    rewrite lookup_app_r by lia. by rewrite Nat.sub_diag.
  - rewrite lookup_replace_source_output_eq.
    by rewrite (lookup_app_l_Some _ _ _ _ Howner).
  - intros i Hi Hne. rewrite lookup_replace_source_output_ne by done.
    by rewrite lookup_app_l.
  - intros q Hq Hqlt. rewrite get_source_output_replace_ne by done.
    unfold get_source_output. by rewrite lookup_app_l.
Qed.

Lemma bias_correction_replaces_one_constant_witness :
  let t := mk_target_point POST_LAYER_OPERATION "conv" 1 in
  let a := arena compressed_bias_model in
  let a' := arena corrected_bias_model in
  ∃ target add_node src const_port const_node k owner old_const new_const,
    _get_name_to_node_mapping compressed_bias_model !! target_node_name t = Some target
    ∧ add_node ∈ fst <$> get_target_inputs a (target, 0)
    ∧ node_type_name a add_node = "Add"
    ∧ get_source_output a (add_node, port_id t) = Ok src
    ∧ find_const a (S (length a)) (add_node, port_id t) src.1
      = Ok (Some (const_port, const_node))
    ∧ get_source_output a const_port = Ok (const_node, k)
    ∧ a !! const_node = Some old_const
    ∧ type_name old_const = "Constant"
    ∧ length a' = S (length a)
    ∧ a' !! length a = Some new_const
    ∧ type_name new_const = "Constant"
    ∧ friendly_name new_const = friendly_name old_const
    ∧ inputs new_const = []
    ∧ a !! const_port.1 = Some owner
    ∧ a' !! const_port.1
      = Some (set_inputs owner (<[const_port.2 := (length a, 0)]> (inputs owner)))
    ∧ (∀ i, i < length a → i ≠ const_port.1 → a' !! i = a !! i)
    ∧ (∀ q, q ≠ const_port → q.1 < length a →
         get_source_output a' q = get_source_output a q)
    ∧ parameters corrected_bias_model = parameters compressed_bias_model
    ∧ results corrected_bias_model = results compressed_bias_model
    ∧ sinks corrected_bias_model = sinks compressed_bias_model
    ∧ model_friendly_name corrected_bias_model
      = model_friendly_name compressed_bias_model.
Proof.
  apply (bias_correction_replaces_one_constant compressed_bias_model
           (mk_target_point POST_LAYER_OPERATION "conv" 1) new_bias
           corrected_bias_model).
  reflexivity.
Defined.

(** ** Consumers of an output *)

Lemma elem_of_ports_reading o n nd q :
  q ∈ ports_reading o n nd ↔ q.1 = n ∧ inputs nd !! q.2 = Some o.
Proof.
  unfold ports_reading. rewrite list_elem_of_fmap. split.
  - intros ([i s] & -> & Hin). apply list_elem_of_filter in Hin as [Hs Hin].
    apply elem_of_lookup_imap in Hin as (j & y & Heq & Hy). cbn in *.
    by simplify_eq.
  - intros [<- Hq]. exists (q.2, o). split; [by destruct q|].
    apply list_elem_of_filter. split; [done|].
    apply elem_of_lookup_imap. eauto.
Qed.

(** [get_target_inputs a o] lists exactly the ports bound to [o]. *)
Lemma elem_of_get_target_inputs a o q :
  q ∈ get_target_inputs a o ↔ get_source_output a q = Ok o.
Proof.
  unfold get_target_inputs. rewrite list_elem_of_join, get_source_output_Ok. split.
  - intros (l & Hq & Hl). apply elem_of_lookup_imap in Hl as (n & nd & -> & Hnd).
    apply elem_of_ports_reading in Hq as [-> Hq]. eauto.
  - intros (nd & Hnd & Hq). exists (ports_reading o q.1 nd). split.
    + by apply elem_of_ports_reading.
    + apply elem_of_lookup_imap. eauto.
Qed.

Lemma rebind_cons a p ps o' :
  rebind a (p :: ps) o' = rebind (replace_source_output a p o') ps o'.
Proof. reflexivity. Qed.

Lemma length_rebind a ps o' : length (rebind a ps o') = length a.
Proof.
  revert a. induction ps as [|p ps IH]; intros a; [done|].
  rewrite rebind_cons. by rewrite IH, length_replace_source_output.
Qed.

Lemma get_source_output_rebind_notin a ps o' q :
  q ∉ ps → get_source_output (rebind a ps o') q = get_source_output a q.
Proof.
  revert a. induction ps as [|p ps IH]; intros a Hq; [done|].
  apply not_elem_of_cons in Hq as [Hne Hq]. rewrite rebind_cons.
  rewrite IH by done. by apply get_source_output_replace_ne.
Qed.

Lemma get_source_output_rebind_in a ps o' q s :
  q ∈ ps → get_source_output a q = Ok s →
  get_source_output (rebind a ps o') q = Ok o'.
Proof.
  revert a s. induction ps as [|p ps IH]; intros a s Hq Hs; [by apply elem_of_nil in Hq|].
  rewrite rebind_cons. destruct (decide (q = p)) as [->|Hne].
  - pose proof (get_source_output_replace_eq a p o' s Hs) as Hp.
    destruct (decide (p ∈ ps)) as [Hin|Hnin].
    + by eapply IH.
    + by rewrite get_source_output_rebind_notin.
  - apply elem_of_cons in Hq as [?|Hq]; [done|].
    eapply IH; [done|]. by rewrite get_source_output_replace_ne.
Qed.

Lemma lookup_rebind_other a ps o' i :
  (∀ p, p ∈ ps → p.1 ≠ i) → rebind a ps o' !! i = a !! i.
Proof.
  revert a. induction ps as [|p ps IH]; intros a Hps; [done|].
  rewrite rebind_cons, IH.
  - apply lookup_replace_source_output_ne. intros ->. by eapply Hps; [left|].
  - intros q Hq. apply Hps. by right.
Qed.

(** ** Multiply insertion rewires the allow-listed consumers only *)

Lemma elem_of_destination_ports_of a o names q :
  q ∈ destination_ports_of a o names
  ↔ node_name a q.1 ∈ names ∧ get_source_output a q = Ok o.
Proof.
  unfold destination_ports_of.
  by rewrite list_elem_of_filter, elem_of_get_target_inputs.
Qed.

Lemma node_output_Ok a n p o : node_output a n p = Ok o → o = (n, p).
Proof.
  unfold node_output. destruct (a !! n); cbn; [|done].
  case_decide; [|done]. by intros [= <-].
Qed.

Lemma get_source_output_app_lt a l q :
  q.1 < length a → get_source_output (a ++ l) q = get_source_output a q.
Proof. intros Hlt. unfold get_source_output. by rewrite lookup_app_l. Qed.

(** C7. A multiply insertion command that is applied appends the scale
    constant and the multiply node, which reads the target output; of the
    ports that read the target output before the call, exactly those whose
    node name is in the command's destination list read the multiply node
    afterwards, the others still read the target output, and every other
    port of the graph keeps its source. *)
Theorem multiply_insertion_rewires_listed_consumers
    (mp : gmap string node_id) (t : multiply_payload) (a a' : list node) :
  multiply_insertion_step mp t a = Ok a' →
  ∃ target mul,
    let o := (target, port_id (mul_target_point t)) in
    let multiply_node := S (length a) in
    mp !! target_node_name (mul_target_point t) = Some target
    ∧ length a' = S (S (length a))
    ∧ a' !! multiply_node = Some mul
    ∧ type_name mul = "Multiply"
    ∧ friendly_name mul = mul_multiply_node_name t
    ∧ inputs mul = [o; (length a, 0)]
    ∧ (∀ q, get_source_output a q = Ok o →
         node_name a q.1 ∈ mul_destination_node_names t →
         get_source_output a' q = Ok (multiply_node, 0))
    ∧ (∀ q, get_source_output a q = Ok o →
         node_name a q.1 ∉ mul_destination_node_names t →
         get_source_output a' q = Ok o)
    ∧ (∀ q, q.1 < length a → get_source_output a q ≠ Ok o →
         get_source_output a' q = get_source_output a q).
Proof.
  unfold multiply_insertion_step, getitem. intros H.
  destruct (mp !! target_node_name (mul_target_point t)) as [target|] eqn:Hmp;
    cbn in H; [|done].
  destruct (node_output a target (port_id (mul_target_point t))) as [o|] eqn:Ho;
    cbn in H; [|done].
  apply node_output_Ok in Ho as ->.
  set (o := (target, port_id (mul_target_point t))) in *.
  set (ps := destination_ports_of a o (mul_destination_node_names t)) in *.
  destruct (all_fp16 a ps) as [fp16|] eqn:Hfp; cbn in H; [|done].
  unfold _create_constant, new_node in H. cbn in H.
  unfold opset_multiply, opset_binary in H.
  destruct (like_output _ o) as [d|] eqn:Hd; cbn in H; [|done].
  case_result H.
  unfold new_node in H. cbn in H.
  rewrite length_app in H. cbn in H.
  replace (length a + 1) with (S (length a)) in H by lia.
  change (foldl (λ a' p, replace_source_output a' p ?o') ?x ?y)
    with (rebind x y o') in H.
  injection H as <-.
  set (c := mk_node _ "Constant" _ _ _ _ _ _).
  set (mul := plain_node _ "Multiply" _ _).
  assert (Hps : ∀ p, p ∈ ps → p.1 < length a).
  { intros p [_ Hp]%elem_of_destination_ports_of. by eapply get_source_output_lt. }
  exists target, mul. cbn zeta. repeat split; try done.
  - rewrite length_rebind, !length_app. cbn. lia.
  - rewrite lookup_rebind_other.
    + rewrite lookup_app_r; rewrite length_app; cbn; [|lia].
      by replace (S (length a) - (length a + 1)) with 0 by lia.
    + intros p Hp%Hps. lia.
  - intros q Hq Hname.
    eapply get_source_output_rebind_in.
    + apply elem_of_destination_ports_of. eauto.
    + by do 2 apply get_source_output_app.
  - intros q Hq Hname.
    rewrite get_source_output_rebind_notin.
    + by do 2 apply get_source_output_app.
    + intros [? _]%elem_of_destination_ports_of. done.
  - intros q Hlt Hq.
    rewrite get_source_output_rebind_notin.
    + rewrite !get_source_output_app_lt; [done|done|]. rewrite length_app. lia.
    + intros [_ ?]%elem_of_destination_ports_of. done.
Qed.

Lemma multiply_insertion_rewires_listed_consumers_witness :
  let a := fan_out_arena in
  let a' := fan_out_scaled_arena in
  ∃ target mul,
    let o := (target, 0) in
    let multiply_node := S (length a) in
    _get_name_to_node_mapping fan_out_model !! "A" = Some target
    ∧ length a' = S (S (length a))
    ∧ a' !! multiply_node = Some mul
    ∧ type_name mul = "Multiply"
    ∧ friendly_name mul = "A/scale_mul"
    ∧ inputs mul = [o; (length a, 0)]
    ∧ (∀ q, get_source_output a q = Ok o → node_name a q.1 ∈ ["B"] →
         get_source_output a' q = Ok (multiply_node, 0))
    ∧ (∀ q, get_source_output a q = Ok o → node_name a q.1 ∉ ["B"] →
         get_source_output a' q = Ok o)
    ∧ (∀ q, q.1 < length a → get_source_output a q ≠ Ok o →
         get_source_output a' q = get_source_output a q).
Proof.
  apply (multiply_insertion_rewires_listed_consumers
           (_get_name_to_node_mapping fan_out_model) scale_B
           fan_out_arena fan_out_scaled_arena).
  by vm_compute.
Defined.

(** The scenario of C7 read off the result: [B] reads the multiply node,
    [C] still reads [A]. *)
Example scale_B_scenario :
  multiply_insertion_step (_get_name_to_node_mapping fan_out_model) scale_B fan_out_arena
  = Ok fan_out_scaled_arena
  ∧ get_source_output fan_out_scaled_arena (1, 0) = Ok (6, 0)
  ∧ get_source_output fan_out_scaled_arena (2, 0) = Ok (0, 0)
  ∧ get_source_output fan_out_scaled_arena (6, 0) = Ok (0, 0).
Proof. repeat split; by vm_compute. Qed.

(** ** Consumers of a given type under edits of the arena *)

Lemma node_type_name_replace_source_output a q o i :
  node_type_name (replace_source_output a q o) i = node_type_name a i.
Proof.
  unfold node_type_name. destruct (decide (i = q.1)) as [->|Hne].
  - rewrite lookup_replace_source_output_eq. by destruct (a !! q.1).
  - by rewrite lookup_replace_source_output_ne.
Qed.

Lemma node_type_name_app_l a l i :
  i < length a → node_type_name (a ++ l) i = node_type_name a i.
Proof. intros Hlt. unfold node_type_name. by rewrite lookup_app_l. Qed.

Section filtered_consumers.
Context (P Q : nat → Prop) `{!∀ n, Decision (P n)} `{!∀ n, Decision (Q n)}.

Lemma filter_owner_const {X : Type} (n : nat) (l : list X) :
  ¬ P n → filter P ((λ _, n) <$> l) = [].
Proof.
  intros Hn. induction l as [|x l IH]; [done|].
  rewrite fmap_cons, filter_cons_False; done.
Qed.

Lemma filter_ports_reading_not o n nd :
  ¬ P n → filter P (fst <$> ports_reading o n nd) = [].
Proof.
  intros Hn. unfold ports_reading. rewrite <- list_fmap_compose.
  by apply filter_owner_const.
Qed.

Lemma filter_owner_const_iff {X : Type} (n : nat) (l : list X) :
  (P n ↔ Q n) → filter P ((λ _, n) <$> l) = filter Q ((λ _, n) <$> l).
Proof.
  intros Hn. induction l as [|x l IH]; [done|].
  rewrite fmap_cons. destruct (decide (P n)) as [Hp|Hp].
  - rewrite !filter_cons_True by tauto. by rewrite IH.
  - rewrite !filter_cons_False by tauto. done.
Qed.

Lemma filter_ports_reading_iff o n nd :
  (P n ↔ Q n) →
  filter P (fst <$> ports_reading o n nd) = filter Q (fst <$> ports_reading o n nd).
Proof.
  intros Hn. unfold ports_reading. rewrite <- list_fmap_compose.
  by apply filter_owner_const_iff.
Qed.

Lemma filtered_join_imap_ext (f g : nat → node → list (nat * nat)) (l l' : list node) :
  length l = length l' →
  (∀ i x y, l !! i = Some x → l' !! i = Some y →
            filter P (fst <$> f i x) = filter Q (fst <$> g i y)) →
  filter P (fst <$> mjoin (imap f l)) = filter Q (fst <$> mjoin (imap g l')).
Proof.
  revert f g l'. induction l as [|x l IH]; intros f g [|y l'] Hlen Hpt; try done.
  rewrite !imap_cons. cbn [mjoin list_join].
  rewrite !fmap_app, !filter_app. f_equal.
  - by apply (Hpt 0 x y).
  - apply IH; [by simplify_eq/=|].
    intros i x' y' Hx Hy. by apply (Hpt (S i)).
Qed.
End filtered_consumers.

(** Rebinding a port of a node that is not of type [ty] leaves the
    consumers of type [ty] of every output as they are. *)
Lemma consumers_of_type_replace_source_output a q o' o ty :
  node_type_name a q.1 ≠ ty →
  consumers_of_type (replace_source_output a q o') o ty = consumers_of_type a o ty.
Proof.
  intros Hq. unfold consumers_of_type, get_target_inputs.
  apply filtered_join_imap_ext.
  - by rewrite length_replace_source_output.
  - intros i x y Hx Hy. destruct (decide (i = q.1)) as [->|Hne].
    + rewrite !filter_ports_reading_not; [done|done|].
      by rewrite node_type_name_replace_source_output.
    + rewrite lookup_replace_source_output_ne in Hx by done. simplify_eq.
      apply filter_ports_reading_iff.
      by rewrite node_type_name_replace_source_output.
Qed.

Lemma join_imap_nil {X Y : Type} (f : nat → X → list Y) (l : list X) :
  (∀ i x, x ∈ l → f i x = []) → mjoin (imap f l) = [].
Proof.
  revert f. induction l as [|x l IH]; intros f Hf; [done|].
  rewrite imap_cons. cbn [mjoin list_join].
  rewrite (Hf 0 x) by left. cbn. apply IH.
  intros i y Hy. apply Hf. by right.
Qed.

Lemma filter_imap_snd_ne {X : Type} (g : nat → nat * nat → X * (nat * nat))
    (o : nat * nat) (rest : list (nat * nat)) :
  (∀ i src, (g i src).2 = src) →
  Forall (λ r, r ≠ o) rest →
  filter (λ ip : X * (nat * nat), ip.2 = o) (imap g rest) = [].
Proof.
  revert g. induction rest as [|r rest IH]; intros g Hg Hrest; [done|].
  apply Forall_cons in Hrest as [Hr Hrest].
  rewrite imap_cons, filter_cons_False by by rewrite Hg.
  apply IH; [|done]. intros i src. apply Hg.
Qed.

Lemma ports_reading_head o n nd rest :
  inputs nd = o :: rest → Forall (λ r, r ≠ o) rest →
  ports_reading o n nd = [(n, 0)].
Proof.
  intros Hin Hrest. unfold ports_reading. rewrite Hin, imap_cons.
  rewrite filter_cons_True by done.
  by rewrite filter_imap_snd_ne.
Qed.

Lemma ports_reading_no_inputs o n nd : inputs nd = [] → ports_reading o n nd = [].
Proof. intros Hin. unfold ports_reading. by rewrite Hin. Qed.

(** Appending input-free nodes and one node of type [ty] that reads [o] on
    its first port only adds that node to the consumers of type [ty]. *)
Lemma consumers_of_type_created (a : list node) (o : nat * nat) ty news fake
    (rest : list (nat * nat)) :
  o.1 < length a →
  Forall (λ c, inputs c = []) news →
  type_name fake = ty →
  inputs fake = o :: rest →
  Forall (λ r : nat * nat, (length a ≤ r.1)%nat) rest →
  consumers_of_type (a ++ news ++ [fake]) o ty
  = consumers_of_type a o ty ++ [length a + length news].
Proof.
  intros Ho Hnews Hty Hin Hrest. unfold consumers_of_type, get_target_inputs.
  rewrite !imap_app, !join_app, !fmap_app, !filter_app.
  f_equal.
  - apply filtered_join_imap_ext; [done|].
    intros i x y Hx Hy. simplify_eq. apply filter_ports_reading_iff.
    rewrite node_type_name_app_l; [done|]. by eapply lookup_lt_Some.
  - rewrite join_imap_nil.
    2: { intros i c Hc. apply ports_reading_no_inputs.
         by apply (proj1 (Forall_forall _ _) Hnews). }
    cbn [imap mjoin list_join fmap list_fmap]. rewrite filter_nil, app_nil_l, app_nil_r.
    rewrite (ports_reading_head o _ fake rest Hin).
    + rewrite !Nat.add_0_r. cbn [fmap list_fmap fst].
      rewrite filter_cons_True; [done|].
      unfold node_type_name. rewrite lookup_app_r by lia.
      rewrite lookup_app_r by lia.
      replace (length a + length news - length a - length news) with 0 by lia.
      done.
    + eapply Forall_impl; [exact Hrest|]. intros r Hr ->. cbn in Hr. lia.
Qed.

(** ** What the insertion of a new FakeQuantize / FakeConvert node appends *)

Lemma like_output_Ok a o d :
  like_output a o = Ok d →
  ∃ nd x, a !! o.1 = Some nd ∧ outputs nd !! o.2 = Some x
          ∧ d = mk_tensor_desc (element_type x) (partial_shape x) ∅.
Proof.
  unfold like_output. destruct (a !! o.1) as [nd|]; cbn; [|done].
  destruct (outputs nd !! o.2) as [x|] eqn:Hx; cbn; [|done].
  intros [= <-]. by exists nd, x.
Qed.

Lemma like_output_lt a o d : like_output a o = Ok d → o.1 < length a.
Proof. intros (nd & x & Hnd & _)%like_output_Ok. by eapply lookup_lt_Some. Qed.

Lemma like_output_app a l o d :
  like_output a o = Ok d → like_output (a ++ l) o = Ok d.
Proof.
  intros H. pose proof (like_output_lt _ _ _ H) as Hlt.
  unfold like_output in *. by rewrite lookup_app_l.
Qed.

Lemma create_fake_op_shape (a : list node) (o : nat * nat) k name b d :
  like_output a o = Ok d →
  ∃ news fake (rest : list (nat * nat)),
    create_fake_op a o k name b = Ok (a ++ news ++ [fake], length a + length news)
    ∧ Forall (λ c, inputs c = [] ∧ type_name c = "Constant") news
    ∧ type_name fake = fake_op_type k
    ∧ inputs fake = o :: rest
    ∧ Forall (λ r : nat * nat, (length a ≤ r.1)%nat) rest.
Proof.
  intros Hd. destruct k as [q|q]; cbn.
  - unfold _create_fake_quantize, _create_constant, new_node, opset_fake_quantize.
    cbn. rewrite <- !app_assoc. rewrite (like_output_app _ _ _ _ Hd). cbn.
    unfold new_node. rewrite <- !app_assoc. cbn. rewrite !length_app. cbn.
    eexists [_; _; _; _], _, _. split; [|split; [|split; [|split]]].
    + cbn. first [reflexivity | do 2 f_equal; lia].
    + repeat constructor.
    + done.
    + done.
    + repeat constructor; cbn; lia.
  - unfold _create_fake_convert, _create_constant, new_node, opset_fake_convert.
    cbn. rewrite <- !app_assoc. rewrite (like_output_app _ _ _ _ Hd). cbn.
    unfold new_node. rewrite <- !app_assoc. cbn. rewrite !length_app. cbn.
    eexists [_; _], _, _. split; [|split; [|split; [|split]]].
    + cbn. first [reflexivity | do 2 f_equal; lia].
    + repeat constructor.
    + done.
    + done.
    + repeat constructor; cbn; lia.
Qed.

(** ** One weight-targeted insertion *)

Lemma input_element_type_of_source a q o d :
  get_source_output a q = Ok o → like_output a o = Ok d →
  input_element_type a q = Ok (element_type d).
Proof.
  intros Hq (nd & x & Hnd & Hx & ->)%like_output_Ok.
  unfold input_element_type, output_element_type. rewrite Hq. cbn.
  rewrite Hnd. cbn. by rewrite Hx.
Qed.

Lemma insert_fake_op_weights_unfold t k mp a tn o d :
  target_type t = OPERATION_WITH_WEIGHTS →
  mp !! target_node_name t = Some tn →
  get_source_output a (tn, port_id t) = Ok o →
  like_output a o = Ok d →
  ∃ name b,
    insert_fake_op t k mp a
    = match last_consumer_of_type a o (fake_op_type k) with
      | Some f => Ok (replace_source_output a (tn, port_id t) (f, 0))
      | None =>
          '(a', f) ← create_fake_op a o k name b;
          Ok (replace_source_output a' (tn, port_id t) (f, 0))
      end.
Proof.
  intros Ht Hmp Ho Hd.
  pose proof (input_element_type_of_source _ _ _ _ Ho Hd) as Hty.
  destruct k as [q|q]; cbn;
    [unfold _insert_fake_quantize_op | unfold _insert_fake_convert_op];
    unfold getitem; rewrite Hmp; cbn; rewrite Ht; cbn;
    rewrite (get_source_output_node_input _ _ _ _ Ho); cbn;
    rewrite Ho; cbn; rewrite ?Hty; cbn.
  - destruct (last_consumer_of_type a o "FakeQuantize"); cbn.
    + by exists "", false.
    + by eexists _, _.
  - destruct (last_consumer_of_type a o "FakeConvert"); cbn.
    + by exists "", false.
    + by eexists _, _.
Qed.

Lemma same_but_inputs_refl a : same_but_inputs a a.
Proof. intros i nd Hnd. exists (inputs nd). by destruct nd. Qed.

Lemma same_but_inputs_trans a b c :
  same_but_inputs a b → same_but_inputs b c → same_but_inputs a c.
Proof.
  intros Hab Hbc i nd Hnd. destruct (Hab i nd Hnd) as [ins Hb].
  destruct (Hbc _ _ Hb) as [ins' Hc]. exists ins'. by rewrite Hc.
Qed.

Lemma same_but_inputs_replace a q o : same_but_inputs a (replace_source_output a q o).
Proof.
  intros i nd Hnd. destruct (decide (i = q.1)) as [->|Hne].
  - rewrite lookup_replace_source_output_eq, Hnd. cbn. eauto.
  - rewrite lookup_replace_source_output_ne by done. exists (inputs nd). by destruct nd.
Qed.

Lemma same_but_inputs_app a l : same_but_inputs a (a ++ l).
Proof.
  intros i nd Hnd. exists (inputs nd). rewrite (lookup_app_l_Some _ _ _ _ Hnd).
  by destruct nd.
Qed.

Lemma same_but_inputs_length a a' : same_but_inputs a a' → length a ≤ length a'.
Proof.
  intros H. destruct (decide (length a ≤ length a')) as [|Hgt]; [done|].
  destruct (lookup_lt_is_Some_2 a (length a')) as [nd Hnd]; [lia|].
  destruct (H _ _ Hnd) as [ins Hins]. apply lookup_lt_Some in Hins. lia.
Qed.

Lemma same_but_inputs_type a a' i :
  same_but_inputs a a' → i < length a → node_type_name a' i = node_type_name a i.
Proof.
  intros H Hlt. destruct (lookup_lt_is_Some_2 a i Hlt) as [nd Hnd].
  destruct (H _ _ Hnd) as [ins Hins]. unfold node_type_name. by rewrite Hnd, Hins.
Qed.

Lemma same_but_inputs_like_output a a' o d :
  same_but_inputs a a' → like_output a o = Ok d → like_output a' o = Ok d.
Proof.
  intros H (nd & x & Hnd & Hx & ->)%like_output_Ok.
  destruct (H _ _ Hnd) as [ins Hins]. unfold like_output. rewrite Hins. cbn.
  by rewrite Hx.
Qed.

Lemma fake_op_type_not_constant k :
  fake_op_type k ≠ "Constant" ∧ fake_op_type k ≠ "".
Proof. by destruct k. Qed.

(** One weight-targeted insertion on a port that reads [o], owned by a
    node that is not itself of the inserted type: the port ends up reading
    the last consumer of that type, which is reused when there is one and
    created otherwise. *)
Lemma weights_insertion_step t k mp (a : list node) tn (o : nat * nat) d :
  let ty := fake_op_type k in
  target_type t = OPERATION_WITH_WEIGHTS →
  mp !! target_node_name t = Some tn →
  get_source_output a (tn, port_id t) = Ok o →
  like_output a o = Ok d →
  node_type_name a tn ≠ ty →
  ∃ a' f,
    insert_fake_op t k mp a = Ok a'
    ∧ same_but_inputs a a'
    ∧ last (consumers_of_type a' o ty) = Some f
    ∧ get_source_output a' (tn, port_id t) = Ok (f, 0)
    ∧ (∀ q, q ≠ (tn, port_id t) → q.1 < length a →
         get_source_output a' q = get_source_output a q)
    ∧ ((consumers_of_type a o ty ≠ []
        ∧ consumers_of_type a' o ty = consumers_of_type a o ty
        ∧ length a' = length a)
       ∨ (consumers_of_type a o ty = []
          ∧ consumers_of_type a' o ty = [f]
          ∧ length a ≤ f
          ∧ get_source_output a' (f, 0) = Ok o
          ∧ (∀ i, length a ≤ i → node_type_name a' i = ty → i = f))).
Proof.
  intros ty Ht Hmp Ho Hd Htn.
  destruct (insert_fake_op_weights_unfold t k mp a tn o d Ht Hmp Ho Hd)
    as (name & b & Hrun).
  pose proof (get_source_output_lt _ _ _ Ho) as Htnlt. cbn in Htnlt.
  unfold last_consumer_of_type in Hrun. fold ty in Hrun.
  destruct (last (consumers_of_type a o ty)) as [f|] eqn:Hlast.
  - exists (replace_source_output a (tn, port_id t) (f, 0)), f.
    assert (Hsame : consumers_of_type (replace_source_output a (tn, port_id t) (f, 0)) o ty
                    = consumers_of_type a o ty)
      by by apply consumers_of_type_replace_source_output.
    split; [done|]. split; [apply same_but_inputs_replace|].
    split; [by rewrite Hsame|]. split; [by eapply get_source_output_replace_eq|].
    split; [intros q Hq _; by apply get_source_output_replace_ne|].
    left. split; [|split; [done|apply length_replace_source_output]].
    intros Hnil. by rewrite Hnil in Hlast.
  - apply last_None in Hlast.
    destruct (create_fake_op_shape a o k name b d Hd)
      as (news & fake & rest & Hcreate & Hnews & Hfake & Hin & Hrest).
    rewrite Hcreate in Hrun. cbn in Hrun.
    set (a1 := a ++ news ++ [fake]) in *.
    set (f := length a + length news) in *.
    assert (Ha1f : a1 !! f = Some fake).
    { unfold a1, f. rewrite lookup_app_r by lia. rewrite lookup_app_r by lia.
      by replace (length a + length news - length a - length news) with 0 by lia. }
    assert (Hcons1 : consumers_of_type a1 o ty = [f]).
    { unfold a1, f. rewrite (consumers_of_type_created a o ty news fake rest); try done.
      - by rewrite Hlast.
      - by eapply like_output_lt.
      - eapply Forall_impl; [exact Hnews|]. by intros c [? _]. }
    assert (Hcons : consumers_of_type (replace_source_output a1 (tn, port_id t) (f, 0)) o ty
                    = [f]).
    { rewrite consumers_of_type_replace_source_output; [done|].
      cbn. unfold a1. by rewrite node_type_name_app_l. }
    exists (replace_source_output a1 (tn, port_id t) (f, 0)), f.
    split; [done|].
    split. { eapply same_but_inputs_trans; [apply same_but_inputs_app|].
             apply same_but_inputs_replace. }
    split; [by rewrite Hcons|].
    split. { eapply get_source_output_replace_eq. by apply get_source_output_app. }
    split. { intros q Hq Hqlt. rewrite get_source_output_replace_ne by done.
             by apply get_source_output_app_lt. }
    right. split; [done|]. split; [done|]. split; [unfold f; lia|]. split.
    + rewrite get_source_output_replace_ne.
      * apply get_source_output_Ok. exists fake. cbn. by rewrite Hin.
      * intros [= ? _]. unfold f in *. lia.
    + intros i Hi Hity. rewrite node_type_name_replace_source_output in Hity.
      destruct (fake_op_type_not_constant k) as [Hc He]. fold ty in Hc, He.
      unfold node_type_name, a1 in Hity. rewrite lookup_app_r in Hity by done.
      destruct (decide (i - length a < length news)) as [Hlt|Hge].
      * rewrite lookup_app_l in Hity by done.
        destruct (news !! (i - length a)) as [c|] eqn:Hc'; [|done].
        apply list_elem_of_lookup_2 in Hc'.
        apply (proj1 (Forall_forall _ _) Hnews) in Hc' as [_ Hcty]. congruence.
      * rewrite lookup_app_r in Hity by lia.
        destruct (decide (i - length a - length news = 0)) as [H0|Hn0].
        -- unfold f. lia.
        -- destruct (i - length a - length news) as [|j]; [done|]. by cbn in Hity.
Qed.

(** ** A batch of weight-targeted insertions on one shared output *)

Lemma node_type_name_ge a i : length a ≤ i → node_type_name a i = "".
Proof. intros Hge. unfold node_type_name. by rewrite lookup_ge_None_2. Qed.

Lemma addressed_port_resolved mp t tn :
  mp !! target_node_name t = Some tn → addressed_port mp t = (tn, port_id t).
Proof. intros H. unfold addressed_port. by rewrite H. Qed.

Lemma weights_batch_loop mp (a0 : list node) (o : nat * nat) d ty cmds :
  like_output a0 o = Ok d →
  ∀ a handled,
    batch_invariant a0 a o ty handled →
    Forall (shares_output mp a0 a o ty) cmds →
    NoDup (addressed_port mp <$> (fst <$> cmds)) →
    (∀ c, c ∈ cmds → addressed_port mp c.1 ∉ handled) →
    ∃ a', insert_batch mp cmds a = Ok a'
          ∧ batch_invariant a0 a' o ty (handled ++ (addressed_port mp <$> (fst <$> cmds))).
Proof.
  intros Hd. induction cmds as [|c cmds IH]; intros a handled Hinv Hall Hdup Hfresh.
  { exists a. split; [done|]. by rewrite app_nil_r. }
  destruct Hinv as (Hsame & Hhandled & Hphase & Hnew).
  apply Forall_cons in Hall as [(Ht & Hk & tn & Hmp & Htn & Hsrc & Hnot) Hall].
  rewrite !fmap_cons in Hdup. apply NoDup_cons in Hdup as [Hc Hdup].
  rewrite (addressed_port_resolved _ _ _ Hmp) in Hc.
  pose proof (same_but_inputs_length _ _ Hsame) as Hlen.
  destruct (fake_op_type_not_constant c.2) as [_ Hne]. rewrite Hk in Hne.
  destruct (weights_insertion_step c.1 c.2 mp a tn o d Ht Hmp Hsrc)
    as (a1 & f & Hrun & Hsame1 & Hlast1 & Hread1 & Hframe & Hcase).
  { by eapply same_but_inputs_like_output. }
  { rewrite Hk. by rewrite (same_but_inputs_type a0 a). }
  rewrite Hk in Hlast1, Hcase.
  assert (Hinv1 : batch_invariant a0 a1 o ty (handled ++ [(tn, port_id c.1)])).
  { split; [by eapply same_but_inputs_trans|]. split; [|split].
    - intros q [Hq|Hq%list_elem_of_singleton]%elem_of_app; [|subst q; eauto].
      destruct (Hhandled q Hq) as (g & Hg & Hqg).
      assert (Hqne : q ≠ (tn, port_id c.1)).
      { intros ->. apply (Hfresh c); [left|].
        by rewrite (addressed_port_resolved _ _ _ Hmp). }
      pose proof (get_source_output_lt _ _ _ Hqg) as Hqlt.
      destruct Hcase as [(_ & Heq & _)|(Hnil & _)].
      + exists g. rewrite Heq. split; [done|]. by rewrite Hframe.
      + by rewrite Hnil in Hg.
    - right. intros Hnil. by rewrite Hnil in Hlast1.
    - intros i Hi Hity.
      destruct Hcase as [(Hnn & Heq & Hleneq)|(Hnil & Hone & Hf & Hfo & Honly)].
      + assert (Hilt : i < length a).
        { destruct (decide (i < length a)); [done|].
          rewrite node_type_name_ge in Hity by lia. congruence. }
        rewrite (same_but_inputs_type a a1) in Hity by done.
        destruct (Hnew i Hi Hity) as [Hli Hio].
        rewrite Heq. split; [done|]. rewrite Hframe; [done| |done].
        intros [= -> _]. lia.
      + destruct Hphase as [Hl0|Hnn]; [|done].
        assert (i = f) as -> by (apply Honly; [lia|done]).
        by rewrite Hone. }
  assert (Hothers : ∀ c', c' ∈ cmds → addressed_port mp c'.1 ≠ (tn, port_id c.1)).
  { intros c' Hc' Heq. apply Hc. rewrite <- Heq.
    apply list_elem_of_fmap. exists c'.1. split; [done|].
    apply list_elem_of_fmap. eauto. }
  destruct (IH a1 (handled ++ [(tn, port_id c.1)]) Hinv1) as (a' & Hrest & Hinv').
  - apply Forall_forall. intros c' Hc'.
    pose proof (proj1 (Forall_forall _ _) Hall c' Hc')
      as (Ht' & Hk' & tn' & Hmp' & Htn' & Hsrc' & Hnot').
    split; [done|]. split; [done|]. exists tn'. repeat split; try done.
    rewrite Hframe; [done| |cbn; lia].
    rewrite <- (addressed_port_resolved _ _ _ Hmp'). by apply Hothers.
  - done.
  - intros c' Hc' [Hin|Hin%list_elem_of_singleton]%elem_of_app.
    + apply (Hfresh c'); [by right|done].
    + by apply (Hothers c').
  - exists a'. split.
    + unfold insert_batch in *. cbn. rewrite Hrun. exact Hrest.
    + rewrite !fmap_cons, (addressed_port_resolved _ _ _ Hmp).
      by rewrite <- app_assoc in Hinv'.
Qed.

Lemma for_each_fmap {S X Y : Type} (body : Y → S → result S) (g : X → Y)
    (xs : list X) (s : S) :
  for_each body (g <$> xs) s = for_each (λ x, body (g x)) xs s.
Proof.
  revert s. induction xs as [|x xs IH]; intros s; [done|].
  cbn. destruct (body (g x) s); cbn; [apply IH|done].
Qed.

Lemma apply_insertion_batch_insert_batch m b :
  apply_insertion_batch m b
  = (a ← insert_batch (_get_name_to_node_mapping m) (batch_commands b) (arena m);
     Ok (set_arena m a)).
Proof.
  destruct b as [l|l]; cbn; unfold insert_batch; by rewrite for_each_fmap.
Qed.

Lemma batch_type_not_empty b : batch_type b ≠ "".
Proof. by destruct b. Qed.

(** C2. A batch of quantizer insertions (of convert insertions) on
    weight points whose addressed input ports are distinct and read one
    source output [o]: the applier returns; among the nodes it appends at
    most one is a FakeQuantize (FakeConvert) node; such a node reads [o] and
    every addressed port reads it afterwards; in any case all addressed
    ports end up reading one and the same node of that type. *)
Theorem weight_sharing_batch_creates_at_most_one
    (m : model) (b : insertion_batch) (o : nat * nat) (d : tensor_desc) :
  let a := arena m in
  let mp := _get_name_to_node_mapping m in
  let ty := batch_type b in
  let ports := addressed_port mp <$> (fst <$> batch_commands b) in
  like_output a o = Ok d →
  Forall (shares_output mp a a o ty) (batch_commands b) →
  NoDup ports →
  ∃ m',
    apply_insertion_batch m b = Ok m'
    ∧ same_but_inputs a (arena m')
    ∧ (∀ i j, length a ≤ i → length a ≤ j →
         node_type_name (arena m') i = ty → node_type_name (arena m') j = ty → i = j)
    ∧ (∀ i, length a ≤ i → node_type_name (arena m') i = ty →
         get_source_output (arena m') (i, 0) = Ok o
         ∧ ∀ q, q ∈ ports → get_source_output (arena m') q = Ok (i, 0))
    ∧ (ports ≠ [] →
       ∃ f, node_type_name (arena m') f = ty
            ∧ ∀ q, q ∈ ports → get_source_output (arena m') q = Ok (f, 0))
    ∧ parameters m' = parameters m
    ∧ results m' = results m
    ∧ sinks m' = sinks m.
Proof.
  intros a mp ty ports Hd Hall Hdup.
  destruct (weights_batch_loop mp a o d ty (batch_commands b) Hd a [])
    as (a' & Hrun & Hsame & Hhandled & _ & Hnew); try done.
  { split; [apply same_but_inputs_refl|]. split; [|split].
    - by intros q Hq%elem_of_nil.
    - by left.
    - intros i Hi Hity. rewrite node_type_name_ge in Hity by done.
      by destruct (batch_type_not_empty b). }
  { intros c _ Hc. by apply elem_of_nil in Hc. }
  rewrite app_nil_l in Hhandled. fold ports in Hhandled.
  exists (set_arena m a'). split.
  { rewrite apply_insertion_batch_insert_batch. fold mp a. by rewrite Hrun. }
  cbn [arena set_arena]. split; [done|]. split; [|split; [|split]].
  - intros i j Hi Hj Hity Hjty.
    destruct (Hnew i Hi Hity) as [Hli _], (Hnew j Hj Hjty) as [Hlj _]. congruence.
  - intros i Hi Hity. destruct (Hnew i Hi Hity) as [Hli Hio]. split; [done|].
    intros q Hq. destruct (Hhandled q Hq) as (f & Hf & Hqf). congruence.
  - intros Hports. destruct ports as [|q0 ports'] eqn:Eports; [done|].
    destruct (Hhandled q0) as (f & Hf & Hq0); [left|]. exists f. split.
    + apply last_Some_elem_of in Hf. by apply list_elem_of_filter in Hf as [? _].
    + intros q Hq. destruct (Hhandled q Hq) as (g & Hg & Hqg). congruence.
  - done.
Qed.

Lemma weight_sharing_batch_creates_at_most_one_witness :
  let m := shared_weight_model in
  let a := arena m in
  let o := (1, 0) in
  let ports := [(2, 1); (3, 1)] in
  (∃ m',
     apply_insertion_batch m quantize_both = Ok m'
     ∧ same_but_inputs a (arena m')
     ∧ (∀ i j, length a ≤ i → length a ≤ j →
          node_type_name (arena m') i = "FakeQuantize" →
          node_type_name (arena m') j = "FakeQuantize" → i = j)
     ∧ (∀ i, length a ≤ i → node_type_name (arena m') i = "FakeQuantize" →
          get_source_output (arena m') (i, 0) = Ok o
          ∧ ∀ q, q ∈ ports → get_source_output (arena m') q = Ok (i, 0))
     ∧ (ports ≠ [] →
        ∃ f, node_type_name (arena m') f = "FakeQuantize"
             ∧ ∀ q, q ∈ ports → get_source_output (arena m') q = Ok (f, 0))
     ∧ parameters m' = parameters m
     ∧ results m' = results m
     ∧ sinks m' = sinks m)
  ∧ (∃ m',
       apply_insertion_batch m convert_both = Ok m'
       ∧ same_but_inputs a (arena m')
       ∧ (∀ i j, length a ≤ i → length a ≤ j →
            node_type_name (arena m') i = "FakeConvert" →
            node_type_name (arena m') j = "FakeConvert" → i = j)
       ∧ (∀ i, length a ≤ i → node_type_name (arena m') i = "FakeConvert" →
            get_source_output (arena m') (i, 0) = Ok o
            ∧ ∀ q, q ∈ ports → get_source_output (arena m') q = Ok (i, 0))
       ∧ (ports ≠ [] →
          ∃ f, node_type_name (arena m') f = "FakeConvert"
               ∧ ∀ q, q ∈ ports → get_source_output (arena m') q = Ok (f, 0))
       ∧ parameters m' = parameters m
       ∧ results m' = results m
       ∧ sinks m' = sinks m).
Proof.
  split.
  - apply (weight_sharing_batch_creates_at_most_one shared_weight_model quantize_both
             (1, 0) (mk_tensor_desc f32 [4] ∅)).
    + reflexivity.
    + apply Forall_cons_2; [|apply Forall_cons_2; [|apply Forall_nil_2]].
      * split; [done|]. split; [done|]. exists 2.
        split; [reflexivity|]. split; [cbn; lia|]. split; [reflexivity|by vm_compute].
      * split; [done|]. split; [done|]. exists 3.
        split; [reflexivity|]. split; [cbn; lia|]. split; [reflexivity|by vm_compute].
    + apply (bool_decide_unpack _). by vm_compute.
  - apply (weight_sharing_batch_creates_at_most_one shared_weight_model convert_both
             (1, 0) (mk_tensor_desc f32 [4] ∅)).
    + reflexivity.
    + apply Forall_cons_2; [|apply Forall_cons_2; [|apply Forall_nil_2]].
      * split; [done|]. split; [done|]. exists 2.
        split; [reflexivity|]. split; [cbn; lia|]. split; [reflexivity|by vm_compute].
      * split; [done|]. split; [done|]. exists 3.
        split; [reflexivity|]. split; [cbn; lia|]. split; [reflexivity|by vm_compute].
    + apply (bool_decide_unpack _). by vm_compute.
Defined.

(** The batch on the example: one FakeQuantize node (index 12) is
    appended after its four constants, and both weight ports read it. *)
Example quantize_both_scenario :
  ∃ m', apply_insertion_batch shared_weight_model quantize_both = Ok m'
        ∧ length (arena m') = 13
        ∧ node_type_name (arena m') 12 = "FakeQuantize"
        ∧ get_source_output (arena m') (12, 0) = Ok (1, 0)
        ∧ get_source_output (arena m') (2, 1) = Ok (12, 0)
        ∧ get_source_output (arena m') (3, 1) = Ok (12, 0).
Proof. eexists. split; [by vm_compute|]. repeat split; by vm_compute. Qed.

(** ** Node removal *)

Lemma same_but_inputs_rebind a ps o : same_but_inputs a (rebind a ps o).
Proof.
  revert a. induction ps as [|p ps IH]; intros a; [apply same_but_inputs_refl|].
  rewrite rebind_cons. eapply same_but_inputs_trans; [apply same_but_inputs_replace|].
  apply IH.
Qed.

Lemma rewire_consumers_rebind a o o' :
  rewire_consumers a o o' = rebind a (get_target_inputs a o) o'.
Proof. reflexivity. Qed.

Lemma get_source_output_rewire_hit a o o' q :
  get_source_output a q = Ok o → get_source_output (rewire_consumers a o o') q = Ok o'.
Proof.
  intros Hq. rewrite rewire_consumers_rebind.
  eapply get_source_output_rebind_in; [|exact Hq]. by apply elem_of_get_target_inputs.
Qed.

Lemma get_source_output_rewire_miss a o o' q :
  get_source_output a q ≠ Ok o →
  get_source_output (rewire_consumers a o o') q = get_source_output a q.
Proof.
  intros Hq. rewrite rewire_consumers_rebind.
  apply get_source_output_rebind_notin. by rewrite elem_of_get_target_inputs.
Qed.

Lemma rewire_outputs_sources (a : list node) r ks (src : nat * nat) q s :
  get_source_output (rewire_outputs a r ks src) q = Ok s →
  get_source_output a q = Ok s
  ∨ (s = src ∧ ∃ k, k ∈ ks ∧ get_source_output a q = Ok (r, k)).
Proof.
  revert a. induction ks as [|k ks IH]; intros a Hq; [by left|].
  cbn in Hq. apply IH in Hq as [Hq|(-> & k' & Hk' & Hq)].
  - destruct (decide (get_source_output a q = Ok (r, k))) as [Heq|Hne].
    + rewrite (get_source_output_rewire_hit _ _ _ _ Heq) in Hq. simplify_eq.
      right. split; [done|]. exists k. split; [left|done].
    + rewrite get_source_output_rewire_miss in Hq by done. by left.
  - destruct (decide (get_source_output a q = Ok (r, k))) as [Heq|Hne].
    + right. split; [done|]. exists k. split; [left|done].
    + rewrite get_source_output_rewire_miss in Hq by done.
      right. split; [done|]. exists k'. split; [by right|done].
Qed.

Lemma rewire_outputs_other (a : list node) r ks (src : nat * nat) q s :
  get_source_output a q = Ok s → s.1 ≠ r →
  get_source_output (rewire_outputs a r ks src) q = Ok s.
Proof.
  revert a. induction ks as [|k ks IH]; intros a Hq Hs; [done|].
  cbn. apply IH; [|done]. rewrite get_source_output_rewire_miss; [done|].
  rewrite Hq. intros [= ->]. by apply Hs.
Qed.

Lemma rewire_outputs_hit (a : list node) r ks (src : nat * nat) q k :
  src.1 ≠ r → k ∈ ks → get_source_output a q = Ok (r, k) →
  get_source_output (rewire_outputs a r ks src) q = Ok src.
Proof.
  intros Hsrc. revert a. induction ks as [|k' ks IH]; intros a Hk Hq.
  { by apply elem_of_nil in Hk. }
  cbn. destruct (decide (k = k')) as [->|Hne].
  - apply rewire_outputs_other; [|done]. by apply get_source_output_rewire_hit.
  - apply elem_of_cons in Hk as [?|Hk]; [done|]. apply IH; [done|].
    rewrite get_source_output_rewire_miss; [done|]. rewrite Hq. by intros [= ?].
Qed.

Lemma same_but_inputs_rewire_outputs a r ks src :
  same_but_inputs a (rewire_outputs a r ks src).
Proof.
  revert a. induction ks as [|k ks IH]; intros a; [apply same_but_inputs_refl|].
  cbn. eapply same_but_inputs_trans; [|apply IH].
  rewrite rewire_consumers_rebind. apply same_but_inputs_rebind.
Qed.

Lemma length_rewire_outputs a r ks src : length (rewire_outputs a r ks src) = length a.
Proof.
  revert a. induction ks as [|k ks IH]; intros a; [done|].
  change (rewire_outputs a r (k :: ks) src)
    with (rewire_outputs (rewire_consumers a (r, k) src) r ks src).
  rewrite IH, rewire_consumers_rebind. apply length_rebind.
Qed.

Lemma fq_node_removing_step_inv t a mp a' mp' :
  fq_node_removing_step t (a, mp) = Ok (a', mp') →
  ∃ r src,
    mp !! target_node_name t = Some r
    ∧ get_source_output a (r, 0) = Ok src
    ∧ mp' = delete (target_node_name t) mp
    ∧ a' = rewire_outputs a r (seq 0 (n_outputs a r)) src.
Proof.
  unfold fq_node_removing_step, getitem, input_value. intros H.
  destruct (mp !! target_node_name t) as [r|] eqn:Hr; cbn in H; [|done].
  destruct (get_source_output a (r, 0)) as [src|] eqn:Hsrc; cbn in H; [|done].
  exists r, src. by simplify_eq.
Qed.

(** The members of the backward closure are the starting nodes and nodes
    that some port reads. *)
Lemma reach_members a fuel (s : gset nat) j :
  j ∈ reach a fuel s → j ∈ s ∨ read_somewhere a j.
Proof.
  revert s. induction fuel as [|fuel IH]; intros s Hj; [by left|].
  cbn in Hj. apply IH in Hj as [Hj|Hj]; [|by right].
  apply elem_of_union in Hj as [Hj|Hj]; [by left|]. right.
  apply elem_of_list_to_set, list_elem_of_bind in Hj as (y & Hj & _).
  unfold producers in Hj. destruct (a !! y) as [nd|] eqn:Hy; [|by apply elem_of_nil in Hj].
  apply list_elem_of_fmap in Hj as (src & -> & Hsrc).
  apply list_elem_of_lookup in Hsrc as [p Hp].
  exists (y, p), src. split; [|done]. apply get_source_output_Ok. eauto.
Qed.

Lemma dict_of_items_lookup_None {V : Type} (items : list (string * V)) (key : string) :
  (∀ kv, kv ∈ items → kv.1 ≠ key) → dict_of_items items !! key = None.
Proof.
  unfold dict_of_items.
  assert (H : ∀ (d : gmap string V), d !! key = None →
              (∀ kv, kv ∈ items → kv.1 ≠ key) →
              foldl (λ d kv, <[kv.1 := kv.2]> d) d items !! key = None).
  { induction items as [|kv items IH]; intros d Hd Hitems; [done|].
    cbn. apply IH.
    - rewrite lookup_insert_ne; [done|]. apply Hitems. left.
    - intros kv' Hkv'. apply Hitems. by right. }
  intros Hitems. by apply H.
Qed.

Lemma for_each_cons {S X : Type} (body : X → S → result S) (x : X) (xs : list X)
    (s : S) :
  for_each body (x :: xs) s = (s' ← body x s; for_each body xs s').
Proof. reflexivity. Qed.

(** What any run of removal steps preserves: the nodes but for their
    inputs, the length of the arena, and the set of outputs that are read,
    which can only shrink; the name index only loses entries. *)
Lemma removal_loop_preserves ts :
  ∀ a (mp : gmap string nat) a' mp',
    for_each fq_node_removing_step ts (a, mp) = Ok (a', mp') →
    same_but_inputs a a'
    ∧ length a' = length a
    ∧ (∀ q s, get_source_output a' q = Ok s → ∃ q', get_source_output a q' = Ok s)
    ∧ (∀ k v, mp' !! k = Some v → mp !! k = Some v).
Proof.
  induction ts as [|t ts IH]; intros a mp a' mp' H.
  { cbn in H. simplify_eq. split; [apply same_but_inputs_refl|]. eauto. }
  rewrite for_each_cons in H.
  destruct (fq_node_removing_step t (a, mp)) as [[a1 mp1]|] eqn:Hstep;
    [|done]. change (for_each fq_node_removing_step ts (a1, mp1) = Ok (a', mp')) in H.
  apply fq_node_removing_step_inv in Hstep as (r & src & Hr & Hsrc & -> & ->).
  apply IH in H as (Hsame & Hlen & Hreads & Hmp).
  split; [|split; [|split]].
  - eapply same_but_inputs_trans; [apply same_but_inputs_rewire_outputs|done].
  - by rewrite Hlen, length_rewire_outputs.
  - intros q s Hq. apply Hreads in Hq as [q' Hq'].
    apply rewire_outputs_sources in Hq' as [Hq'|(-> & _)]; eauto.
  - intros k v Hk. apply Hmp in Hk. by apply lookup_delete_Some in Hk as [_ ?].
Qed.

(** A port whose source node is not removed keeps its source. *)
Lemma removal_loop_keeps_port ts q (s : nat * nat) :
  ∀ a (mp : gmap string nat) a' mp',
    for_each fq_node_removing_step ts (a, mp) = Ok (a', mp') →
    Forall (λ t, mp !! target_node_name t ≠ Some s.1) ts →
    get_source_output a q = Ok s →
    get_source_output a' q = Ok s.
Proof.
  induction ts as [|t ts IH]; intros a mp a' mp' H Hts Hq.
  { cbn in H. by simplify_eq. }
  rewrite for_each_cons in H.
  destruct (fq_node_removing_step t (a, mp)) as [[a1 mp1]|] eqn:Hstep;
    [|done]. change (for_each fq_node_removing_step ts (a1, mp1) = Ok (a', mp')) in H.
  apply fq_node_removing_step_inv in Hstep as (r & src & Hr & Hsrc & -> & ->).
  apply Forall_cons in Hts as [Ht Hts].
  eapply IH; [exact H| |].
  - eapply Forall_impl; [exact Hts|]. intros t' Ht' Hdel. apply Ht'.
    by apply lookup_delete_Some in Hdel as [_ ?].
  - apply rewire_outputs_other; [done|]. intros Heq. by rewrite Heq in Ht.
Qed.

Lemma for_each_app {S X : Type} (body : X → S → result S) (xs ys : list X) (s : S) :
  for_each body (xs ++ ys) s = (s' ← for_each body xs s; for_each body ys s').
Proof.
  revert s. induction xs as [|x xs IH]; intros s; [done|].
  cbn. destruct (body x s); cbn; [apply IH|done].
Qed.

Lemma same_but_inputs_name a a' i :
  same_but_inputs a a' → i < length a → node_name a' i = node_name a i.
Proof.
  intros H Hlt. destruct (lookup_lt_is_Some_2 a i Hlt) as [nd Hnd].
  destruct (H _ _ Hnd) as [ins Hins]. unfold node_name. by rewrite Hnd, Hins.
Qed.

Lemma same_but_inputs_n_outputs a a' i :
  same_but_inputs a a' → i < length a → n_outputs a' i = n_outputs a i.
Proof.
  intros H Hlt. destruct (lookup_lt_is_Some_2 a i Hlt) as [nd Hnd].
  destruct (H _ _ Hnd) as [ins Hins]. unfold n_outputs. by rewrite Hnd, Hins.
Qed.

(** An index built from a model has no entry for a name that no reached
    node bears. *)
Lemma name_to_node_mapping_None m n :
  (∀ op, op ∈ get_ops m → node_name (arena m) op ≠ n) →
  _get_name_to_node_mapping m !! n = None.
Proof.
  intros H. unfold _get_name_to_node_mapping. apply dict_of_items_lookup_None.
  intros kv (op & -> & Hop)%list_elem_of_fmap. by apply H.
Qed.

Lemma elem_of_get_ops m op :
  op ∈ get_ops m →
  op < length (arena m) ∧ (op ∈ roots m ∨ read_somewhere (arena m) op).
Proof.
  unfold get_ops. intros [Hlive Hseq]%list_elem_of_filter.
  apply elem_of_seq in Hseq. split; [lia|].
  apply reach_members in Hlive as [Hr|Hr]; [left|by right].
  by apply elem_of_list_to_set in Hr.
Qed.

(** The removal of a node that is not a terminal of the model leaves no
    port reading it, so the model no longer reaches it and the next name
    index has no entry for its name. *)
Lemma removal_drops_name m before t after m' i (x : nat * nat) :
  let a := arena m in
  let mp := _get_name_to_node_mapping m in
  let n := target_node_name t in
  _apply_fq_nodes_removing_transformation m (before ++ t :: after) = Ok m' →
  mp !! n = Some i →
  (∀ j, j < length a → node_name a j = n → j = i) →
  i ∉ roots m →
  (∀ q k, get_source_output a q = Ok (i, k) → k < n_outputs a i) →
  get_source_output a (i, 0) = Ok x →
  x.1 ≠ i →
  Forall (λ t', mp !! target_node_name t' ≠ Some x.1) before →
  _get_name_to_node_mapping m' !! n = None
  ∧ roots m' = roots m
  ∧ ¬ read_somewhere (arena m') i.
Proof.
  intros a mp n Hrun Hi Huniq Hroot Hwf Hx Hxi Hbefore.
  unfold _apply_fq_nodes_removing_transformation in Hrun. fold a mp in Hrun.
  destruct (for_each fq_node_removing_step (before ++ t :: after) (a, mp))
    as [[a3 mp3]|] eqn:Hloop; cbn in Hrun; [|done].
  injection Hrun as <-.
  rewrite for_each_app in Hloop.
  destruct (for_each fq_node_removing_step before (a, mp)) as [[a1 mp1]|] eqn:Hb;
    [|done].
  change (for_each fq_node_removing_step (t :: after) (a1, mp1) = Ok (a3, mp3)) in Hloop.
  rewrite for_each_cons in Hloop.
  destruct (fq_node_removing_step t (a1, mp1)) as [[a2 mp2]|] eqn:Hstep; [|done].
  change (for_each fq_node_removing_step after (a2, mp2) = Ok (a3, mp3)) in Hloop.
  pose proof (removal_loop_keeps_port _ _ _ _ _ _ _ Hb Hbefore Hx) as Hx1.
  apply removal_loop_preserves in Hb as (Hsame1 & Hlen1 & Hreads1 & Hmp1).
  apply fq_node_removing_step_inv in Hstep as (r & src & Hr & Hsrc & -> & ->).
  apply Hmp1 in Hr. fold n in Hr. assert (r = i) as -> by congruence.
  assert (src = x) as -> by congruence.
  pose proof (get_source_output_lt _ _ _ Hx) as Hilt. cbn in Hilt.
  assert (Hfree2 : ¬ read_somewhere
                       (rewire_outputs a1 i (seq 0 (n_outputs a1 i)) x) i).
  { intros (q & s & Hq & Hs).
    apply rewire_outputs_sources in Hq as Hq'. destruct Hq' as [Hq1|(-> & _)]; [|done].
    destruct s as [s1 k]. cbn in Hs. subst s1.
    destruct (Hreads1 _ _ Hq1) as [q' Hq'].
    apply Hwf in Hq'.
    rewrite (rewire_outputs_hit a1 i _ x q k) in Hq; [by simplify_eq|done| |done].
    apply elem_of_seq. rewrite (same_but_inputs_n_outputs a a1) by done. lia. }
  apply removal_loop_preserves in Hloop as (Hsame3 & Hlen3 & Hreads3 & _).
  rewrite length_rewire_outputs in Hlen3.
  assert (Hfree3 : ¬ read_somewhere a3 i).
  { intros (q & s & Hq & Hs). apply Hfree2.
    destruct (Hreads3 _ _ Hq) as [q' Hq']. by exists q', s. }
  assert (Hsame : same_but_inputs a a3).
  { eapply same_but_inputs_trans; [exact Hsame1|].
    eapply same_but_inputs_trans; [apply same_but_inputs_rewire_outputs|done]. }
  split; [|split; [done|done]].
  apply name_to_node_mapping_None. intros op Hop Hname.
  apply elem_of_get_ops in Hop as [Hlt Hop]. cbn [arena set_arena] in *.
  assert (Hlt' : op < length a) by lia.
  rewrite (same_but_inputs_name a a3) in Hname by done.
  apply Huniq in Hname; [|done]. subst op.
  destruct Hop as [Hop|Hop]; [by apply Hroot|by apply Hfree3].
Qed.

(** ** Insertion on a name the index does not have *)

Lemma for_each_fails_at {S X : Type} (body : X → S → result S)
    (pre : list X) (c : X) (post : list X) (s : S) (e : error) :
  (∀ s', body c s' = Err e) →
  ∃ e', for_each body (pre ++ c :: post) s = Err e'
        ∧ ∀ s', for_each body pre s = Ok s' → e' = e.
Proof.
  intros Hc. rewrite for_each_app.
  destruct (for_each body pre s) as [s1|e0].
  - change (∃ e', for_each body (c :: post) s1 = Err e' ∧ ∀ s', Ok s1 = Ok s' → e' = e).
    rewrite for_each_cons, Hc. eauto.
  - exists e0. split; [done|]. by intros.
Qed.

(** An applier that is a loop over its batch followed by a final step
    fails on a batch one of whose commands fails in every state. *)
Lemma stage_loop_fails {S X : Type} (A : model → list X → result model)
    (body : model → X → S → result S) (init : model → S)
    (finish : model → S → result model)
    (m : model) (pre : list X) (c : X) (post : list X) (e : error) :
  (∀ b, A m b = (s ← for_each (body m) b (init m); finish m s)) →
  (∀ s', body m c s' = Err e) →
  ∃ e', stage A (pre ++ c :: post) m = Err e'
        ∧ ∀ m', stage A pre m = Ok m' → e' = e.
Proof.
  intros HA Hc.
  destruct (for_each_fails_at (body m) pre c post (init m) e Hc) as (e' & Hrun & He').
  exists e'. split.
  - assert (Hstage : stage A (pre ++ c :: post) m = A m (pre ++ c :: post))
      by by destruct pre.
    by rewrite Hstage, HA, Hrun.
  - intros m' Hpre. destruct pre as [|x pre]; [by apply (He' (init m))|].
    cbn [stage] in Hpre. rewrite HA in Hpre.
    destruct (for_each (body m) (x :: pre) (init m)) as [s1|] eqn:Hs1; [|done].
    by apply (He' s1).
Qed.

Lemma insertion_on_absent_name_fails (l pre post : list command) (c : command)
    (tp : OVTargetPoint) (m : model) :
  l = pre ++ c :: post →
  insertion_target c = Some tp →
  _get_name_to_node_mapping m !! target_node_name tp = None →
  ∃ e, apply_class (class_of c) l m = Err e
       ∧ ∀ m', apply_class (class_of c) pre m = Ok m' →
               e = KeyError (target_node_name tp).
Proof.
  intros -> Htp Hmp.
  destruct c; cbn in Htp; simplify_eq; cbn [class_of apply_class].
  - unfold quantizer_insertions. rewrite omap_app. cbn [omap list_omap].
    eapply (stage_loop_fails _
              (λ m t, _insert_fake_quantize_op t.1 t.2 (_get_name_to_node_mapping m))
              arena (λ m a, Ok (set_arena m a))); [done|].
    intros s'. unfold _insert_fake_quantize_op, getitem. cbn. by rewrite Hmp.
  - unfold convert_insertions. rewrite omap_app. cbn [omap list_omap].
    eapply (stage_loop_fails _
              (λ m t, _insert_fake_convert_op t.1 t.2 (_get_name_to_node_mapping m))
              arena (λ m a, Ok (set_arena m a))); [done|].
    intros s'. unfold _insert_fake_convert_op, getitem. cbn. by rewrite Hmp.
  - unfold inplace_insertions. rewrite omap_app. cbn [omap list_omap].
    eapply (stage_loop_fails _
              (λ m (t : OVTargetPoint * inplace_fn * nat)
                 (s : list node * list (nat * nat * nat)),
                 '(a', o) ← _insert_inplace_operation t.1.1 t.1.2 t.2
                              (_get_name_to_node_mapping m) s.1;
                 Ok (a', s.2 ++ [o]))
              (λ m, (arena m, [])) (λ m s, _insert_outputs m s.1 s.2)).
    + intros b. unfold _apply_insert_operation.
      by destruct (for_each _ b (arena m, [])) as [[? ?]|].
    + intros s'. unfold _insert_inplace_operation, getitem. cbn. by rewrite Hmp.
  - unfold output_insertions. rewrite omap_app. cbn [omap list_omap].
    eapply (stage_loop_fails _
              (λ m (t : OVTargetPoint) (acc : list (nat * nat * nat)),
                 nd ← getitem (_get_name_to_node_mapping m) (target_node_name t);
                 if decide (target_type t = POST_LAYER_OPERATION) then
                   output ← node_output (arena m) nd (port_id t);
                   Ok (acc ++ [(output, port_id t)])
                 else if decide (target_type t = PRE_LAYER_OPERATION
                                 ∨ target_type t = OPERATION_WITH_WEIGHTS) then
                   output ← input_value (arena m) nd (port_id t);
                   Ok (acc ++ [(output, output.2)])
                 else Err (NotImplementedError "Unsupported target point type"))
              (λ _, []) (λ m extra, _insert_outputs m (arena m) extra)); [done|].
    intros s'. unfold getitem. by rewrite Hmp.
  - unfold bias_insertions. rewrite omap_app. cbn [omap list_omap].
    eapply (stage_loop_fails _
              (λ m, bias_insertion_step (_get_name_to_node_mapping m))
              arena (λ m a, Ok (set_arena m a))); [done|].
    intros s'. unfold bias_insertion_step, getitem. cbn. by rewrite Hmp.
  - unfold multiply_insertions. rewrite omap_app. cbn [omap list_omap].
    eapply (stage_loop_fails _
              (λ m, multiply_insertion_step (_get_name_to_node_mapping m))
              arena (λ m a, Ok (set_arena m a))); [done|].
    intros s'. unfold multiply_insertion_step, getitem. cbn. by rewrite Hmp.
Qed.

(** ** Insertion on a name the index has *)

Lemma no_key_error_Ok {A : Type} (x : A) : no_key_error (Ok x).
Proof. by intros k. Qed.

Lemma no_key_error_Err {A : Type} (e : error) :
  (∀ k, e ≠ KeyError k) → no_key_error (@Err A e).
Proof. intros He k [= ->]. by apply (He k). Qed.

Lemma no_key_error_of_option {A : Type} (o : option A) (e : error) :
  (∀ k, e ≠ KeyError k) → no_key_error (of_option o e).
Proof. intros He. destruct o; [apply no_key_error_Ok|by apply no_key_error_Err]. Qed.

Lemma no_key_error_bind {A B : Type} (r : result A) (f : A → result B) :
  no_key_error r → (∀ x, no_key_error (f x)) → no_key_error (r ≫= f).
Proof.
  intros Hr Hf k. destruct r as [x|e]; cbn; [apply Hf|].
  intros [= ->]. by apply (Hr k).
Qed.

Lemma no_key_error_for_each {S X : Type} (body : X → S → result S) (xs : list X) (s : S) :
  (∀ x s', x ∈ xs → no_key_error (body x s')) → no_key_error (for_each body xs s).
Proof.
  revert s. induction xs as [|x xs IH]; intros s Hbody; [apply no_key_error_Ok|].
  rewrite for_each_cons. apply no_key_error_bind; [apply Hbody; left|].
  intros s'. apply IH. intros y s'' Hy. apply Hbody. by right.
Qed.

Create HintDb nke.

Ltac nke_step :=
  match goal with
  | |- no_key_error (Ok _) => apply no_key_error_Ok
  | |- no_key_error (Err _) => by apply no_key_error_Err
  | |- no_key_error (of_option _ _) => by apply no_key_error_of_option
  | |- no_key_error (mbind _ _) => apply no_key_error_bind; [|intros ?]
  | |- no_key_error (if ?b then _ else _) => destruct b
  | |- no_key_error (match ?x with _ => _ end) => destruct x
  end.

Ltac nke := repeat nke_step; auto with nke.

Lemma no_key_error_node_input a n p : no_key_error (node_input a n p).
Proof. unfold node_input. nke. Qed.
Lemma no_key_error_node_output a n p : no_key_error (node_output a n p).
Proof. unfold node_output. nke. Qed.
Lemma no_key_error_get_source_output a q : no_key_error (get_source_output a q).
Proof. unfold get_source_output. nke. Qed.
Lemma no_key_error_input_value a n p : no_key_error (input_value a n p).
Proof. apply no_key_error_get_source_output. Qed.
Lemma no_key_error_output_element_type a o : no_key_error (output_element_type a o).
Proof. unfold output_element_type. nke. Qed.
Lemma no_key_error_like_output a o : no_key_error (like_output a o).
Proof. unfold like_output. nke. Qed.
#[local] Hint Resolve no_key_error_node_input no_key_error_node_output
  no_key_error_get_source_output no_key_error_input_value
  no_key_error_output_element_type no_key_error_like_output : nke.

Lemma no_key_error_input_element_type a q : no_key_error (input_element_type a q).
Proof. unfold input_element_type. nke. Qed.
Lemma no_key_error_opset_fake_quantize a x il ih ol oh lv name :
  no_key_error (opset_fake_quantize a x il ih ol oh lv name).
Proof. unfold opset_fake_quantize. nke. Qed.
Lemma no_key_error_opset_fake_convert a x sc sh dest name :
  no_key_error (opset_fake_convert a x sc sh dest name).
Proof. unfold opset_fake_convert. nke. Qed.
Lemma no_key_error_opset_binary ty a x y name :
  no_key_error (opset_binary ty a x y name).
Proof. unfold opset_binary. nke. Qed.
Lemma no_key_error_opset_result a x name : no_key_error (opset_result a x name).
Proof. unfold opset_result. nke. Qed.
#[local] Hint Resolve no_key_error_input_element_type no_key_error_opset_fake_quantize
  no_key_error_opset_fake_convert no_key_error_opset_binary
  no_key_error_opset_result : nke.

Lemma no_key_error_create_fake_quantize a o q name b :
  no_key_error (_create_fake_quantize a o q name b).
Proof. unfold _create_fake_quantize, _create_constant, new_node. cbn. nke. Qed.
Lemma no_key_error_create_fake_convert a o q name b :
  no_key_error (_create_fake_convert a o q name b).
Proof. unfold _create_fake_convert, _create_constant, new_node. cbn. nke. Qed.
Lemma no_key_error_all_fp16 a ports : no_key_error (all_fp16 a ports).
Proof. unfold all_fp16. apply no_key_error_for_each. intros. nke. Qed.
Lemma no_key_error_insert_outputs m a outs : no_key_error (_insert_outputs m a outs).
Proof.
  unfold _insert_outputs. apply no_key_error_bind.
  - apply no_key_error_for_each. intros. nke.
  - intros [? ?]. nke.
Qed.
#[local] Hint Resolve no_key_error_create_fake_quantize no_key_error_create_fake_convert
  no_key_error_all_fp16 no_key_error_insert_outputs : nke.

Lemma no_key_error_stage {X : Type} (A : model → list X → result model)
    (b : list X) (m : model) :
  no_key_error (A m b) → no_key_error (stage A b m).
Proof. destruct b; [intros _; apply no_key_error_Ok|done]. Qed.

Lemma no_key_error_insert_fake_quantize_op t q (mp : gmap string nat) a :
  is_Some (mp !! target_node_name t) →
  no_key_error (_insert_fake_quantize_op t q mp a).
Proof.
  intros [tn Htn]. unfold _insert_fake_quantize_op, getitem. rewrite Htn. cbn. nke.
Qed.

Lemma no_key_error_insert_fake_convert_op t q (mp : gmap string nat) a :
  is_Some (mp !! target_node_name t) →
  no_key_error (_insert_fake_convert_op t q mp a).
Proof.
  intros [tn Htn]. unfold _insert_fake_convert_op, getitem. rewrite Htn. cbn. nke.
Qed.

Lemma no_key_error_bias_insertion_step (mp : gmap string nat) t a :
  is_Some (mp !! target_node_name t.1) →
  no_key_error (bias_insertion_step mp t a).
Proof.
  intros [tn Htn]. unfold bias_insertion_step, getitem. rewrite Htn. cbn.
  unfold _create_constant, new_node, opset_add. cbn. nke.
Qed.

Lemma no_key_error_multiply_insertion_step (mp : gmap string nat) t a :
  is_Some (mp !! target_node_name (mul_target_point t)) →
  no_key_error (multiply_insertion_step mp t a).
Proof.
  intros [tn Htn]. unfold multiply_insertion_step, getitem. rewrite Htn. cbn.
  unfold _create_constant, new_node, opset_multiply. cbn. nke.
Qed.

Lemma no_key_error_get_extra_model_outputs m ts :
  (∀ t, t ∈ ts → is_Some (_get_name_to_node_mapping m !! target_node_name t)) →
  no_key_error (_get_extra_model_outputs m ts).
Proof.
  intros Hts. unfold _get_extra_model_outputs. apply no_key_error_for_each.
  intros t acc Ht. destruct (Hts t Ht) as [tn Htn]. unfold getitem. rewrite Htn. cbn.
  nke.
Qed.

Lemma insertion_on_present_names (cls : command_class) (l : list command) (m : model) :
  cls ∈ own_insertion_classes →
  (∀ c tp, c ∈ l → class_of c = cls → insertion_target c = Some tp →
           is_Some (_get_name_to_node_mapping m !! target_node_name tp)) →
  no_key_error (apply_class cls l m).
Proof.
  intros Hcls Hl. unfold own_insertion_classes in Hcls.
  repeat (apply elem_of_cons in Hcls as [->|Hcls]); [..|by apply elem_of_nil in Hcls];
    cbn [apply_class]; apply no_key_error_stage.
  - unfold _apply_quantizer_insertion_transformations.
    apply no_key_error_bind; [|intros; nke]. apply no_key_error_for_each.
    intros [t q] s (c & Hc & Hq)%list_elem_of_omap.
    destruct c; simplify_eq. apply no_key_error_insert_fake_quantize_op. eauto.
  - unfold _apply_convert_insertion_transformations.
    apply no_key_error_bind; [|intros; nke]. apply no_key_error_for_each.
    intros [t q] s (c & Hc & Hq)%list_elem_of_omap.
    destruct c; simplify_eq. apply no_key_error_insert_fake_convert_op. eauto.
  - unfold _apply_output_insertion_transformations.
    apply no_key_error_bind; [|intros; nke]. apply no_key_error_get_extra_model_outputs.
    intros t (c & Hc & Hq)%list_elem_of_omap. destruct c; simplify_eq. eauto.
  - unfold _apply_bias_insertion_transformations.
    apply no_key_error_bind; [|intros; nke]. apply no_key_error_for_each.
    intros [t v] s (c & Hc & Hq)%list_elem_of_omap.
    destruct c; simplify_eq. apply no_key_error_bias_insertion_step. eauto.
  - unfold _apply_multiply_insertion_transformations.
    apply no_key_error_bind; [|intros; nke]. apply no_key_error_for_each.
    intros t s (c & Hc & Hq)%list_elem_of_omap.
    destruct c; simplify_eq. apply no_key_error_multiply_insertion_step. cbn. eauto.
Qed.

(** ** Removal followed by insertion *)

Lemma reads_existing_outputs_spec a i q k :
  reads_existing_outputs a i → get_source_output a q = Ok (i, k) → k < n_outputs a i.
Proof.
  intros Hwf (nd & Hnd & Hq)%get_source_output_Ok.
  apply list_elem_of_lookup_2 in Hnd, Hq.
  pose proof (proj1 (Forall_forall _ _) Hwf nd Hnd) as Hins.
  by apply (proj1 (Forall_forall _ _) Hins (i, k) Hq).
Qed.

Lemma only_node_named_spec a n i j :
  only_node_named a n i → j < length a → node_name a j = n → j = i.
Proof.
  intros Hu Hj. apply (proj1 (Forall_forall _ _) Hu j). apply elem_of_seq. lia.
Qed.

(** C4 as stated fails: the layout removes [conv/fq_input_0], the
    quantizer insertion on port 0 of [conv] creates a new node of that
    name, and the output insertion addressing [conv/fq_input_0], applied
    after both, finds it: [transform] returns a model. *)
Lemma requantize_layout_succeeds :
  remove_input_fq ∈ requantize_layout
  ∧ (∃ c tp, c ∈ requantize_layout
             ∧ class_of c = cls_OutputInsertion
             ∧ insertion_target c = Some tp
             ∧ target_node_name tp = "conv/fq_input_0")
  ∧ ∃ h' r m', transform prequantized_heap 0 requantize_layout = Ok (h', r)
               ∧ h' !! r = Some m'
               ∧ _get_name_to_node_mapping m' !! "conv/fq_input_0" = Some 13
               ∧ length (results m') = 2.
Proof.
  split; [left|]. split.
  - eexists _, _. split; [right; right; left|]. done.
  - eexists _, _, _. split; [by vm_compute|]. split; [by vm_compute|].
    split; by vm_compute.
Qed.

Lemma transform_unfold h self_model m l :
  h !! self_model = Some m →
  transform h self_model l
  = (m' ← apply_ordered_pairs l m;
     Ok (<[fresh (dom h) := m']> (<[fresh (dom h) := m]> h), fresh (dom h))).
Proof.
  intros Hm. unfold transform, clone. rewrite Hm. cbn.
  by rewrite lookup_insert_eq.
Qed.

(** C4 (amended).  Let the removal batch of a layout contain a command
    for the name [n], where [n] names exactly one node [i] of the graph, [i]
    is not a parameter, result or sink, the ports reading [i] read outputs
    it has, [i] does not read itself on port 0, and the node it reads there
    is not removed by an earlier command.  If the removal stage returns:
    - the graph it returns has no op named [n];
    - on any graph with no op named [n], the applier of an insertion
      command of the layout that targets [n] fails, and fails with KeyError
      [n] (NodeNotFound) when the commands of that class before it are
      applied;
    - so [transform] fails when the layout has a quantizer insertion that
      targets [n], the quantizer stage being the one after the removals;
    - on any graph, the applier of the quantizer, convert, output, bias or
      multiply insertions does not fail with KeyError when the names
      targeted by its commands are in the index of that graph. *)
Theorem removal_then_insertion_on_removed_name
    (h : gmap nat model) (self_model : nat) (m m1 : model) (l : list command)
    (before after : list OVTargetPoint) (t : OVTargetPoint) (i : nat) (x : nat * nat) :
  let a := arena m in
  let mp := _get_name_to_node_mapping m in
  let n := target_node_name t in
  h !! self_model = Some m →
  removals l = before ++ t :: after →
  mp !! n = Some i →
  only_node_named a n i →
  i ∉ roots m →
  reads_existing_outputs a i →
  get_source_output a (i, 0) = Ok x →
  x.1 ≠ i →
  Forall (λ t', mp !! target_node_name t' ≠ Some x.1) before →
  _apply_fq_nodes_removing_transformation m (removals l) = Ok m1 →
  _get_name_to_node_mapping m1 !! n = None
  ∧ (∀ m2 pre c post tp,
       l = pre ++ c :: post →
       insertion_target c = Some tp →
       target_node_name tp = n →
       _get_name_to_node_mapping m2 !! n = None →
       ∃ e, apply_class (class_of c) l m2 = Err e
            ∧ ∀ m3, apply_class (class_of c) pre m2 = Ok m3 → e = KeyError n)
  ∧ (∀ pre tp q post,
       l = pre ++ OVQuantizerInsertionCommand tp q :: post →
       target_node_name tp = n →
       ∃ e, transform h self_model l = Err e
            ∧ ∀ m3, apply_class cls_QuantizerInsertion pre m1 = Ok m3 →
                    e = KeyError n)
  ∧ (∀ m2 cls,
       cls ∈ own_insertion_classes →
       (∀ c tp, c ∈ l → class_of c = cls → insertion_target c = Some tp →
                is_Some (_get_name_to_node_mapping m2 !! target_node_name tp)) →
       no_key_error (apply_class cls l m2)).
Proof.
  intros a mp n Hm Hrem Hi Huniq Hroot Hwf Hx Hxi Hbefore Hrun.
  assert (Hgone : _get_name_to_node_mapping m1 !! n = None).
  { rewrite Hrem in Hrun.
    eapply (removal_drops_name m before t after m1 i x); try done.
    - intros j Hj Hname. by eapply only_node_named_spec.
    - intros q k Hq. by eapply reads_existing_outputs_spec. }
  split; [done|]. split; [|split].
  - intros m2 pre c post tp Hl Htp <- Hm2.
    by apply (insertion_on_absent_name_fails l pre post c tp m2).
  - intros pre tp q post Hl Hn.
    destruct (insertion_on_absent_name_fails l pre post
                (OVQuantizerInsertionCommand tp q) tp m1 Hl eq_refl)
      as (e & He & Hpre); [by rewrite Hn|].
    exists e. split; [|intros m3 Hm3; rewrite <- Hn; by eapply Hpre].
    rewrite (transform_unfold h self_model m l Hm).
    unfold apply_ordered_pairs, _command_transformation_ordered_pairs.
    rewrite for_each_cons. cbn [apply_class].
    assert (Hstage : stage _apply_fq_nodes_removing_transformation (removals l) m
                     = Ok m1).
    { rewrite Hrem in *. by destruct before. }
    rewrite Hstage. cbn [mbind result_bind].
    rewrite for_each_cons. cbn [class_of] in He. by rewrite He.
  - intros m2 cls Hcls Hl. by apply insertion_on_present_names.
Qed.

Lemma removal_then_insertion_on_removed_name_witness :
  let l := quantize_removed_layout in
  let n := "conv/fq_input_0" in
  _get_name_to_node_mapping dequantized_model !! n = None
  ∧ (∀ m2 pre c post tp,
       l = pre ++ c :: post →
       insertion_target c = Some tp →
       target_node_name tp = n →
       _get_name_to_node_mapping m2 !! n = None →
       ∃ e, apply_class (class_of c) l m2 = Err e
            ∧ ∀ m3, apply_class (class_of c) pre m2 = Ok m3 → e = KeyError n)
  ∧ (∀ pre tp q post,
       l = pre ++ OVQuantizerInsertionCommand tp q :: post →
       target_node_name tp = n →
       ∃ e, transform prequantized_heap 0 l = Err e
            ∧ ∀ m3, apply_class cls_QuantizerInsertion pre dequantized_model = Ok m3 →
                    e = KeyError n)
  ∧ (∀ m2 cls,
       cls ∈ own_insertion_classes →
       (∀ c tp, c ∈ l → class_of c = cls → insertion_target c = Some tp →
                is_Some (_get_name_to_node_mapping m2 !! target_node_name tp)) →
       no_key_error (apply_class cls l m2)).
Proof.
  apply (removal_then_insertion_on_removed_name prequantized_heap 0
           prequantized_model dequantized_model quantize_removed_layout [] []
           (mk_target_point POST_LAYER_OPERATION "conv/fq_input_0" 0) 6 (0, 0)).
  - reflexivity.
  - reflexivity.
  - by vm_compute.
  - apply (bool_decide_unpack _). by vm_compute.
  - apply (bool_decide_unpack _). by vm_compute.
  - apply (bool_decide_unpack _). by vm_compute.
  - reflexivity.
  - cbn. lia.
  - apply Forall_nil_2.
  - by vm_compute.
Defined.

(** On the example the whole call fails with KeyError for the removed
    name. *)
Example quantize_removed_layout_fails :
  transform prequantized_heap 0 quantize_removed_layout
  = Err (KeyError "conv/fq_input_0").
Proof. by vm_compute. Qed.

(** ** [get_ops] lists every node the model reaches *)













(** * Further properties of the transformer *)

(** ** The dispatcher *)

Lemma omap_filter_class {X : Type} (f : command → option X) (cls : command_class)
    (l : list command) :
  (∀ c, is_Some (f c) → class_of c = cls) →
  omap f (filter (λ c, class_of c = cls) l) = omap f l.
Proof.
  intros Hf. induction l as [|c l IH]; [done|].
  destruct (decide (class_of c = cls)) as [Hc|Hc].
  - rewrite filter_cons_True by done. cbn. by rewrite IH.
  - rewrite filter_cons_False by done. cbn. rewrite IH.
    destruct (f c) eqn:Hfc; [|done]. destruct Hc. apply Hf. by rewrite Hfc.
Qed.

Lemma apply_class_filter (cls : command_class) (l : list command) (m : model) :
  apply_class cls (filter (λ c, class_of c = cls) l) m = apply_class cls l m.
Proof.
  destruct cls; cbn [apply_class];
    [unfold removals | unfold quantizer_insertions | unfold convert_insertions
    | unfold bias_corrections | unfold weight_updates | unfold model_extractions
    | unfold inplace_insertions | unfold output_insertions | unfold bias_insertions
    | unfold multiply_insertions | unfold if_body_updates | unfold if_body_extractions];
    (rewrite omap_filter_class; [done|]);
    intros c [x Hx]; by destruct c.
Qed.

Lemma apply_class_other (cls : command_class) (l : list command) (m : model) :
  (∀ c, c ∈ l → class_of c ≠ cls) → apply_class cls l m = Ok m.
Proof.
  intros Hl. rewrite <- apply_class_filter.
  assert (Hnil : filter (λ c, class_of c = cls) l = []).
  { induction l as [|c l IH]; [done|]. rewrite filter_cons_False.
    - apply IH. intros c' Hc'. apply Hl. by right.
    - apply Hl. left. }
  rewrite Hnil. by destruct cls.
Qed.

(** A layout whose commands are all of one class runs the applier of that
    class and no other: the buckets of the other classes are empty and are
    skipped. *)
Theorem single_class_layout_runs_one_applier (cls : command_class)
    (l : list command) (m : model) :
  (∀ c, c ∈ l → class_of c = cls) →
  apply_ordered_pairs l m = apply_class cls l m.
Proof.
  intros Hl.
  assert (Hother : ∀ cls' m', cls' ≠ cls → apply_class cls' l m' = Ok m').
  { intros cls' m' Hne. apply apply_class_other. intros c Hc. by rewrite (Hl c Hc). }
  unfold apply_ordered_pairs, _command_transformation_ordered_pairs.
  destruct cls;
    repeat (rewrite for_each_cons;
            first [ rewrite Hother by done
                  | match goal with
                    | |- context [mbind _ (apply_class ?c l ?x)] =>
                        destruct (apply_class c l x) as [?|?]; [|done]
                    end ];
            cbn [mbind result_bind]);
    done.
Qed.

Lemma single_class_layout_runs_one_applier_witness :
  apply_ordered_pairs quantize_both_layout shared_weight_model
  = apply_class cls_QuantizerInsertion quantize_both_layout shared_weight_model.
Proof.
  apply (single_class_layout_runs_one_applier cls_QuantizerInsertion
           quantize_both_layout shared_weight_model).
  intros c Hc. unfold quantize_both_layout in Hc.
  repeat (apply elem_of_cons in Hc as [->|Hc]; [reflexivity|]).
  by apply elem_of_nil in Hc.
Defined.

(** The order of the commands of a layout matters within a class only: two
    layouts that list the same commands of each class in the same order
    give the same result, whatever the order across classes. *)
Theorem layout_order_across_classes_is_irrelevant
    (h : gmap nat model) (self_model : nat) (l1 l2 : list command) :
  (∀ cls, filter (λ c, class_of c = cls) l1 = filter (λ c, class_of c = cls) l2) →
  transform h self_model l1 = transform h self_model l2.
Proof.
  intros Hsame.
  assert (Hcls : ∀ cls m, apply_class cls l1 m = apply_class cls l2 m).
  { intros cls m. by rewrite <- (apply_class_filter cls l1), Hsame, apply_class_filter. }
  assert (Hpairs : ∀ m, apply_ordered_pairs l1 m = apply_ordered_pairs l2 m).
  { intros m. unfold apply_ordered_pairs.
    generalize _command_transformation_ordered_pairs. intros classes. revert m.
    induction classes as [|cls classes IH]; intros m; [done|].
    rewrite !for_each_cons, Hcls. destruct (apply_class cls l2 m); cbn; [apply IH|done]. }
  unfold transform. destruct (clone h self_model) as [[h' r]|]; [|done].
  cbn [mbind result_bind]. destruct (h' !! r); [|done].
  cbn [of_option mbind result_bind]. by rewrite Hpairs.
Qed.

Lemma layout_order_across_classes_is_irrelevant_witness :
  transform one_model_heap 0 mixed_layout
  = transform one_model_heap 0 mixed_layout_reordered.
Proof.
  apply (layout_order_across_classes_is_irrelevant one_model_heap 0
           mixed_layout mixed_layout_reordered).
  intros cls. by destruct cls.
Defined.

(** ** The name index *)

Lemma dict_of_items_snoc {V : Type} (items : list (string * V)) (kv : string * V) :
  dict_of_items (items ++ [kv]) = <[kv.1 := kv.2]> (dict_of_items items).
Proof. unfold dict_of_items. by rewrite foldl_app. Qed.

Lemma dict_of_items_lookup {V : Type} (items : list (string * V)) (key : string) :
  dict_of_items items !! key = snd <$> last (filter (λ kv, kv.1 = key) items).
Proof.
  induction items as [|kv items IH] using rev_ind; [done|].
  rewrite dict_of_items_snoc, filter_app.
  destruct (decide (kv.1 = key)) as [Hk|Hk].
  - rewrite filter_cons_True by done. rewrite filter_nil, last_snoc. cbn.
    rewrite <- Hk. apply lookup_insert_eq.
  - rewrite filter_cons_False by done. rewrite filter_nil, app_nil_r.
    by rewrite lookup_insert_ne.
Qed.

Lemma filter_fmap_name (a : list node) (n : string) (ops : list nat) :
  filter (λ kv : string * nat, kv.1 = n) ((λ op, (node_name a op, op)) <$> ops)
  = (λ op, (node_name a op, op)) <$> filter (λ op, node_name a op = n) ops.
Proof.
  induction ops as [|op ops IH]; [done|]. rewrite fmap_cons.
  destruct (decide (node_name a op = n)) as [Hn|Hn].
  - rewrite !filter_cons_True by done. by rewrite fmap_cons, IH.
  - rewrite !filter_cons_False by done. done.
Qed.

Lemma name_to_node_mapping_last (m : model) (n : string) :
  _get_name_to_node_mapping m !! n
  = last (filter (λ op, node_name (arena m) op = n) (get_ops m)).
Proof.
  unfold _get_name_to_node_mapping.
  rewrite dict_of_items_lookup, filter_fmap_name, fmap_last.
  by destruct (last _).
Qed.

Lemma name_to_node_mapping_Some (m : model) (n : string) (i : nat) :
  _get_name_to_node_mapping m !! n = Some i →
  i ∈ get_ops m ∧ node_name (arena m) i = n.
Proof.
  rewrite name_to_node_mapping_last.
  by intros [Hn Hi]%last_Some_elem_of%list_elem_of_filter.
Qed.

(** The name index maps a name to the last of the reached nodes that bear
    it: every entry is a reached node of the arena with that name, and the
    name of every reached node has an entry. *)
Theorem name_index_is_last_reached_node_of_name (m : model) (n : string) :
  _get_name_to_node_mapping m !! n
  = last (filter (λ op, node_name (arena m) op = n) (get_ops m))
  ∧ (∀ i, _get_name_to_node_mapping m !! n = Some i →
          i ∈ get_ops m ∧ i < length (arena m) ∧ node_name (arena m) i = n)
  ∧ (∀ op, op ∈ get_ops m →
           is_Some (_get_name_to_node_mapping m !! node_name (arena m) op)).
Proof.
  split; [apply name_to_node_mapping_last|]. split.
  - intros i [Hi Hn]%name_to_node_mapping_Some.
    split; [done|]. split; [|done]. by apply elem_of_get_ops in Hi as [? _].
  - intros op Hop. rewrite name_to_node_mapping_last.
    destruct (last _) eqn:Hlast; [done|]. apply last_None in Hlast.
    assert (Hin : op ∈ filter (λ op', node_name (arena m) op' = node_name (arena m) op)
                       (get_ops m)) by by apply list_elem_of_filter.
    rewrite Hlast in Hin. by apply elem_of_nil in Hin.
Qed.

(** ** Node removal: bypass, and a name is removed once *)

(** Removing the node named by [t], which reads [x] on port 0 (and not
    itself): the applier returns; every port that read an output of the
    node reads [x], every other port keeps its source; the nodes are what
    they were but for their inputs and the terminals of the model are
    unchanged. *)
Theorem removal_bypasses_node (m : model) (t : OVTargetPoint) (i : nat) (x : nat * nat) :
  let a := arena m in
  _get_name_to_node_mapping m !! target_node_name t = Some i →
  get_source_output a (i, 0) = Ok x →
  x.1 ≠ i →
  ∃ m', _apply_fq_nodes_removing_transformation m [t] = Ok m'
        ∧ parameters m' = parameters m
        ∧ results m' = results m
        ∧ sinks m' = sinks m
        ∧ length (arena m') = length a
        ∧ same_but_inputs a (arena m')
        ∧ (∀ q k, k < n_outputs a i → get_source_output a q = Ok (i, k) →
             get_source_output (arena m') q = Ok x)
        ∧ (∀ q s, get_source_output a q = Ok s → s.1 ≠ i →
             get_source_output (arena m') q = Ok s).
Proof.
  intros a Hi Hx Hxi.
  exists (set_arena m (rewire_outputs a i (seq 0 (n_outputs a i)) x)). split.
  { unfold _apply_fq_nodes_removing_transformation. cbn.
    unfold getitem, input_value. rewrite Hi. cbn. fold a. rewrite Hx. done. }
  cbn [arena set_arena parameters results sinks].
  split; [done|]. split; [done|]. split; [done|].
  split; [apply length_rewire_outputs|]. split; [apply same_but_inputs_rewire_outputs|].
  split.
  - intros q k Hk Hq. eapply rewire_outputs_hit; [done| |exact Hq].
    apply elem_of_seq. lia.
  - intros q s Hq Hs. by apply rewire_outputs_other.
Qed.

Lemma removal_bypasses_node_witness :
  ∃ m', _apply_fq_nodes_removing_transformation prequantized_model
          [mk_target_point POST_LAYER_OPERATION "conv/fq_input_0" 0] = Ok m'
        ∧ parameters m' = parameters prequantized_model
        ∧ results m' = results prequantized_model
        ∧ sinks m' = sinks prequantized_model
        ∧ length (arena m') = length prequantized_arena
        ∧ same_but_inputs prequantized_arena (arena m')
        ∧ (∀ q k, k < n_outputs prequantized_arena 6 →
             get_source_output prequantized_arena q = Ok (6, k) →
             get_source_output (arena m') q = Ok (0, 0))
        ∧ (∀ q s, get_source_output prequantized_arena q = Ok s → s.1 ≠ 6 →
             get_source_output (arena m') q = Ok s).
Proof.
  apply (removal_bypasses_node prequantized_model
           (mk_target_point POST_LAYER_OPERATION "conv/fq_input_0" 0) 6 (0, 0)).
  - by vm_compute.
  - reflexivity.
  - cbn. lia.
Defined.

Lemma removal_loop_deleted ts t :
  ∀ a (mp : gmap string nat) a' mp',
    for_each fq_node_removing_step ts (a, mp) = Ok (a', mp') →
    t ∈ ts → mp' !! target_node_name t = None.
Proof.
  induction ts as [|t' ts IH]; intros a mp a' mp' H Ht; [by apply elem_of_nil in Ht|].
  rewrite for_each_cons in H.
  destruct (fq_node_removing_step t' (a, mp)) as [[a1 mp1]|] eqn:Hstep; [|done].
  change (for_each fq_node_removing_step ts (a1, mp1) = Ok (a', mp')) in H.
  apply elem_of_cons in Ht as [->|Ht]; [|by eapply IH].
  apply fq_node_removing_step_inv in Hstep as (r & src & _ & _ & -> & _).
  apply removal_loop_preserves in H as (_ & _ & _ & Hmp).
  destruct (mp' !! target_node_name t') as [v|] eqn:Hv; [|done].
  apply Hmp in Hv. by rewrite lookup_delete_eq in Hv.
Qed.

(** A batch of removals never removes one name twice: when a command names
    the node of an earlier command of the batch, the applier fails, with
    KeyError for that name when the commands before it are applied. *)
Theorem removal_of_one_name_twice_fails (m : model)
    (pre post : list OVTargetPoint) (t1 t2 : OVTargetPoint) :
  t1 ∈ pre →
  target_node_name t1 = target_node_name t2 →
  ∃ e, _apply_fq_nodes_removing_transformation m (pre ++ t2 :: post) = Err e
       ∧ ∀ m1, _apply_fq_nodes_removing_transformation m pre = Ok m1 →
               e = KeyError (target_node_name t2).
Proof.
  intros Hin Hname. unfold _apply_fq_nodes_removing_transformation.
  rewrite for_each_app.
  destruct (for_each fq_node_removing_step pre (arena m, _get_name_to_node_mapping m))
    as [[a1 mp1]|e] eqn:Hpre.
  - pose proof (removal_loop_deleted _ _ _ _ _ _ Hpre Hin) as Hgone.
    rewrite Hname in Hgone.
    exists (KeyError (target_node_name t2)). split; [|done].
    cbn [mbind result_bind]. rewrite for_each_cons.
    assert (Hstep : fq_node_removing_step t2 (a1, mp1)
                    = Err (KeyError (target_node_name t2))).
    { unfold fq_node_removing_step, getitem. by rewrite Hgone. }
    by rewrite Hstep.
  - exists e. split; [done|]. by intros m1.
Qed.

Lemma removal_of_one_name_twice_fails_witness :
  let t := mk_target_point POST_LAYER_OPERATION "conv/fq_input_0" 0 in
  ∃ e, _apply_fq_nodes_removing_transformation prequantized_model ([t] ++ t :: []) = Err e
       ∧ ∀ m1, _apply_fq_nodes_removing_transformation prequantized_model [t] = Ok m1 →
               e = KeyError "conv/fq_input_0".
Proof.
  intros t.
  apply (removal_of_one_name_twice_fails prequantized_model [t] [] t t);
    [left|reflexivity].
Defined.

(** ** Post-layer and pre-layer insertion *)

Lemma create_fake_op_name a o k name b a' f :
  create_fake_op a o k name b = Ok (a', f) → node_name a' f = name.
Proof.
  destruct k as [q|q]; cbn.
  - unfold _create_fake_quantize, _create_constant, new_node, opset_fake_quantize. cbn.
    destruct (like_output _ o); cbn; [|done]. unfold new_node. intros [= <- <-].
    unfold node_name. by rewrite lookup_app_r, Nat.sub_diag.
  - unfold _create_fake_convert, _create_constant, new_node, opset_fake_convert. cbn.
    destruct (like_output _ o); cbn; [|done]. unfold new_node. intros [= <- <-].
    unfold node_name. by rewrite lookup_app_r, Nat.sub_diag.
Qed.

Lemma like_output_node_output a n p d : like_output a (n, p) = Ok d → node_output a n p = Ok (n, p).
Proof.
  intros (nd & x & Hnd & Hx & _)%like_output_Ok. cbn in *.
  unfold node_output. rewrite Hnd. cbn. apply lookup_lt_Some in Hx.
  by rewrite decide_True.
Qed.

Lemma like_output_element_type a o d :
  like_output a o = Ok d → output_element_type a o = Ok (element_type d).
Proof.
  intros (nd & x & Hnd & Hx & ->)%like_output_Ok.
  unfold output_element_type. rewrite Hnd. cbn. by rewrite Hx.
Qed.

Lemma insert_fake_op_post_unfold t k (mp : gmap string nat) a tn d :
  target_type t = POST_LAYER_OPERATION →
  mp !! target_node_name t = Some tn →
  like_output a (tn, port_id t) = Ok d →
  insert_fake_op t k mp a
  = ('(a', f) ← create_fake_op a (tn, port_id t) k (inserted_node_name k t)
                  (bool_decide (element_type d = f16));
     Ok (rebind a' (get_target_inputs a (tn, port_id t)) (f, 0))).
Proof.
  intros Ht Hmp Hd.
  pose proof (like_output_node_output _ _ _ _ Hd) as Hout.
  pose proof (like_output_element_type _ _ _ Hd) as Hty.
  unfold inserted_node_name. rewrite Ht.
  destruct k as [q|q]; cbn;
    [unfold _insert_fake_quantize_op | unfold _insert_fake_convert_op];
    unfold getitem; rewrite Hmp; cbn; rewrite Ht; cbn;
    rewrite Hout; cbn; rewrite Hty; cbn; done.
Qed.

Lemma insert_fake_op_pre_unfold t k (mp : gmap string nat) a tn o d :
  target_type t = PRE_LAYER_OPERATION →
  mp !! target_node_name t = Some tn →
  get_source_output a (tn, port_id t) = Ok o →
  like_output a o = Ok d →
  insert_fake_op t k mp a
  = ('(a', f) ← create_fake_op a o k (inserted_node_name k t)
                  (bool_decide (element_type d = f16));
     Ok (replace_source_output a' (tn, port_id t) (f, 0))).
Proof.
  intros Ht Hmp Ho Hd.
  pose proof (input_element_type_of_source _ _ _ _ Ho Hd) as Hty.
  unfold inserted_node_name. rewrite Ht.
  destruct k as [q|q]; cbn;
    [unfold _insert_fake_quantize_op | unfold _insert_fake_convert_op];
    unfold getitem; rewrite Hmp; cbn; rewrite Ht; cbn;
    rewrite (get_source_output_node_input _ _ _ _ Ho); cbn;
    rewrite Ho; cbn; rewrite ?Hty; cbn; done.
Qed.

(** What [create_fake_op] leaves in the arena: the old nodes, constants
    without inputs, and last the new node, which reads [o] on port 0. *)
Lemma create_fake_op_result (a : list node) (o : nat * nat) k name b d :
  like_output a o = Ok d →
  ∃ a1 f,
    create_fake_op a o k name b = Ok (a1, f)
    ∧ length a ≤ f ∧ length a1 = S f
    ∧ (∀ i nd, a !! i = Some nd → a1 !! i = Some nd)
    ∧ node_type_name a1 f = fake_op_type k
    ∧ node_name a1 f = name
    ∧ get_source_output a1 (f, 0) = Ok o
    ∧ (∀ i, length a ≤ i → i < f →
         node_type_name a1 i = "Constant" ∧ producers a1 i = []).
Proof.
  intros Hd.
  destruct (create_fake_op_shape a o k name b d Hd)
    as (news & fake & rest & Hcreate & Hnews & Hfake & Hin & Hrest).
  exists (a ++ news ++ [fake]), (length a + length news).
  assert (Hf : (a ++ news ++ [fake]) !! (length a + length news) = Some fake).
  { rewrite lookup_app_r by lia. rewrite lookup_app_r by lia.
    by replace (length a + length news - length a - length news) with 0 by lia. }
  split; [done|]. split; [lia|]. split; [rewrite !length_app; cbn; lia|].
  split; [intros i nd Hi; by apply lookup_app_l_Some|].
  split; [unfold node_type_name; by rewrite Hf|].
  split; [by eapply create_fake_op_name|].
  split; [apply get_source_output_Ok; exists fake; cbn; by rewrite Hin|].
  intros i Hi Hif.
  assert (Hc : ∃ c, (a ++ news ++ [fake]) !! i = Some c ∧ c ∈ news).
  { destruct (lookup_lt_is_Some_2 news (i - length a)) as [c Hc]; [lia|].
    exists c. split; [|by eapply list_elem_of_lookup_2].
    rewrite lookup_app_r by lia. by rewrite lookup_app_l by lia. }
  destruct Hc as (c & Hc & Hcin).
  apply (proj1 (Forall_forall _ _) Hnews) in Hcin as [Hcin Hcty].
  unfold node_type_name, producers. rewrite Hc. by rewrite Hcin.
Qed.

(** A post-layer insertion on an existing output [o]: the new node reads
    [o], bears the name built from the target name and port, and every
    port that read [o] reads the new node; all other ports keep their
    source and the old nodes are what they were but for their inputs. *)
Theorem post_layer_insertion_rewires_all_consumers
    (t : OVTargetPoint) (k : fake_op) (mp : gmap string nat) (a : list node)
    (tn : nat) (d : tensor_desc) :
  let o := (tn, port_id t) in
  target_type t = POST_LAYER_OPERATION →
  mp !! target_node_name t = Some tn →
  like_output a o = Ok d →
  ∃ a' f,
    insert_fake_op t k mp a = Ok a'
    ∧ length a ≤ f ∧ length a' = S f
    ∧ node_type_name a' f = fake_op_type k
    ∧ node_name a' f = inserted_node_name k t
    ∧ get_source_output a' (f, 0) = Ok o
    ∧ (∀ q, get_source_output a q = Ok o → get_source_output a' q = Ok (f, 0))
    ∧ (∀ q, q.1 < length a → get_source_output a q ≠ Ok o →
         get_source_output a' q = get_source_output a q)
    ∧ same_but_inputs a a'.
Proof.
  intros o Ht Hmp Hd.
  destruct (create_fake_op_result a o k (inserted_node_name k t)
              (bool_decide (element_type d = f16)) d Hd)
    as (a1 & f & Hcreate & Hf & Hlen & Hold & Hty & Hname & Hfo & _).
  assert (Hps : ∀ p, p ∈ get_target_inputs a o → p.1 < length a).
  { intros p Hp%elem_of_get_target_inputs. by eapply get_source_output_lt. }
  assert (Hsame1 : same_but_inputs a a1).
  { intros i nd Hi. exists (inputs nd). rewrite (Hold i nd Hi). by destruct nd. }
  exists (rebind a1 (get_target_inputs a o) (f, 0)), f.
  split. { rewrite (insert_fake_op_post_unfold t k mp a tn d) by done.
           fold o. by rewrite Hcreate. }
  split; [done|]. split; [by rewrite length_rebind|].
  assert (Hfother : ∀ p, p ∈ get_target_inputs a o → p.1 ≠ f).
  { intros p Hp%Hps. lia. }
  split; [unfold node_type_name in *; by rewrite lookup_rebind_other|].
  split; [unfold node_name in *; by rewrite lookup_rebind_other|].
  split. { rewrite get_source_output_rebind_notin; [done|].
           intros Hin%Hfother. by cbn in Hin. }
  split. { intros q Hq. eapply get_source_output_rebind_in.
           - by apply elem_of_get_target_inputs.
           - apply get_source_output_Ok in Hq as (nd & Hnd & Hin).
             apply get_source_output_Ok. exists nd. split; [by apply Hold|done]. }
  split. { intros q Hqlt Hq. rewrite get_source_output_rebind_notin.
           - unfold get_source_output.
             destruct (lookup_lt_is_Some_2 a q.1 Hqlt) as [nd Hnd].
             by rewrite Hnd, (Hold _ _ Hnd).
           - by rewrite elem_of_get_target_inputs. }
  eapply same_but_inputs_trans; [exact Hsame1|apply same_but_inputs_rebind].
Qed.

Lemma post_layer_insertion_rewires_all_consumers_witness :
  let t := mk_target_point POST_LAYER_OPERATION "input" 0 in
  let mp := _get_name_to_node_mapping shared_weight_model in
  let a := shared_weight_arena in
  let o := (0, 0) in
  let k := FakeConvertOp unit_fc in
  ∃ a' f,
    insert_fake_op t k mp a = Ok a'
    ∧ length a ≤ f ∧ length a' = S f
    ∧ node_type_name a' f = fake_op_type k
    ∧ node_name a' f = inserted_node_name k t
    ∧ get_source_output a' (f, 0) = Ok o
    ∧ (∀ q, get_source_output a q = Ok o → get_source_output a' q = Ok (f, 0))
    ∧ (∀ q, q.1 < length a → get_source_output a q ≠ Ok o →
         get_source_output a' q = get_source_output a q)
    ∧ same_but_inputs a a'.
Proof.
  intros t mp a o k.
  apply (post_layer_insertion_rewires_all_consumers t k mp a 0 f32_out);
    [reflexivity | by vm_compute | reflexivity].
Defined.

(** A pre-layer insertion always creates its node, whatever already reads
    the source output of the addressed port: the new node reads that
    output, the addressed port reads the new node, and no other port
    changes. *)
Theorem pre_layer_insertion_always_creates
    (t : OVTargetPoint) (k : fake_op) (mp : gmap string nat) (a : list node)
    (tn : nat) (o : nat * nat) (d : tensor_desc) :
  target_type t = PRE_LAYER_OPERATION →
  mp !! target_node_name t = Some tn →
  get_source_output a (tn, port_id t) = Ok o →
  like_output a o = Ok d →
  ∃ a' f,
    insert_fake_op t k mp a = Ok a'
    ∧ length a ≤ f ∧ length a' = S f
    ∧ node_type_name a' f = fake_op_type k
    ∧ node_name a' f = inserted_node_name k t
    ∧ get_source_output a' (f, 0) = Ok o
    ∧ get_source_output a' (tn, port_id t) = Ok (f, 0)
    ∧ (∀ q, q ≠ (tn, port_id t) → q.1 < length a →
         get_source_output a' q = get_source_output a q)
    ∧ same_but_inputs a a'.
Proof.
  intros Ht Hmp Ho Hd.
  destruct (create_fake_op_result a o k (inserted_node_name k t)
              (bool_decide (element_type d = f16)) d Hd)
    as (a1 & f & Hcreate & Hf & Hlen & Hold & Hty & Hname & Hfo & _).
  pose proof (get_source_output_lt _ _ _ Ho) as Htn. cbn in Htn.
  assert (Hsame1 : same_but_inputs a a1).
  { intros i nd Hi. exists (inputs nd). rewrite (Hold i nd Hi). by destruct nd. }
  assert (Hkeep : ∀ q, q.1 < length a → get_source_output a1 q = get_source_output a q).
  { intros q Hq. unfold get_source_output.
    destruct (lookup_lt_is_Some_2 a q.1 Hq) as [nd Hnd]. by rewrite Hnd, (Hold _ _ Hnd). }
  exists (replace_source_output a1 (tn, port_id t) (f, 0)), f.
  split. { rewrite (insert_fake_op_pre_unfold t k mp a tn o d) by done. by rewrite Hcreate. }
  split; [done|]. split; [by rewrite length_replace_source_output|].
  split; [by rewrite node_type_name_replace_source_output|].
  split. { unfold node_name in *. rewrite lookup_replace_source_output_ne; [done|cbn; lia]. }
  split. { rewrite get_source_output_replace_ne; [done|]. intros [= ? _]. lia. }
  split. { eapply get_source_output_replace_eq. rewrite Hkeep; [exact Ho|done]. }
  split. { intros q Hq Hqlt. rewrite get_source_output_replace_ne by done. by apply Hkeep. }
  eapply same_but_inputs_trans; [exact Hsame1|apply same_but_inputs_replace].
Qed.

Lemma pre_layer_insertion_always_creates_witness :
  let t := mk_target_point PRE_LAYER_OPERATION "conv2" 1 in
  let mp := _get_name_to_node_mapping quantized_weight_model in
  let a := quantized_weight_arena in
  last_consumer_of_type a (1, 0) "FakeQuantize" = Some 8
  ∧ ∃ a' f,
      insert_fake_op t (FakeQuantizeOp wide_range_fq) mp a = Ok a'
      ∧ length a ≤ f ∧ length a' = S f
      ∧ node_type_name a' f = "FakeQuantize"
      ∧ node_name a' f = "conv2/fq_input_1"
      ∧ get_source_output a' (f, 0) = Ok (1, 0)
      ∧ get_source_output a' (3, 1) = Ok (f, 0)
      ∧ (∀ q, q ≠ (3, 1) → q.1 < length a →
           get_source_output a' q = get_source_output a q)
      ∧ same_but_inputs a a'.
Proof.
  intros t mp a. split; [by vm_compute|].
  apply (pre_layer_insertion_always_creates t (FakeQuantizeOp wide_range_fq) mp a 3
           (1, 0) (mk_tensor_desc f32 [4] ∅));
    [reflexivity | by vm_compute | reflexivity | reflexivity].
Defined.

(** ** Target point types the appliers reject *)

(** The quantizer, convert, in-place and output insertion appliers fail on
    a batch with a command whose target point is of none of the three
    supported types.  The name is looked up first: when the commands
    before it are applied the error is KeyError for a name the index does
    not have, and the applier's own error otherwise. *)
Theorem unsupported_target_type_fails (l pre post : list command) (c : command)
    (tp : OVTargetPoint) (m : model) :
  l = pre ++ c :: post →
  insertion_target c = Some tp →
  class_of c ∈ checks_target_type →
  target_type tp = OTHER_TARGET_TYPE →
  ∃ e, apply_class (class_of c) l m = Err e
       ∧ ∀ m', apply_class (class_of c) pre m = Ok m' →
               e = match _get_name_to_node_mapping m !! target_node_name tp with
                   | None => KeyError (target_node_name tp)
                   | Some _ => unsupported_type_error (class_of c)
                   end.
Proof.
  intros -> Htp Hcls Hty. unfold checks_target_type in Hcls.
  destruct c; cbn in Htp, Hcls; simplify_eq;
    try (exfalso; repeat (apply elem_of_cons in Hcls as [Hcls|Hcls]; [done|]);
         by apply elem_of_nil in Hcls);
    cbn [class_of apply_class unsupported_type_error].
  - unfold quantizer_insertions. rewrite omap_app. cbn [omap list_omap].
    eapply (stage_loop_fails _
              (λ m t, _insert_fake_quantize_op t.1 t.2 (_get_name_to_node_mapping m))
              arena (λ m a, Ok (set_arena m a))); [done|].
    intros s'. unfold _insert_fake_quantize_op, getitem. cbn.
    destruct (_ !! target_node_name tp); cbn; [|done]. by rewrite Hty.
  - unfold convert_insertions. rewrite omap_app. cbn [omap list_omap].
    eapply (stage_loop_fails _
              (λ m t, _insert_fake_convert_op t.1 t.2 (_get_name_to_node_mapping m))
              arena (λ m a, Ok (set_arena m a))); [done|].
    intros s'. unfold _insert_fake_convert_op, getitem. cbn.
    destruct (_ !! target_node_name tp); cbn; [|done]. by rewrite Hty.
  - unfold inplace_insertions. rewrite omap_app. cbn [omap list_omap].
    eapply (stage_loop_fails _
              (λ m (t : OVTargetPoint * inplace_fn * nat)
                 (s : list node * list (nat * nat * nat)),
                 '(a', o) ← _insert_inplace_operation t.1.1 t.1.2 t.2
                              (_get_name_to_node_mapping m) s.1;
                 Ok (a', s.2 ++ [o]))
              (λ m, (arena m, [])) (λ m s, _insert_outputs m s.1 s.2)).
    + intros b. unfold _apply_insert_operation.
      by destruct (for_each _ b (arena m, [])) as [[? ?]|].
    + intros s'. unfold _insert_inplace_operation, getitem. cbn.
      destruct (_ !! target_node_name tp); cbn; [|done]. by rewrite Hty.
  - unfold output_insertions. rewrite omap_app. cbn [omap list_omap].
    eapply (stage_loop_fails _
              (λ m (t : OVTargetPoint) (acc : list (nat * nat * nat)),
                 nd ← getitem (_get_name_to_node_mapping m) (target_node_name t);
                 if decide (target_type t = POST_LAYER_OPERATION) then
                   output ← node_output (arena m) nd (port_id t);
                   Ok (acc ++ [(output, port_id t)])
                 else if decide (target_type t = PRE_LAYER_OPERATION
                                 ∨ target_type t = OPERATION_WITH_WEIGHTS) then
                   output ← input_value (arena m) nd (port_id t);
                   Ok (acc ++ [(output, output.2)])
                 else Err (NotImplementedError "Unsupported target point type"))
              (λ _, []) (λ m extra, _insert_outputs m (arena m) extra)); [done|].
    intros s'. unfold getitem.
    destruct (_ !! target_node_name tp); cbn; [|done]. by rewrite Hty.
Qed.

Lemma unsupported_target_type_fails_witness :
  ∃ e, apply_class cls_OutputInsertion [other_type_output] shared_weight_model = Err e
       ∧ ∀ m', apply_class cls_OutputInsertion [] shared_weight_model = Ok m' →
               e = match _get_name_to_node_mapping shared_weight_model !! "conv1" with
                   | None => KeyError "conv1"
                   | Some _ => unsupported_type_error cls_OutputInsertion
                   end.
Proof.
  apply (unsupported_target_type_fails [other_type_output] [] [] other_type_output
           (mk_target_point OTHER_TARGET_TYPE "conv1" 0) shared_weight_model);
    [reflexivity | reflexivity | | reflexivity].
  unfold checks_target_type. cbn. do 3 right. left.
Defined.

(** ** The constants of an inserted node *)

Lemma create_constant_parameter (a : list node) (b : bool) (name suffix : string)
    (x : ndarray) :
  _create_constant a (if b then _convert_to_fp16 x else x)
    (if b then f16 else f32) (name +:+ suffix)
  = (a ++ [parameter_constant b name (suffix, x)], length a).
Proof.
  unfold _create_constant, new_node, parameter_constant. destruct b; cbn; [|done].
  unfold astype, _convert_to_fp16, np_clip, astype. cbn.
  by rewrite <- !list_fmap_compose.
Qed.

Lemma create_fake_op_closed (a : list node) (o : nat * nat) k name b d :
  like_output a o = Ok d →
  ∃ fake,
    create_fake_op a o k name b
    = Ok (a ++ (parameter_constant b name <$> fake_op_parameters k) ++ [fake],
          length a + length (fake_op_parameters k))
    ∧ type_name fake = fake_op_type k
    ∧ friendly_name fake = name
    ∧ inputs fake
      = o :: ((λ j, (length a + j, 0)) <$> seq 0 (length (fake_op_parameters k))).
Proof.
  intros Hd. destruct k as [q|q]; cbn [create_fake_op fake_op_parameters].
  - unfold _create_fake_quantize. cbv zeta beta.
    do 4 rewrite create_constant_parameter.
    unfold opset_fake_quantize. rewrite <- !app_assoc.
    rewrite (like_output_app _ _ _ _ Hd). cbn. unfold new_node.
    rewrite <- !app_assoc, !length_app. cbn.
    eexists. split; [cbn; first [reflexivity | do 2 f_equal; lia]|].
    split; [done|]. split; [done|]. cbn. rewrite Nat.add_0_r. repeat f_equal; lia.
  - unfold _create_fake_convert. cbv zeta beta.
    do 2 rewrite create_constant_parameter.
    unfold opset_fake_convert. rewrite <- !app_assoc.
    rewrite (like_output_app _ _ _ _ Hd). cbn. unfold new_node.
    rewrite <- !app_assoc, !length_app. cbn.
    eexists. split; [cbn; first [reflexivity | do 2 f_equal; lia]|].
    split; [done|]. split; [done|]. cbn. rewrite Nat.add_0_r. repeat f_equal; lia.
Qed.

(** The constants an insertion creates hold the command's parameters, in
    order and named after the new node; they are in half precision,
    clipped to its finite range before the cast, exactly when the element
    type of the edge is half precision, and in single precision
    otherwise.  The new node reads the edge and then the constants. *)
Theorem inserted_constants_follow_edge_precision
    (t : OVTargetPoint) (k : fake_op) (mp : gmap string nat) (a : list node)
    (tn : nat) (d : tensor_desc) :
  let n := length (fake_op_parameters k) in
  target_type t = POST_LAYER_OPERATION →
  mp !! target_node_name t = Some tn →
  like_output a (tn, port_id t) = Ok d →
  ∃ a' fake,
    insert_fake_op t k mp a = Ok a'
    ∧ length a' = length a + n + 1
    ∧ (∀ j p, fake_op_parameters k !! j = Some p →
         a' !! (length a + j)
         = Some (parameter_constant (bool_decide (element_type d = f16))
                   (inserted_node_name k t) p))
    ∧ a' !! (length a + n) = Some fake
    ∧ type_name fake = fake_op_type k
    ∧ inputs fake = (tn, port_id t) :: ((λ j, (length a + j, 0)) <$> seq 0 n).
Proof.
  intros n Ht Hmp Hd.
  destruct (create_fake_op_closed a (tn, port_id t) k (inserted_node_name k t)
              (bool_decide (element_type d = f16)) d Hd)
    as (fake & Hcreate & Hty & Hname & Hin).
  fold n in Hcreate, Hin.
  set (cs := parameter_constant _ _ <$> fake_op_parameters k) in *.
  assert (Hcs : length cs = n) by (unfold cs; by rewrite length_fmap).
  set (ps := get_target_inputs a (tn, port_id t)).
  assert (Hps : ∀ p, p ∈ ps → p.1 < length a).
  { intros p Hp%elem_of_get_target_inputs. by eapply get_source_output_lt. }
  exists (rebind (a ++ cs ++ [fake]) ps (length a + n, 0)), fake.
  split. { rewrite (insert_fake_op_post_unfold t k mp a tn d) by done. by rewrite Hcreate. }
  split; [rewrite length_rebind, !length_app; cbn; lia|].
  split; [|split; [|done]].
  - intros j p Hj. rewrite lookup_rebind_other.
    + rewrite lookup_app_r by lia. rewrite lookup_app_l.
      * replace (length a + j - length a) with j by lia.
        unfold cs. by rewrite list_lookup_fmap, Hj.
      * apply lookup_lt_Some in Hj. fold n in Hj. lia.
    + intros q Hq%Hps. lia.
  - rewrite lookup_rebind_other.
    + rewrite lookup_app_r by lia. rewrite lookup_app_r by lia.
      by replace (length a + n - length a - length cs) with 0 by lia.
    + intros q Hq%Hps. lia.
Qed.

Lemma inserted_constants_follow_edge_precision_witness :
  let t := mk_target_point POST_LAYER_OPERATION "input" 0 in
  let k := FakeQuantizeOp unit_range_fq in
  let a := shared_weight_arena in
  ∃ a' fake,
    insert_fake_op t k (_get_name_to_node_mapping shared_weight_model) a = Ok a'
    ∧ length a' = length a + 4 + 1
    ∧ (∀ j p, fake_op_parameters k !! j = Some p →
         a' !! (length a + j)
         = Some (parameter_constant (bool_decide (element_type f32_out = f16))
                   (inserted_node_name k t) p))
    ∧ a' !! (length a + 4) = Some fake
    ∧ type_name fake = fake_op_type k
    ∧ inputs fake = (0, 0) :: ((λ j, (length a + j, 0)) <$> seq 0 4).
Proof.
  intros t k a.
  apply (inserted_constants_follow_edge_precision t k
           (_get_name_to_node_mapping shared_weight_model) a 0 f32_out);
    [reflexivity | by vm_compute | reflexivity].
Defined.

(** ** Weight update: the new constant takes over the name *)






(** ** Backward resolution that finds no constant *)








(** ** Output insertion *)

Lemma update_tensor_name_new (a : list node) (nd : node) (name : string) (d : tensor_desc) :
  outputs nd = [d] →
  _update_tensor_name (a ++ [nd]) [(length a, 0)] name
  = a ++ [set_outputs nd [add_tensor_name name d]].
Proof.
  intros Hd. unfold _update_tensor_name. cbn.
  rewrite alter_app_r_alt by done. rewrite Nat.sub_diag. cbn. by rewrite Hd.
Qed.

(** One round of the loop of [_insert_outputs]. *)
Lemma insert_outputs_step (a : list node) (o : nat * nat) (k : nat) (extra : list nat) :
  (let output_name := node_name a o.1 in
   let result_name := get_result_node_name output_name k in
   '(a1, r) ← opset_result a o result_name;
   Ok (_update_tensor_name a1 [(r, 0)] result_name, extra ++ [r]))
  = (d ← like_output a o; Ok (a ++ [result_node_for a o k d], extra ++ [length a])).
Proof.
  cbv zeta. unfold opset_result, new_node.
  destruct (like_output a o) as [d|]; [|done].
  cbn [mbind result_bind]. by rewrite (update_tensor_name_new _ _ _ d).
Qed.

Lemma insert_outputs_loop (outs : list (nat * nat * nat)) :
  ∀ (a : list node) (extra : list nat) a' extra',
    for_each (λ (o : nat * nat * nat) (s : list node * list nat),
                let output_name := node_name s.1 o.1.1 in
                let result_name := get_result_node_name output_name o.2 in
                '(a1, r) ← opset_result s.1 o.1 result_name;
                Ok (_update_tensor_name a1 [(r, 0)] result_name, s.2 ++ [r]))
             outs (a, extra) = Ok (a', extra') →
    extra' = extra ++ seq (length a) (length outs)
    ∧ length a' = length a + length outs
    ∧ (∀ i nd, a !! i = Some nd → a' !! i = Some nd)
    ∧ ∀ j o, outs !! j = Some o →
        ∃ d, a' !! (length a + j) = Some (result_node_for a' o.1 o.2 d)
             ∧ o.1.1 < length a + j.
Proof.
  induction outs as [|o outs IH]; intros a extra a' extra' H.
  { cbn in H. simplify_eq. cbn. rewrite app_nil_r. split; [done|]. split; [lia|].
    split; [done|]. by intros j o Hj. }
  rewrite for_each_cons in H. cbv beta zeta in H. cbn [fst snd] in H.
  pose proof (insert_outputs_step a o.1 o.2 extra) as Hstep. cbv zeta in Hstep.
  rewrite Hstep in H. clear Hstep.
  destruct (like_output a o.1) as [d|] eqn:Hd; [|done].
  cbn [mbind result_bind] in H.
  apply IH in H as (-> & Hlen & Hold & Hnew).
  rewrite length_app in *. cbn [length] in *.
  split. { rewrite <- app_assoc. cbn. by replace (length a + 1) with (S (length a)) by lia. }
  split; [lia|]. split.
  { intros i nd Hi. apply Hold. by apply lookup_app_l_Some. }
  assert (Hname : ∀ i, i < length a → node_name a' i = node_name a i).
  { intros i Hi. unfold node_name.
    destruct (lookup_lt_is_Some_2 a i Hi) as [nd Hnd].
    by rewrite Hnd, (Hold i nd (lookup_app_l_Some _ _ _ _ Hnd)). }
  pose proof (like_output_lt _ _ _ Hd) as Ho.
  intros [|j] o' Hj; cbn in Hj.
  - simplify_eq. exists d. rewrite Nat.add_0_r. split; [|lia].
    rewrite (Hold (length a) (result_node_for a o'.1 o'.2 d)).
    + unfold result_node_for. by rewrite Hname.
    + rewrite lookup_app_r by lia. by rewrite Nat.sub_diag.
  - destruct (Hnew j o' Hj) as (d' & Hd' & Hlt). exists d'.
    replace (length a + S j) with (length a + 1 + j) by lia. split; [done|lia].
Qed.

Lemma node_output_inv a n p o :
  node_output a n p = Ok o → o = (n, p) ∧ p < n_outputs a n.
Proof.
  unfold node_output, n_outputs. destruct (a !! n); cbn; [|done].
  case_decide; [|done]. by intros [= <-].
Qed.

Lemma get_extra_model_outputs_loop m ts :
  ∀ acc outs,
    for_each (λ (t : OVTargetPoint) (extra_model_outputs : list (nat * nat * nat)),
                nd ← getitem (_get_name_to_node_mapping m) (target_node_name t);
                if decide (target_type t = POST_LAYER_OPERATION) then
                  output ← node_output (arena m) nd (port_id t);
                  Ok (extra_model_outputs ++ [(output, port_id t)])
                else if decide (target_type t = PRE_LAYER_OPERATION
                                ∨ target_type t = OPERATION_WITH_WEIGHTS) then
                  output ← input_value (arena m) nd (port_id t);
                  Ok (extra_model_outputs ++ [(output, output.2)])
                else Err (NotImplementedError "Unsupported target point type"))
             ts acc = Ok outs →
    ∃ new, outs = acc ++ new ∧ Forall2 (addresses_output m) ts new.
Proof.
  induction ts as [|t ts IH]; intros acc outs H.
  { cbn in H. simplify_eq. exists []. by rewrite app_nil_r. }
  rewrite for_each_cons in H.
  destruct (getitem (_get_name_to_node_mapping m) (target_node_name t))
    as [tn|] eqn:Hmp; cbn [mbind result_bind] in H; [|done].
  unfold getitem in Hmp.
  destruct (_get_name_to_node_mapping m !! target_node_name t) as [tn'|] eqn:Hmp';
    cbn in Hmp; [|done].
  injection Hmp as ->.
  destruct (decide (target_type t = POST_LAYER_OPERATION)) as [Hpost|Hnpost].
  - destruct (node_output (arena m) tn (port_id t)) as [o|] eqn:Ho;
      cbn [mbind result_bind] in H; [|done].
    apply node_output_inv in Ho as [-> Hlt].
    apply IH in H as (new & -> & Hnew).
    exists (((tn, port_id t), port_id t) :: new). rewrite <- app_assoc. split; [done|].
    apply Forall2_cons. split; [|done]. exists tn. split; [done|]. by left.
  - destruct (decide (target_type t = PRE_LAYER_OPERATION
                      ∨ target_type t = OPERATION_WITH_WEIGHTS)) as [Hpre|Hnpre]; [|done].
    unfold input_value in H.
    destruct (get_source_output (arena m) (tn, port_id t)) as [s|] eqn:Hs;
      cbn [mbind result_bind] in H; [|done].
    apply IH in H as (new & -> & Hnew).
    exists ((s, s.2) :: new). rewrite <- app_assoc. split; [done|].
    apply Forall2_cons. split; [|done]. exists tn. split; [done|]. right. eauto.
Qed.

(** Output insertion keeps the graph and adds one result per command: the
    old nodes, the parameters and the old results are unchanged, the new
    results follow the old ones in command order, each new result reads
    the output its command addresses and is named after that output's node
    and port, with its name among its tensor names; the sinks are the
    [Assign] ops of the model. *)
Theorem output_insertion_appends_results (m m' : model) (ts : list OVTargetPoint) :
  _apply_output_insertion_transformations m ts = Ok m' →
  let a := arena m in
  ∃ outs,
    Forall2 (addresses_output m) ts outs
    ∧ parameters m' = parameters m
    ∧ results m' = results m ++ seq (length a) (length ts)
    ∧ sinks m' = filter (λ op, node_type_name a op = "Assign") (get_ops m)
    ∧ model_friendly_name m' = model_friendly_name m
    ∧ length (arena m') = length a + length ts
    ∧ (∀ i nd, a !! i = Some nd → arena m' !! i = Some nd)
    ∧ ∀ j o, outs !! j = Some o →
        ∃ d, arena m' !! (length a + j) = Some (result_node_for (arena m') o.1 o.2 d).
Proof.
  intros H a. unfold _apply_output_insertion_transformations in H.
  destruct (_get_extra_model_outputs m ts) as [outs|] eqn:Hextra;
    cbn [mbind result_bind] in H; [|done].
  apply get_extra_model_outputs_loop in Hextra as (new & -> & Hnew).
  rewrite app_nil_l in H. exists new. split; [done|].
  pose proof (Forall2_length _ _ _ Hnew) as Hlen.
  unfold _insert_outputs in H.
  destruct (for_each _ new (arena m, [])) as [[a' extra]|] eqn:Hloop;
    cbn [mbind result_bind] in H; [|done].
  injection H as <-.
  apply insert_outputs_loop in Hloop as (-> & Hlen' & Hold & Hres).
  cbn [arena parameters results sinks model_friendly_name]. fold a in Hlen', Hold, Hres |- *.
  rewrite Hlen. split; [done|]. split; [done|]. split.
  { by destruct m. }
  split; [done|]. split; [done|]. split; [done|].
  intros j o Hj. destruct (Hres j o Hj) as (d & Hd & _). eauto.
Qed.

Lemma output_insertion_appends_results_witness :
  let ts := [mk_target_point POST_LAYER_OPERATION "B" 0;
             mk_target_point PRE_LAYER_OPERATION "C" 0] in
  ∃ m', _apply_output_insertion_transformations fan_out_model ts = Ok m'
    ∧ ∃ outs,
        Forall2 (addresses_output fan_out_model) ts outs
        ∧ parameters m' = parameters fan_out_model
        ∧ results m' = results fan_out_model ++ seq (length fan_out_arena) (length ts)
        ∧ sinks m' = filter (λ op, node_type_name fan_out_arena op = "Assign")
                       (get_ops fan_out_model)
        ∧ model_friendly_name m' = model_friendly_name fan_out_model
        ∧ length (arena m') = length fan_out_arena + length ts
        ∧ (∀ i nd, fan_out_arena !! i = Some nd → arena m' !! i = Some nd)
        ∧ ∀ j o, outs !! j = Some o →
            ∃ d, arena m' !! (length fan_out_arena + j)
                 = Some (result_node_for (arena m') o.1 o.2 d).
Proof.
  intros ts. eexists. split; [by vm_compute|].
  apply (output_insertion_appends_results fan_out_model _ ts). by vm_compute.
Defined.

(** ** Bodies of conditional nodes *)

Lemma same_but_functions_refl a : same_but_functions a a.
Proof.
  split; [done|]. intros i nd Hi. exists (functions nd). rewrite Hi. by destruct nd.
Qed.

Lemma same_but_functions_trans a b c :
  same_but_functions a b → same_but_functions b c → same_but_functions a c.
Proof.
  intros [Hl1 H1] [Hl2 H2]. split; [congruence|].
  intros i nd Hi. destruct (H1 i nd Hi) as [fs Hb].
  destruct (H2 _ _ Hb) as [fs' Hc]. exists fs'. by rewrite Hc.
Qed.

Lemma same_but_functions_producers a a' i :
  same_but_functions a a' → producers a' i = producers a i.
Proof.
  intros [Hlen H]. unfold producers.
  destruct (a !! i) as [nd|] eqn:Hi.
  - destruct (H i nd Hi) as [fs ->]. done.
  - apply lookup_ge_None in Hi. rewrite (proj2 (lookup_ge_None a' i)); [done|lia].
Qed.

Lemma same_but_functions_name a a' i :
  same_but_functions a a' → node_name a' i = node_name a i.
Proof.
  intros [Hlen H]. unfold node_name.
  destruct (a !! i) as [nd|] eqn:Hi.
  - destruct (H i nd Hi) as [fs ->]. done.
  - apply lookup_ge_None in Hi. rewrite (proj2 (lookup_ge_None a' i)); [done|lia].
Qed.

Lemma same_but_functions_reach a a' fuel :
  same_but_functions a a' → ∀ s, reach a' fuel s = reach a fuel s.
Proof.
  intros Hs. induction fuel as [|fuel IH]; intros s; [done|].
  cbn [reach]. rewrite IH. do 3 f_equal.
  apply list_bind_ext; [|done]. intros i. by apply same_but_functions_producers.
Qed.

(** Replacing bodies changes neither the ops of a model nor its name index. *)
Lemma same_but_functions_name_mapping m a' :
  same_but_functions (arena m) a' →
  _get_name_to_node_mapping (set_arena m a') = _get_name_to_node_mapping m.
Proof.
  intros Hs. unfold _get_name_to_node_mapping.
  assert (get_ops (set_arena m a') = get_ops m) as ->.
  { unfold get_ops, roots. cbn [arena set_arena results sinks parameters].
    rewrite (same_but_functions_reach _ _ _ Hs). by rewrite (proj1 Hs). }
  cbn [arena set_arena]. f_equal. apply list_fmap_ext. intros _ op _.
  by rewrite (same_but_functions_name _ _ _ Hs).
Qed.

(** One [set_function]: the addressed slot holds the new body, every other
    slot is kept, and so is everything but the bodies. *)
Lemma update_if_body_step_slot mp t a a' :
  update_if_body_step mp t a = Ok a' →
  ∃ nd, mp !! target_node_name t.1 = Some nd
    ∧ body_slot a' nd (port_id t.1) = Some t.2
    ∧ (∀ n i, (n, i) ≠ (nd, port_id t.1) → body_slot a' n i = body_slot a n i)
    ∧ same_but_functions a a'.
Proof.
  unfold update_if_body_step, getitem.
  destruct (mp !! target_node_name t.1) as [nd|]; cbn [of_option mbind result_bind]; [|done].
  destruct (a !! nd) as [x|] eqn:Hx; cbn [of_option mbind result_bind]; [|done].
  case_decide as Hlt; [|done]. intros [= <-]. exists nd. split; [done|].
  pose proof (lookup_lt_Some _ _ _ Hx) as Hnd.
  split.
  { unfold body_slot. rewrite list_lookup_insert_eq by done. cbn.
    by rewrite list_lookup_insert_eq. }
  split.
  { intros n i Hne. unfold body_slot.
    destruct (decide (n = nd)) as [->|Hn].
    - rewrite list_lookup_insert_eq by done. rewrite Hx. cbn.
      rewrite list_lookup_insert_ne; [done|]. congruence.
    - by rewrite list_lookup_insert_ne. }
  split; [by rewrite length_insert|].
  intros i y Hi. destruct (decide (i = nd)) as [->|Hn].
  - rewrite list_lookup_insert_eq by done. simplify_eq. eauto.
  - rewrite list_lookup_insert_ne by done. exists (functions y). rewrite Hi. by destruct y.
Qed.

Lemma update_if_body_loop_same mp ts :
  ∀ a a', for_each (update_if_body_step mp) ts a = Ok a' → same_but_functions a a'.
Proof.
  induction ts as [|t ts IH]; intros a a' H.
  { cbn in H. simplify_eq. apply same_but_functions_refl. }
  rewrite for_each_cons in H.
  destruct (update_if_body_step mp t a) as [a1|] eqn:Hstep;
    cbn [mbind result_bind] in H; [|done].
  apply update_if_body_step_slot in Hstep as (_ & _ & _ & _ & Hs).
  eapply same_but_functions_trans; [exact Hs|by apply IH].
Qed.

(** A slot no command of the batch addresses keeps its body. *)
Lemma update_if_body_loop_other mp ts nd p :
  ∀ a a', for_each (update_if_body_step mp) ts a = Ok a' →
    Forall (λ u : OVTargetPoint * model,
              mp !! target_node_name u.1 = Some nd → port_id u.1 ≠ p) ts →
    body_slot a' nd p = body_slot a nd p.
Proof.
  induction ts as [|t ts IH]; intros a a' H Hts.
  { cbn in H. by simplify_eq. }
  rewrite for_each_cons in H.
  destruct (update_if_body_step mp t a) as [a1|] eqn:Hstep;
    cbn [mbind result_bind] in H; [|done].
  apply Forall_cons in Hts as [Ht Hts].
  apply update_if_body_step_slot in Hstep as (n & Hn & _ & Hother & _).
  rewrite (IH _ _ H Hts). apply Hother. intros [= -> Hp]. by apply Ht.
Qed.

Lemma get_function_body_slot a n i :
  get_function a n i = of_option (body_slot a n i) IndexError.
Proof. unfold get_function, body_slot. by destruct (a !! n). Qed.

(** A body put into a conditional node by an update batch is the body a
    later extraction from that node and slot returns, unless a later
    command of the batch addresses the same node name and slot; the update
    changes nothing but the bodies. *)
Theorem if_body_update_then_extract
    (m m' : model) (ts1 ts2 : list (OVTargetPoint * model)) (t : OVTargetPoint)
    (sub : model) (es : list (string * bool)) (cond : bool) :
  _apply_update_if_body_transformations m (ts1 ++ (t, sub) :: ts2) = Ok m' →
  Forall (λ u : OVTargetPoint * model,
            target_node_name u.1 = target_node_name t → port_id u.1 ≠ port_id t) ts2 →
  port_id t = body_index cond →
  _apply_extract_if_body_transformation m' (es ++ [(target_node_name t, cond)]) = Ok sub
  ∧ same_but_functions (arena m) (arena m')
  ∧ parameters m' = parameters m ∧ results m' = results m ∧ sinks m' = sinks m
  ∧ _get_name_to_node_mapping m' = _get_name_to_node_mapping m.
Proof.
  intros H Hts2 Hport. unfold _apply_update_if_body_transformations in H.
  cbv zeta in H.
  destruct (for_each _ _ (arena m)) as [a'|] eqn:Hloop;
    cbn [mbind result_bind] in H; [|done].
  injection H as <-.
  pose proof (update_if_body_loop_same _ _ _ _ Hloop) as Hsame.
  pose proof (same_but_functions_name_mapping m a' Hsame) as Hmp.
  split; [|done].
  rewrite for_each_app in Hloop.
  destruct (for_each _ ts1 (arena m)) as [a1|] eqn:H1;
    cbn [mbind result_bind] in Hloop; [|done].
  rewrite for_each_cons in Hloop.
  destruct (update_if_body_step _ (t, sub) a1) as [a2|] eqn:Hstep;
    cbn [mbind result_bind] in Hloop; [|done].
  apply update_if_body_step_slot in Hstep as (nd & Hnd & Hslot & _ & _).
  cbn [fst snd] in Hnd, Hslot.
  assert (Hfinal : body_slot a' nd (port_id t) = Some sub).
  { rewrite <- Hslot. eapply update_if_body_loop_other; [exact Hloop|].
    eapply Forall_impl; [exact Hts2|]. cbn. intros u Hu Hmu. apply Hu.
    apply name_to_node_mapping_Some in Hmu as [_ <-].
    by apply name_to_node_mapping_Some in Hnd as [_ <-]. }
  unfold _apply_extract_if_body_transformation.
  rewrite last_item_snoc. unfold last_item. cbn [last of_option mbind result_bind].
  cbv zeta. rewrite Hmp. unfold getitem. cbn [fst snd]. rewrite Hnd.
  cbn [of_option mbind result_bind arena set_arena].
  rewrite !get_function_body_slot. rewrite Hport in Hfinal.
  destruct cond; cbn [body_index] in Hfinal; by rewrite Hfinal.
Qed.

Lemma if_body_update_then_extract_witness :
  let t := mk_target_point PRE_LAYER_OPERATION "if" 1 in
  let sub := unary_body "Tanh" "new_else" in
  let ts1 := [(mk_target_point PRE_LAYER_OPERATION "if" 1, unary_body "Abs" "old")] in
  let ts2 := [(mk_target_point PRE_LAYER_OPERATION "if" 0, unary_body "Abs" "then2")] in
  let m := conditional_model in
  let m' := set_arena m
              (<[2 := set_functions
                        (mk_node "if" "If" [(0, 0); (1, 0)] [f32_out] None None None [])
                        [unary_body "Abs" "then2"; sub]]> conditional_arena) in
  _apply_extract_if_body_transformation m' [("res", true); ("if", false)] = Ok sub
  ∧ same_but_functions (arena m) (arena m')
  ∧ parameters m' = parameters m ∧ results m' = results m ∧ sinks m' = sinks m
  ∧ _get_name_to_node_mapping m' = _get_name_to_node_mapping m.
Proof.
  intros t sub ts1 ts2 m m'.
  apply (if_body_update_then_extract m m' ts1 ts2 t sub [("res", true)] false).
  - by vm_compute.
  - apply Forall_cons. split; [|by apply Forall_nil]. cbn. lia.
  - reflexivity.
Defined.

(** ** Bias insertion *)

(** A bias insertion on an existing output [o], whatever the type of the
    target point: a constant with the given value, cast to the element type
    of [o], and an [Add] of [o] and that constant are appended, both named
    after the target node; every port that read [o] reads the [Add], all
    other ports keep their source, and the old nodes are what they were but
    for their inputs. *)
Theorem bias_insertion_splices_add
    (mp : gmap string nat) (a : list node) (t : OVTargetPoint) (v : ndarray)
    (tn : nat) (d : tensor_desc) :
  let o := (tn, port_id t) in
  let name := target_node_name t +:+ "/nncf_null_bias_" in
  mp !! target_node_name t = Some tn →
  like_output a o = Ok d →
  ∃ a',
    bias_insertion_step mp (t, v) a = Ok a'
    ∧ length a' = length a + 2
    ∧ a' !! length a
      = Some (mk_node (name +:+ "/bias_value") "Constant" []
                [mk_tensor_desc (element_type d) (shape v) ∅]
                (Some (astype v (element_type d))) None None [])
    ∧ a' !! S (length a) = Some (plain_node name "Add" [o; (length a, 0)] [d])
    ∧ (∀ q, get_source_output a q = Ok o → get_source_output a' q = Ok (S (length a), 0))
    ∧ (∀ q, q.1 < length a → get_source_output a q ≠ Ok o →
         get_source_output a' q = get_source_output a q)
    ∧ same_but_inputs a a'.
Proof.
  intros o name Hmp Hd.
  set (c := mk_node (name +:+ "/bias_value") "Constant" []
              [mk_tensor_desc (element_type d) (shape v) ∅]
              (Some (astype v (element_type d))) None None []).
  set (ad := plain_node name "Add" [o; (length a, 0)] [d]).
  set (a2 := (a ++ [c]) ++ [ad]).
  assert (Hstep : bias_insertion_step mp (t, v) a
                  = Ok (rebind a2 (get_target_inputs a o) (S (length a), 0))).
  { unfold bias_insertion_step, getitem. cbn [fst snd]. rewrite Hmp.
    cbn [of_option mbind result_bind].
    rewrite (like_output_node_output a tn (port_id t) d Hd).
    cbn [mbind result_bind].
    rewrite (like_output_element_type a (tn, port_id t) d Hd). cbn [mbind result_bind].
    unfold _create_constant, new_node, opset_add, opset_binary.
    rewrite (like_output_app a _ (tn, port_id t) d Hd). cbn [mbind result_bind].
    fold name. fold c.
    assert (like_output (a ++ [c]) (length a, 0)
            = Ok (mk_tensor_desc (element_type d) (shape v) ∅)) as ->.
    { unfold like_output. cbn [fst snd]. rewrite lookup_app_r by lia.
      by rewrite Nat.sub_diag. }
    cbn [mbind result_bind new_node]. rewrite length_app. cbn [length].
    by replace (length a + 1) with (S (length a)) by lia. }
  assert (Hold : ∀ i nd, a !! i = Some nd → a2 !! i = Some nd).
  { intros i nd Hi. unfold a2. by do 2 apply lookup_app_l_Some. }
  assert (Hps : ∀ p, p ∈ get_target_inputs a o → p.1 < length a).
  { intros p Hp%elem_of_get_target_inputs. by eapply get_source_output_lt. }
  assert (Hc : a2 !! length a = Some c).
  { unfold a2. apply lookup_app_l_Some. rewrite lookup_app_r by lia.
    by rewrite Nat.sub_diag. }
  assert (Had : a2 !! S (length a) = Some ad).
  { unfold a2. rewrite lookup_app_r by (rewrite length_app; cbn; lia).
    rewrite length_app. cbn [length].
    by replace (S (length a) - (length a + 1)) with 0 by lia. }
  exists (rebind a2 (get_target_inputs a o) (S (length a), 0)).
  split; [done|]. split.
  { rewrite length_rebind. unfold a2. rewrite !length_app. cbn. lia. }
  split. { rewrite lookup_rebind_other; [done|]. intros p Hp%Hps. lia. }
  split. { rewrite lookup_rebind_other; [done|]. intros p Hp%Hps. lia. }
  split. { intros q Hq. eapply get_source_output_rebind_in.
           - by apply elem_of_get_target_inputs.
           - apply get_source_output_Ok in Hq as (nd & Hnd & Hin).
             apply get_source_output_Ok. exists nd. split; [by apply Hold|done]. }
  split. { intros q Hqlt Hq. rewrite get_source_output_rebind_notin.
           - unfold get_source_output.
             destruct (lookup_lt_is_Some_2 a q.1 Hqlt) as [nd Hnd].
             by rewrite Hnd, (Hold _ _ Hnd).
           - by rewrite elem_of_get_target_inputs. }
  eapply same_but_inputs_trans; [|apply same_but_inputs_rebind].
  intros i nd Hi. exists (inputs nd). rewrite (Hold i nd Hi). by destruct nd.
Qed.

Lemma bias_insertion_splices_add_witness :
  let t := mk_target_point POST_LAYER_OPERATION "conv2" 0 in
  let mp := _get_name_to_node_mapping shared_weight_model in
  let a := shared_weight_arena in
  let v := vec f32 [1; 2; 3; 4]%Q in
  ∃ a',
    bias_insertion_step mp (t, v) a = Ok a'
    ∧ length a' = length a + 2
    ∧ a' !! length a
      = Some (mk_node "conv2/nncf_null_bias_/bias_value" "Constant" []
                [mk_tensor_desc f32 (shape v) ∅] (Some (astype v f32)) None None [])
    ∧ a' !! S (length a)
      = Some (plain_node "conv2/nncf_null_bias_" "Add" [(3, 0); (length a, 0)] [f32_out])
    ∧ (∀ q, get_source_output a q = Ok (3, 0) →
         get_source_output a' q = Ok (S (length a), 0))
    ∧ (∀ q, q.1 < length a → get_source_output a q ≠ Ok (3, 0) →
         get_source_output a' q = get_source_output a q)
    ∧ same_but_inputs a a'.
Proof.
  intros t mp a v.
  apply (bias_insertion_splices_add mp a t v 3 f32_out); [by vm_compute | reflexivity].
Defined.

(** ** Precision of the scale constant *)

Lemma all_fp16_false a ports : 
  for_each (λ p (acc : bool),
              if acc then dt ← input_element_type a p; Ok (bool_decide (dt = f16))
              else Ok false) ports false = Ok false.
Proof. induction ports as [|p ports IH]; [done|]. by rewrite for_each_cons. Qed.

Lemma all_fp16_Ok a ports b :
  all_fp16 a ports = Ok b →
  if b then Forall (λ p, input_element_type a p = Ok f16) ports
  else Exists (λ p, ∃ dt, input_element_type a p = Ok dt ∧ dt ≠ f16) ports.
Proof.
  unfold all_fp16. induction ports as [|p ports IH]; intros H.
  { cbn in H. by simplify_eq. }
  rewrite for_each_cons in H.
  destruct (input_element_type a p) as [dt|] eqn:Hdt; cbn [mbind result_bind] in H; [|done].
  case_bool_decide as Hf; subst.
  - specialize (IH H). destruct b; [by apply Forall_cons|by apply Exists_cons_tl].
  - rewrite all_fp16_false in H. simplify_eq. apply Exists_cons_hd. eauto.
Qed.

(** The scale constant of a multiply insertion is the node appended first,
    named after the multiply node; it is f16 when every listed consumer
    port of the target output reads an f16 tensor, which includes the case
    that no consumer is listed, and f32 as soon as one of them reads
    another type; its value is the command's scale cast to that type. *)
Theorem multiply_scale_constant_precision
    (mp : gmap string node_id) (t : multiply_payload) (a a' : list node) :
  multiply_insertion_step mp t a = Ok a' →
  ∃ target (dt : dtype),
    let ps := destination_ports_of a (target, port_id (mul_target_point t))
                (mul_destination_node_names t) in
    mp !! target_node_name (mul_target_point t) = Some target
    ∧ a' !! length a
      = Some (mk_node (mul_multiply_node_name t +:+ "/scale") "Constant" []
                [mk_tensor_desc dt (shape (mul_scale_value t)) ∅]
                (Some (astype (mul_scale_value t) dt)) None None [])
    ∧ (dt = f16 ∧ Forall (λ p, input_element_type a p = Ok f16) ps
       ∨ dt = f32 ∧ Exists (λ p, ∃ x, input_element_type a p = Ok x ∧ x ≠ f16) ps)
    ∧ (ps = [] → dt = f16).
Proof.
  unfold multiply_insertion_step, getitem. intros H.
  destruct (mp !! target_node_name (mul_target_point t)) as [target|] eqn:Hmp;
    cbn [of_option mbind result_bind] in H; [|done].
  destruct (node_output a target (port_id (mul_target_point t))) as [o|] eqn:Ho;
    cbn [mbind result_bind] in H; [|done].
  apply node_output_Ok in Ho as ->.
  set (o := (target, port_id (mul_target_point t))) in *.
  set (ps := destination_ports_of a o (mul_destination_node_names t)) in *.
  destruct (all_fp16 a ps) as [fp16|] eqn:Hfp; cbn [mbind result_bind] in H; [|done].
  unfold _create_constant, new_node in H. cbv beta iota zeta in H.
  unfold opset_multiply, opset_binary in H.
  destruct (like_output _ o) as [d|] eqn:Hd; cbn [mbind result_bind] in H; [|done].
  destruct (like_output _ (length a, 0)) as [d'|] eqn:Hd';
    cbn [mbind result_bind] in H; [|done].
  unfold new_node in H. cbv beta iota zeta in H.
  change (foldl (λ a' p, replace_source_output a' p ?o') ?x ?y)
    with (rebind x y o') in H.
  injection H as <-.
  exists target, (if fp16 then f16 else f32). cbv zeta. fold o. fold ps.
  split; [done|]. split.
  { rewrite lookup_rebind_other.
    - apply lookup_app_l_Some. rewrite lookup_app_r by lia. by rewrite Nat.sub_diag.
    - intros p [_ Hp%elem_of_get_target_inputs%get_source_output_lt]%list_elem_of_filter.
      lia. }
  apply all_fp16_Ok in Hfp. split.
  - destruct fp16; [left|right]; done.
  - intros Hnil. rewrite Hnil in Hfp. destruct fp16; [done|]. by apply Exists_nil in Hfp.
Qed.

Lemma multiply_scale_constant_precision_witness :
  let t := mk_multiply_payload (mk_target_point POST_LAYER_OPERATION "A" 0)
             (vec f32 [1; 2; 3; 4]%Q) ["nobody"] "A/scaled" in
  let mp := _get_name_to_node_mapping fan_out_model in
  let a := fan_out_arena in
  let a' := a ++ [ mk_node "A/scaled/scale" "Constant" []
                     [mk_tensor_desc f16 [4] ∅]
                     (Some (astype (vec f32 [1; 2; 3; 4]%Q) f16)) None None [];
                   plain_node "A/scaled" "Multiply" [(0, 0); (5, 0)] [f32_out] ] in
  ∃ target (dt : dtype),
    let ps := destination_ports_of a (target, 0) ["nobody"] in
    mp !! "A" = Some target
    ∧ a' !! length a
      = Some (mk_node "A/scaled/scale" "Constant" []
                [mk_tensor_desc dt [4] ∅]
                (Some (astype (vec f32 [1; 2; 3; 4]%Q) dt)) None None [])
    ∧ (dt = f16 ∧ Forall (λ p, input_element_type a p = Ok f16) ps
       ∨ dt = f32 ∧ Exists (λ p, ∃ x, input_element_type a p = Ok x ∧ x ≠ f16) ps)
    ∧ (ps = [] → dt = f16).
Proof.
  intros t mp a a'.
  apply (multiply_scale_constant_precision mp t a a'). by vm_compute.
Defined.

(** ** Model extraction *)

Lemma replace_source_output_app_l a l p o :
  p.1 < length a →
  replace_source_output (a ++ l) p o = replace_source_output a p o ++ l.
Proof.
  intros Hlt. unfold replace_source_output. apply list_eq. intros i.
  destruct (decide (i = p.1)) as [->|Hne].
  - rewrite list_lookup_alter_eq, !lookup_app_l by (by rewrite ?length_alter).
    by rewrite list_lookup_alter_eq.
  - rewrite list_lookup_alter_ne by done.
    destruct (decide (i < length a)) as [Hi|Hi].
    + rewrite !lookup_app_l by (by rewrite ?length_alter).
      by rewrite list_lookup_alter_ne.
    + rewrite !lookup_app_r by (rewrite ?length_alter; lia). by rewrite length_alter.
Qed.

Lemma node_input_inv a n p q :
  node_input a n p = Ok q → q = (n, p) ∧ n < length a.
Proof.
  unfold node_input. destruct (a !! n) as [nd|] eqn:Hn; cbn; [|done].
  case_decide; [|done]. intros [= <-]. split; [done|]. by eapply lookup_lt_Some.
Qed.

Lemma get_source_output_extend a a' q s :
  (∀ i nd, a !! i = Some nd → a' !! i = Some nd) →
  get_source_output a q = Ok s → get_source_output a' q = Ok s.
Proof.
  intros Hext (nd & Hnd & Hs)%get_source_output_Ok. apply get_source_output_Ok.
  exists nd. split; [by apply Hext|done].
Qed.

(** The input step on a name that is not a model input, in closed form. *)
Lemma extraction_input_step_new m mp name port a params nd a' params' :
  mp !! name = Some nd →
  name ∉ node_name a <$> parameters m →
  extraction_input_step m mp (name, port) (a, params) = Ok (a', params') →
  ∃ s d, get_source_output a (nd, port) = Ok s
    ∧ params' = params ++ [length a]
    ∧ a' = replace_source_output a (nd, port) (length a, 0)
           ++ [plain_node (get_parameter_node_name name port) "Parameter" []
                 [add_tensor_name (get_parameter_node_name name port) d]].
Proof.
  intros Hmp Hnin H. unfold extraction_input_step, getitem in H. rewrite Hmp in H.
  cbn [of_option mbind result_bind] in H. rewrite decide_False in H by done.
  destruct (node_input a nd port) as [q|] eqn:Hq; cbn [mbind result_bind] in H; [|done].
  apply node_input_inv in Hq as [-> Hlt].
  destruct (get_source_output a (nd, port)) as [s|] eqn:Hs;
    cbn [mbind result_bind] in H; [|done].
  destruct (like_output a s) as [d|] eqn:Hd; cbn [mbind result_bind] in H; [|done].
  unfold opset_parameter, new_node in H. cbv beta iota zeta in H.
  rewrite replace_source_output_app_l in H by done.
  pose proof (update_tensor_name_new (replace_source_output a (nd, port) (length a, 0))) as Hu.
  rewrite length_replace_source_output in Hu.
  rewrite (Hu _ _ (mk_tensor_desc (element_type d) (partial_shape d) ∅)) in H by done.
  injection H as <- <-. eauto.
Qed.

Lemma extraction_input_step_Ok m mp inp a params a' params' nd :
  mp !! inp.1 = Some nd → nd < length a →
  extraction_input_step m mp inp (a, params) = Ok (a', params') →
  ∃ p, params' = params ++ [p]
    ∧ p < length a'
    ∧ same_but_inputs a a'
    ∧ (∀ q, q ≠ (nd, inp.2) → q.1 < length a →
         get_source_output a' q = get_source_output a q)
    ∧ if decide (inp.1 ∈ node_name a <$> parameters m) then p = nd ∧ a' = a
      else p = length a
           ∧ node_type_name a' p = "Parameter"
           ∧ node_name a' p = get_parameter_node_name inp.1 inp.2
           ∧ get_source_output a' (nd, inp.2) = Ok (p, 0).
Proof.
  destruct inp as [name port]. cbn [fst snd]. intros Hmp Hnd H.
  destruct (decide (name ∈ node_name a <$> parameters m)) as [Hin|Hnin].
  - unfold extraction_input_step, getitem in H. rewrite Hmp in H.
    cbn [of_option mbind result_bind] in H. rewrite decide_True in H by done.
    injection H as <- <-. exists nd. split; [done|]. split; [done|].
    split; [apply same_but_inputs_refl|]. done.
  - destruct (extraction_input_step_new _ _ _ _ _ _ _ _ _ Hmp Hnin H)
      as (s & d & Hs & -> & ->).
    exists (length a). split; [done|].
    split; [rewrite length_app, length_replace_source_output; cbn; lia|].
    split.
    { eapply same_but_inputs_trans; [apply same_but_inputs_replace|].
      apply same_but_inputs_app. }
    split.
    { intros q Hne Hq. rewrite get_source_output_app_lt
        by (by rewrite length_replace_source_output).
      by apply get_source_output_replace_ne. }
    split; [done|].
    assert (Hl : ∀ x, (replace_source_output a (nd, port) (length a, 0) ++ [x]) !! length a
                      = Some x).
    { intros x. rewrite lookup_app_r by (rewrite length_replace_source_output; lia).
      by rewrite length_replace_source_output, Nat.sub_diag. }
    split; [unfold node_type_name; by rewrite Hl|].
    split; [unfold node_name; by rewrite Hl|].
    rewrite get_source_output_app_lt by (by rewrite length_replace_source_output).
    by eapply get_source_output_replace_eq.
Qed.

Lemma name_to_node_mapping_lt m n i :
  _get_name_to_node_mapping m !! n = Some i → i < length (arena m).
Proof. intros [Hi _]%name_to_node_mapping_Some. by apply elem_of_get_ops in Hi as [? _]. Qed.

Lemma extraction_input_step_key m mp inp s s' :
  extraction_input_step m mp inp s = Ok s' → ∃ nd, mp !! inp.1 = Some nd.
Proof.
  destruct s as [a params], inp as [name port]. unfold extraction_input_step, getitem.
  cbn [fst]. destruct (mp !! name) as [nd|]; [eauto|done].
Qed.

Lemma input_names_same m a :
  Forall (λ p, p < length (arena m)) (parameters m) →
  same_but_inputs (arena m) a →
  node_name a <$> parameters m = node_name (arena m) <$> parameters m.
Proof.
  intros Hwf Hsame. apply list_fmap_ext. intros _ p Hp%list_elem_of_lookup_2.
  apply same_but_inputs_name; [done|]. by apply (proj1 (Forall_forall _ _) Hwf).
Qed.

Lemma extracted_input_extend m a a' ins j inp p :
  (∀ i nd, a !! i = Some nd → a' !! i = Some nd) →
  extracted_input m a ins j inp p → extracted_input m a' ins j inp p.
Proof.
  intros Hext (nd & Hmp & Hp & H). exists nd. split; [done|].
  destruct (lookup_lt_is_Some_2 a p Hp) as [x Hx].
  pose proof (Hext _ _ Hx) as Hx'. split; [by eapply lookup_lt_Some|].
  case_decide; [done|]. destruct H as (Hge & Hty & Hname & Hport).
  unfold node_type_name, node_name in *. rewrite Hx in Hty, Hname. rewrite Hx'.
  split; [done|]. split; [done|]. split; [done|].
  intros Hk. eapply get_source_output_extend; [exact Hext|by apply Hport].
Qed.

Lemma extraction_inputs_loop m ins :
  Forall (λ p, p < length (arena m)) (parameters m) →
  ∀ a params,
    for_each (extraction_input_step m (_get_name_to_node_mapping m)) ins (arena m, [])
    = Ok (a, params) →
    same_but_inputs (arena m) a
    ∧ length params = length ins
    ∧ ∀ j inp, ins !! j = Some inp →
        ∃ p, params !! j = Some p ∧ extracted_input m a ins j inp p.
Proof.
  intros Hwf. induction ins as [|inp ins IH] using rev_ind; intros a params H.
  { cbn in H. simplify_eq. split; [apply same_but_inputs_refl|]. split; [done|].
    by intros j inp Hj. }
  rewrite for_each_app in H.
  destruct (for_each _ ins (arena m, [])) as [[a1 params1]|] eqn:H1;
    cbn [mbind result_bind] in H; [|done].
  destruct (IH _ _ eq_refl) as (Hsame & Hlen & Hdone). clear IH.
  rewrite for_each_cons in H.
  destruct (extraction_input_step _ _ inp (a1, params1)) as [[a2 params2]|] eqn:Hstep;
    cbn [mbind result_bind for_each] in H; [|done].
  injection H as <- <-.
  destruct (extraction_input_step_key _ _ _ _ _ Hstep) as [nd Hnd].
  pose proof (name_to_node_mapping_lt _ _ _ Hnd) as Hndlt.
  pose proof (same_but_inputs_length _ _ Hsame) as Hle.
  assert (Hnd1 : nd < length a1) by lia.
  destruct (extraction_input_step_Ok _ _ _ _ _ _ _ nd Hnd Hnd1 Hstep)
    as (p & -> & Hp & Hsame2 & Hother & Hcase).
  rewrite (input_names_same m a1 Hwf Hsame) in Hcase.
  pose proof (same_but_inputs_length _ _ Hsame2) as Hle2.
  split; [by eapply same_but_inputs_trans|].
  split; [rewrite !length_app; cbn; lia|].
  intros j inp' Hj.
  destruct (decide (j < length ins)) as [Hlt|Hge].
  - rewrite lookup_app_l in Hj by done.
    destruct (Hdone j inp' Hj) as (p' & Hp' & nd' & Hnd' & Hp'lt & H').
    exists p'. split; [by apply lookup_app_l_Some|].
    exists nd'. split; [done|]. split; [lia|].
    case_decide as Hin'; [done|]. destruct H' as (Hge' & Hty & Hname & Hport).
    split; [done|].
    split; [by rewrite (same_but_inputs_type _ _ _ Hsame2)|].
    split; [by rewrite (same_but_inputs_name _ _ _ Hsame2)|].
    intros Hk.
    assert (Hne : inp' ≠ inp).
    { intros ->. apply (Hk (length ins)); [done|].
      rewrite lookup_app_r by lia. by rewrite Nat.sub_diag. }
    rewrite Hother.
    + apply Hport. intros k Hjk Hk'. apply (Hk k Hjk).
      by apply lookup_app_l_Some.
    + intros [= -> Hport']. apply Hne.
      apply name_to_node_mapping_Some in Hnd as [_ Hn1].
      apply name_to_node_mapping_Some in Hnd' as [_ Hn2].
      destruct inp, inp'; cbn in *; congruence.
    + cbn. pose proof (name_to_node_mapping_lt _ _ _ Hnd'). lia.
  - apply lookup_lt_Some in Hj as Hjlt. rewrite length_app in Hjlt. cbn in Hjlt.
    assert (j = length ins) as -> by lia.
    rewrite lookup_app_r in Hj by lia. rewrite Nat.sub_diag in Hj. cbn in Hj.
    simplify_eq. exists p. split.
    { rewrite lookup_app_r by lia. by rewrite Hlen, Nat.sub_diag. }
    exists nd. split; [done|]. split; [done|].
    case_decide as Hin; [by destruct Hcase|].
    destruct Hcase as (-> & Hty & Hname & Hport).
    split; [lia|]. done.
Qed.

(** The output step in closed form. *)
Lemma extraction_output_step_Ok mp out a rs a1 rs1 :
  extraction_output_step mp out (a, rs) = Ok (a1, rs1) →
  ∃ nd d, mp !! out.1 = Some nd
    ∧ rs1 = rs ++ [length a]
    ∧ a1 = a ++ [mk_node (get_result_node_name out.1 out.2) "Result" [(nd, out.2)]
                   [add_tensor_name (get_result_node_name out.1 out.2) d]
                   None None None []].
Proof.
  destruct out as [name port]. unfold extraction_output_step, getitem. cbn [fst snd].
  intros H.
  destruct (mp !! name) as [nd|]; cbn [of_option mbind result_bind] in H; [|done].
  destruct (node_output a nd port) as [o|] eqn:Ho; cbn [mbind result_bind] in H; [|done].
  apply node_output_Ok in Ho as ->.
  unfold opset_result, new_node in H.
  destruct (like_output a (nd, port)) as [d|] eqn:Hd; cbn [mbind result_bind] in H; [|done].
  rewrite (update_tensor_name_new _ _ _ d) in H by done.
  injection H as <- <-. eauto.
Qed.

Lemma extraction_outputs_loop m outs :
  ∀ a rs a' rs',
    length (arena m) ≤ length a →
    for_each (extraction_output_step (_get_name_to_node_mapping m)) outs (a, rs)
    = Ok (a', rs') →
    (∀ i nd, a !! i = Some nd → a' !! i = Some nd)
    ∧ rs' = rs ++ seq (length a) (length outs)
    ∧ ∀ j out, outs !! j = Some out → extracted_output m a' out (length a + j).
Proof.
  induction outs as [|out outs IH]; intros a rs a' rs' Hle H.
  { cbn in H. simplify_eq. split; [done|]. split; [by rewrite app_nil_r|].
    by intros j out Hj. }
  rewrite for_each_cons in H.
  destruct (extraction_output_step _ out (a, rs)) as [[a1 rs1]|] eqn:Hstep;
    cbn [mbind result_bind] in H; [|done].
  apply extraction_output_step_Ok in Hstep as (nd & d & Hnd & -> & ->).
  apply IH in H as (Hext & -> & Hres); [|rewrite length_app; lia].
  rewrite length_app in Hres |- *. cbn [length] in *.
  split; [intros i x Hi; by apply Hext, lookup_app_l_Some|].
  split. { rewrite <- app_assoc. cbn. by replace (length a + 1) with (S (length a)) by lia. }
  intros [|j] o Hj; cbn in Hj.
  - simplify_eq. exists nd, d. split; [done|]. split; [lia|].
    apply Hext. rewrite Nat.add_0_r, lookup_app_r by lia. by rewrite Nat.sub_diag.
  - replace (length a + S j) with (length a + 1 + j) by lia. by apply Hres.
Qed.

(** Model extraction, for the last command of the batch: the extracted
    model has one parameter per input id, in order (the named node for a
    model input, otherwise a new [Parameter] that the addressed input port
    now reads) and one new [Result] per output id, in order, or the results
    of the source model when the command has no output id; it has no
    sinks, and the old nodes are what they were but for their inputs. *)
Theorem model_extraction_interface
    (m m' : model) (ts : list (list (string * nat) * list (string * nat)))
    (ins outs : list (string * nat)) :
  Forall (λ p, p < length (arena m)) (parameters m) →
  _apply_model_extraction_transformation m (ts ++ [(ins, outs)]) = Ok m' →
  same_but_inputs (arena m) (arena m')
  ∧ sinks m' = []
  ∧ length (parameters m') = length ins
  ∧ (∀ j inp, ins !! j = Some inp →
       ∃ p, parameters m' !! j = Some p ∧ extracted_input m (arena m') ins j inp p)
  ∧ (outs = [] → results m' = results m)
  ∧ (outs ≠ [] → length (results m') = length outs)
  ∧ (∀ j out, outs !! j = Some out →
       ∃ r, results m' !! j = Some r ∧ extracted_output m (arena m') out r).
Proof.
  intros Hwf H. unfold _apply_model_extraction_transformation in H.
  rewrite last_item_snoc in H. unfold last_item in H.
  cbn [last of_option mbind result_bind fst snd] in H. cbv zeta in H.
  destruct (for_each _ ins (arena m, [])) as [[a1 params]|] eqn:Hins;
    cbn [mbind result_bind] in H; [|done].
  destruct (for_each _ outs (a1, [])) as [[a2 rs]|] eqn:Houts;
    cbn [mbind result_bind] in H; [|done].
  injection H as <-. cbn [arena sinks parameters results].
  apply extraction_inputs_loop in Hins as (Hsame & Hlen & Hparams); [|done].
  pose proof (same_but_inputs_length _ _ Hsame) as Hle.
  apply extraction_outputs_loop in Houts as (Hext & -> & Hres); [|done].
  rewrite app_nil_l in *.
  split.
  { eapply same_but_inputs_trans; [exact Hsame|]. intros i nd Hi.
    exists (inputs nd). rewrite (Hext _ _ Hi). by destruct nd. }
  split; [done|]. split; [done|]. split.
  { intros j inp Hj. destruct (Hparams j inp Hj) as (p & Hp & Hx). exists p.
    split; [done|]. by eapply extracted_input_extend. }
  split. { intros ->. cbn. by rewrite decide_True. }
  split. { intros Hne. rewrite decide_False; [by rewrite length_seq|].
           destruct outs; [done|]. cbn. done. }
  intros j out Hj. exists (length a1 + j). split; [|by apply Hres].
  apply lookup_lt_Some in Hj as Hlt.
  rewrite decide_False by (destruct outs; [cbn in Hlt; lia|done]).
  by apply lookup_seq.
Qed.

Lemma model_extraction_interface_witness :
  let m := shared_weight_model in
  let ins := [("input", 0); ("conv2", 1)] in
  let outs := [("conv2", 0)] in
  ∃ m', _apply_model_extraction_transformation m [([], []); (ins, outs)] = Ok m'
    ∧ same_but_inputs (arena m) (arena m')
    ∧ sinks m' = []
    ∧ length (parameters m') = length ins
    ∧ (∀ j inp, ins !! j = Some inp →
         ∃ p, parameters m' !! j = Some p ∧ extracted_input m (arena m') ins j inp p)
    ∧ (outs = [] → results m' = results m)
    ∧ (outs ≠ [] → length (results m') = length outs)
    ∧ (∀ j out, outs !! j = Some out →
         ∃ r, results m' !! j = Some r ∧ extracted_output m (arena m') out r).
Proof.
  intros m ins outs. eexists. split; [by vm_compute|].
  apply (model_extraction_interface m _ [([], [])] ins outs); [|by vm_compute].
  apply Forall_cons. split; [cbn; lia|by apply Forall_nil].
Defined.

(** ** Equality of percentile statistics *)

Lemma percentile_loop_spec (od : gmap string Tensor) (l : list (string * Tensor))
    (acc : bool) :
  Forall (λ kv : string * Tensor, is_Some (od !! kv.1)) l →
  ∃ b, for_each (λ (kv : string * Tensor) (acc : bool),
                   if acc then
                     o ← of_option (od !! kv.1) (KeyError kv.1);
                     Ok (allclose kv.2 o)
                   else Ok false) l acc = Ok b
       ∧ (b = true ↔
          acc = true
          ∧ Forall (λ kv : string * Tensor,
                      ∃ y, od !! kv.1 = Some y ∧ allclose kv.2 y = true) l).
Proof.
  revert acc. induction l as [|kv l IH]; intros acc Hl.
  { exists acc. split; [done|]. split; [by intros ->|by intros [-> _]]. }
  apply Forall_cons in Hl as [[y Hy] Hl]. rewrite for_each_cons.
  destruct acc.
  - rewrite Hy. cbn [of_option mbind result_bind].
    destruct (IH (allclose kv.2 y) Hl) as (b & Hb & Hiff). exists b. split; [done|].
    rewrite Hiff. split.
    + intros [Hc Hall]. split; [done|]. apply Forall_cons. eauto.
    + intros [_ [(y' & Hy' & Hc) Hall]%Forall_cons]. by simplify_eq.
  - cbn [mbind result_bind]. destruct (IH false Hl) as (b & Hb & Hiff).
    exists b. split; [done|]. rewrite Hiff. split; by intros [? _].
Qed.

(** Comparing two percentile statistics never raises: the comparison of
    the key sets guards the loop that reads [other] at the keys of [self].
    The result is [True] exactly when both have the same keys and the
    values at every key are close. *)
Theorem percentile_eq_same_keys_and_close (d od : gmap string Tensor) :
  ∃ b, eq_stat (PercentileTensorStatistic d) (PercentileTensorStatistic od) = Ok b
    ∧ (b = true ↔
       dom d = dom od
       ∧ ∀ k x, d !! k = Some x → ∃ y, od !! k = Some y ∧ allclose x y = true).
Proof.
  cbn [eq_stat]. case_bool_decide as Hdom.
  - destruct (percentile_loop_spec od (map_to_list d) true) as (b & Hb & Hiff).
    { apply Forall_forall. intros [k x] Hkx%elem_of_map_to_list. cbn.
      apply elem_of_dom. rewrite <- Hdom. apply elem_of_dom. eauto. }
    exists b. split; [exact Hb|]. rewrite Hiff. split.
    + intros [_ Hall]. split; [done|]. intros k x Hkx.
      apply elem_of_map_to_list in Hkx.
      by apply (proj1 (Forall_forall _ _) Hall) in Hkx.
    + intros [_ Hall]. split; [done|]. apply Forall_forall.
      intros [k x] Hkx%elem_of_map_to_list. by apply Hall.
  - exists false. split; [done|]. split; [done|]. by intros [? _].
Qed.

(** ** A replacement value of the wrong size *)

(** When the constant that the walk finds holds a different number of
    elements than the replacement value, [_set_const_value] raises
    ValueError from the reshape, and so does a weight update addressing
    that port. *)
Theorem set_const_value_wrong_size_fails
    (m : model) (t : OVTargetPoint) (value : ndarray) (tn : nat) (src : nat * nat)
    (steps : nat) (const_port : nat * nat) (const_node : nat) (nd : node)
    (old : ndarray) :
  let a := arena m in
  _get_name_to_node_mapping m !! target_node_name t = Some tn →
  get_source_output a (tn, port_id t) = Ok src →
  walk a (tn, port_id t) src.1 steps const_port const_node →
  a !! const_node = Some nd →
  data nd = Some old →
  numel (shape old) ≠ length (flat value) →
  _set_const_value a tn (port_id t) value = Err ValueError
  ∧ _apply_weight_update_transformations m [(t, value)] = Err ValueError.
Proof.
  intros a Hmp Hsrc Hwalk Hnd Hdata Hsize.
  pose proof (find_const_walk _ _ _ _ _ _ Hwalk) as Hfind.
  assert (Hset : _set_const_value a tn (port_id t) value = Err ValueError).
  { unfold _set_const_value, input_value.
    rewrite (get_source_output_node_input _ _ _ _ Hsrc). cbn [mbind result_bind].
    rewrite Hsrc. cbn [mbind result_bind]. rewrite Hfind. cbn [mbind result_bind].
    rewrite Hnd. cbn [of_option mbind result_bind]. rewrite Hdata.
    cbn [of_option mbind result_bind]. unfold np_reshape.
    by rewrite decide_False. }
  split; [done|].
  unfold _apply_weight_update_transformations. cbn.
  unfold weight_update_step at 1, getitem. cbn. rewrite Hmp. cbn. fold a.
  by rewrite Hset.
Qed.

Lemma set_const_value_wrong_size_fails_witness :
  let m := compressed_bias_model in
  let t := mk_target_point OPERATION_WITH_WEIGHTS "add" 1 in
  let value := vec f32 [1; 2; 3]%Q in
  _set_const_value (arena m) 5 1 value = Err ValueError
  ∧ _apply_weight_update_transformations m [(t, value)] = Err ValueError.
Proof.
  intros m t value.
  apply (set_const_value_wrong_size_fails m t value 5 (4, 0) 2 (4, 0) 3
           (const_node "bias" (vec f16 [0; 0; 0; 0]%Q)) (vec f16 [0; 0; 0; 0]%Q));
    try reflexivity.
  - eapply walk_next; [reflexivity|done|reflexivity|].
    eapply walk_found; reflexivity.
  - cbn. lia.
Defined.

(** ** In-place operation insertion *)





(** ** Updating one weight twice *)

(** After the constant is replaced, the walk from the same port ends at the
    new constant, on the same port and after as many steps. *)
Lemma walk_after_replace a port v kk k cp cn c :
  walk a port v k cp cn →
  get_source_output a port = Ok (v, kk) →
  type_name c = "Constant" →
  cp.1 < length a →
  let a1 := replace_source_output (a ++ [c]) cp (length a, 0) in
  walk a1 port (if decide (port = cp) then length a else v) k cp (length a).
Proof.
  intros Hwalk Hport Hc Hcp a1.
  assert (Hnew : a1 !! length a = Some c).
  { unfold a1. rewrite lookup_replace_source_output_ne by lia.
    rewrite lookup_app_r by lia. by rewrite Nat.sub_diag. }
  revert kk Hport.
  induction Hwalk as [port v nd Hv Hty|port v nd src rest k cp cn Hv Hty Hin Hwalk IH];
    intros kk Hport.
  - rewrite decide_True by done. by eapply walk_found.
  - assert (Hsrc : get_source_output a (v, 0) = Ok (src.1, src.2)).
    { apply get_source_output_Ok. exists nd. split; [done|]. cbn. rewrite Hin.
      by destruct src. }
    specialize (IH Hcp Hnew _ Hsrc).
    assert (Hpne : port ≠ cp).
    { intros ->.
      pose proof (walk_next a cp v nd src rest k cp cn Hv Hty Hin Hwalk) as Hw.
      destruct (find_const_reads _ _ _ _ _ _ _ Hport (find_const_walk _ _ _ _ _ _ Hw))
        as [Hcty [k' Hread]].
      rewrite Hport in Hread. simplify_eq.
      unfold node_type_name in Hcty. by rewrite Hv in Hcty. }
    rewrite decide_False by done.
    assert (Hfirst : ∃ nd' rest',
               a1 !! v = Some nd' ∧ type_name nd' = type_name nd
               ∧ inputs nd' = (if decide ((v, 0) = cp) then (length a, 0) else src) :: rest').
    { unfold a1. destruct (decide (v = cp.1)) as [->|Hvne].
      - rewrite lookup_replace_source_output_eq, (lookup_app_l_Some _ _ _ _ Hv).
        cbn. destruct cp as [c1 [|c2]]; cbn.
        + eexists _, _. split; [done|]. split; [done|]. cbn. rewrite Hin. cbn.
          by rewrite decide_True.
        + eexists _, _. split; [done|]. split; [done|]. cbn. rewrite Hin. cbn.
          rewrite decide_False; [done|]. congruence.
      - rewrite lookup_replace_source_output_ne by done.
        rewrite (lookup_app_l_Some _ _ _ _ Hv). exists nd, rest.
        split; [done|]. split; [done|]. rewrite Hin.
        rewrite decide_False; [done|]. intros <-. by cbn in Hvne. }
    destruct Hfirst as (nd' & rest' & Hv' & Hty' & Hin').
    eapply walk_next; [exact Hv'|by rewrite Hty'|exact Hin'|].
    destruct (decide ((v, 0) = cp)); exact IH.
Qed.

Lemma weight_update_step_eq mp t v a tn :
  mp !! target_node_name t = Some tn →
  weight_update_step mp (t, v) a = _set_const_value a tn (port_id t) v.
Proof. intros Hmp. unfold weight_update_step, getitem. cbn [fst snd]. by rewrite Hmp. Qed.

(** Two updates of one weight port in a batch: the second walk ends at the
    constant the first update created and replaces it in turn, so the port
    reads a constant holding the second value under the original name;
    every other port keeps its source. *)
Theorem weight_update_twice_last_wins
    (m : model) (t : OVTargetPoint) (v1 v2 : ndarray) (tn : nat)
    (src : nat * nat) (steps : nat) (cp : nat * nat) (cn : nat) (nd : node)
    (old r1 r2 : ndarray) :
  let a := arena m in
  _get_name_to_node_mapping m !! target_node_name t = Some tn →
  get_source_output a (tn, port_id t) = Ok src →
  walk a (tn, port_id t) src.1 steps cp cn →
  a !! cn = Some nd →
  data nd = Some old →
  np_reshape v1 (shape old) = Ok r1 →
  np_reshape v2 (shape old) = Ok r2 →
  ∃ m', _apply_weight_update_transformations m [(t, v1); (t, v2)] = Ok m'
        ∧ length (arena m') = S (S (length a))
        ∧ arena m' !! S (length a)
          = Some (mk_node (friendly_name nd) "Constant" []
                    [mk_tensor_desc (nd_dtype old) (shape old) ∅]
                    (Some (astype r2 (nd_dtype old))) None None [])
        ∧ get_source_output (arena m') cp = Ok (S (length a), 0)
        ∧ (∀ q, q ≠ cp → q.1 < length a →
             get_source_output (arena m') q = get_source_output a q).
Proof.
  intros a Hmp Hsrc Hwalk Hnd Hdata Hr1 Hr2.
  set (c1 := mk_node (friendly_name nd) "Constant" []
               [mk_tensor_desc (nd_dtype old) (shape old) ∅]
               (Some (astype r1 (nd_dtype old))) None None []).
  set (a1 := replace_source_output (a ++ [c1]) cp (length a, 0)).
  set (c2 := mk_node (friendly_name nd) "Constant" []
               [mk_tensor_desc (nd_dtype old) (shape old) ∅]
               (Some (astype r2 (nd_dtype old))) None None []).
  set (a2 := replace_source_output (a1 ++ [c2]) cp (S (length a), 0)).
  destruct src as [s ks]. cbn [fst] in Hwalk.
  destruct (find_const_reads _ _ _ _ _ _ _ Hsrc (find_const_walk _ _ _ _ _ _ Hwalk))
    as [_ [k' Hcp]].
  pose proof (get_source_output_lt _ _ _ Hcp) as Hcplt.
  assert (Hshape : shape r1 = shape old).
  { unfold np_reshape in Hr1. case_decide; [|done]. by simplify_eq. }
  assert (Hlen1 : length a1 = S (length a)).
  { unfold a1. rewrite length_replace_source_output, length_app. cbn. lia. }
  assert (Hnew1 : a1 !! length a = Some c1).
  { unfold a1. rewrite lookup_replace_source_output_ne by lia.
    rewrite lookup_app_r by lia. by rewrite Nat.sub_diag. }
  assert (Hread1 : get_source_output a1 cp = Ok (length a, 0)).
  { eapply get_source_output_replace_eq. by eapply get_source_output_app. }
  assert (Hother1 : ∀ q, q ≠ cp → q.1 < length a →
            get_source_output a1 q = get_source_output a q).
  { intros q Hq Hlt. unfold a1. rewrite get_source_output_replace_ne by done.
    by apply get_source_output_app_lt. }
  assert (Hstep1 : _set_const_value a tn (port_id t) v1 = Ok a1).
  { by rewrite (set_const_value_walk a tn (port_id t) v1 (s, ks) steps cp cn nd old r1). }
  set (s' := if decide ((tn, port_id t) = cp) then length a else s).
  set (ks' := if decide ((tn, port_id t) = cp) then 0 else ks).
  assert (Hsrc' : get_source_output a1 (tn, port_id t) = Ok (s', ks')).
  { unfold s', ks'. case_decide as Hp.
    - by rewrite Hp.
    - rewrite Hother1; [done|done|]. by apply get_source_output_lt in Hsrc. }
  assert (Hwalk' : walk a1 (tn, port_id t) s' steps cp (length a)).
  { by apply (walk_after_replace a (tn, port_id t) s ks steps cp cn c1). }
  assert (Hstep2 : _set_const_value a1 tn (port_id t) v2 = Ok a2).
  { rewrite (set_const_value_walk a1 tn (port_id t) v2 (s', ks') steps cp (length a)
               c1 (astype r1 (nd_dtype old)) r2); try done.
    - unfold a2, c2. rewrite Hlen1. cbn [astype shape nd_dtype]. by rewrite Hshape.
    - cbn [astype shape]. by rewrite Hshape. }
  exists (set_arena m a2). split.
  { unfold _apply_weight_update_transformations. cbv zeta.
    rewrite for_each_cons, (weight_update_step_eq _ _ _ _ tn Hmp). fold a.
    rewrite Hstep1. cbn [mbind result_bind].
    rewrite for_each_cons, (weight_update_step_eq _ _ _ _ tn Hmp), Hstep2. done. }
  cbn [arena set_arena].
  split. { unfold a2. rewrite length_replace_source_output, length_app. cbn. lia. }
  split. { unfold a2. rewrite lookup_replace_source_output_ne by lia.
           rewrite lookup_app_r by lia. by rewrite Hlen1, Nat.sub_diag. }
  split. { eapply get_source_output_replace_eq. by eapply get_source_output_app. }
  intros q Hq Hlt. unfold a2. rewrite get_source_output_replace_ne by done.
  rewrite get_source_output_app_lt by lia. by apply Hother1.
Qed.

Lemma weight_update_twice_last_wins_witness :
  let m := compressed_bias_model in
  let a := arena m in
  let t := mk_target_point OPERATION_WITH_WEIGHTS "add" 1 in
  let v1 := mk_ndarray [4] f32 (Lit <$> [5; 6; 7; 8]%Q) in
  let v2 := mk_ndarray [4] f32 (Lit <$> [1; 2; 3; 4]%Q) in
  ∃ m', _apply_weight_update_transformations m [(t, v1); (t, v2)] = Ok m'
        ∧ length (arena m') = S (S (length a))
        ∧ arena m' !! S (length a)
          = Some (mk_node "bias" "Constant" [] [mk_tensor_desc f16 [4] ∅]
                    (Some (astype v2 f16)) None None [])
        ∧ get_source_output (arena m') (4, 0) = Ok (S (length a), 0)
        ∧ (∀ q, q ≠ (4, 0) → q.1 < length a →
             get_source_output (arena m') q = get_source_output a q).
Proof.
  intros m a t v1 v2.
  apply (weight_update_twice_last_wins m t v1 v2 5 (4, 0) 2 (4, 0) 3
           (const_node "bias" (vec f16 [0; 0; 0; 0]%Q)) (vec f16 [0; 0; 0; 0]%Q)
           v1 v2); try reflexivity.
  eapply walk_next; [reflexivity|done|reflexivity|].
  eapply walk_found; reflexivity.
Defined.

(** ** Bias correction without an [Add] *)

Lemma bias_correction_step_without_add mp t v a tn :
  mp !! target_node_name t = Some tn →
  0 < n_outputs a tn →
  (∀ q, get_source_output a q = Ok (tn, 0) → node_type_name a q.1 ≠ "Add") →
  bias_correction_step mp (t, v) a = Err AssertionError.
Proof.
  intros Hmp Hout Hnone. unfold bias_correction_step, getitem. cbn [fst snd].
  rewrite Hmp. cbn [of_option mbind result_bind].
  assert (node_output a tn 0 = Ok (tn, 0)) as ->.
  { unfold node_output, n_outputs in *. destruct (a !! tn); cbn; [|lia].
    by rewrite decide_True. }
  cbn [mbind result_bind].
  destruct (filter (λ n, node_type_name a n = "Add") (get_target_inputs a (tn, 0)).*1)
    as [|n l] eqn:Hf; [done|].
  assert (Hn : n ∈ filter (λ n, node_type_name a n = "Add")
                 (get_target_inputs a (tn, 0)).*1) by (rewrite Hf; left).
  apply list_elem_of_filter in Hn as [Hadd [q [-> Hq]]%list_elem_of_fmap].
  apply elem_of_get_target_inputs in Hq. by destruct (Hnone q Hq).
Qed.

(** Bias correction expects an [Add] among the consumers of output 0 of
    the target node: when none of them is an [Add], the batch fails with
    AssertionError, whatever port and value the command carries. *)
Theorem bias_correction_without_add_fails
    (m : model) (t : OVTargetPoint) (bias_value : ndarray) (tn : nat)
    (rest : list (OVTargetPoint * ndarray)) :
  let a := arena m in
  _get_name_to_node_mapping m !! target_node_name t = Some tn →
  0 < n_outputs a tn →
  (∀ q, get_source_output a q = Ok (tn, 0) → node_type_name a q.1 ≠ "Add") →
  _apply_bias_correction_transformations m ((t, bias_value) :: rest)
  = Err AssertionError.
Proof.
  intros a Hmp Hout Hnone. unfold _apply_bias_correction_transformations. cbv zeta.
  rewrite for_each_cons.
  by rewrite (bias_correction_step_without_add _ _ _ _ tn Hmp Hout Hnone).
Qed.

Lemma bias_correction_without_add_fails_witness :
  _apply_bias_correction_transformations shared_weight_model
    [(mk_target_point POST_LAYER_OPERATION "conv2" 0, new_bias)]
  = Err AssertionError.
Proof.
  apply (bias_correction_without_add_fails shared_weight_model
           (mk_target_point POST_LAYER_OPERATION "conv2" 0) new_bias 3 []).
  - by vm_compute.
  - cbn. lia.
  - intros q Hq%elem_of_get_target_inputs. vm_compute in Hq.
    apply list_elem_of_singleton in Hq as ->. by vm_compute.
Defined.
